(** * analyze-weight-diff.py: a shallow embedding and its properties

    The script reads a unified diff of Substrate weight files, recovers a
    before/after weight record per benchmarked function and reports the
    changes that exceed a threshold.

    Conventions of the embedding.
    - A Python [str] is a [string]; a character is a code point below 256.
    - A Python [int] is a [Z]; a Python [float] is an IEEE binary64 value,
      a [spec_float] computed with the operations of [SpecFloat] at
      precision 53 and maximal exponent 1024.
    - A [dict] is an association list in insertion order; assigning to a key
      that is present keeps its position.
    - The iteration order of a [set] of strings is not fixed by the language:
      it is a parameter ([SetOrder]) of every function that iterates a set.
    - An exception that the script does not catch is a [Raise] result.
    - [int] is taken without the interpreter's optional limit on the number
      of digits of a literal, and so is [str] of an integer. *)

From Stdlib Require Import ZArith List String Ascii Bool Lia Permutation.
From Stdlib Require Import DecimalString.
From Stdlib Require Import Floats.SpecFloat.
Import ListNotations.

Open Scope string_scope.
Open Scope list_scope.
Open Scope Z_scope.

(** ** Python values and built-ins *)

Module Py.

Inductive exn := ValueError | OverflowError.

Inductive result (A : Type) :=
| OK (a : A)
| Raise (e : exn).
Arguments OK {A} a.
Arguments Raise {A} e.

Definition bind {A B} (r : result A) (f : A -> result B) : result B :=
  match r with
  | OK a => f a
  | Raise e => Raise e
  end.

(** [str.isspace] and the class [\s] on code points below 256. *)
Definition isspace (c : ascii) : bool :=
  let n := nat_of_ascii c in
  ((9 <=? n) && (n <=? 13) || (28 <=? n) && (n <=? 32)
   || (n =? 133) || (n =? 160))%nat.

(** The class [\d]. *)
Definition isdigit (c : ascii) : bool :=
  let n := nat_of_ascii c in ((48 <=? n) && (n <=? 57))%nat.

(** The class [\w]: alphanumeric code points and the underscore. *)
Definition isword (c : ascii) : bool :=
  let n := nat_of_ascii c in
  (isdigit c
   || (65 <=? n) && (n <=? 90) || (n =? 95) || (97 <=? n) && (n <=? 122)
   || (n =? 170) || (n =? 178) || (n =? 179) || (n =? 181)
   || (n =? 185) || (n =? 186) || (188 <=? n) && (n <=? 190)
   || (192 <=? n) && (n <=? 214) || (216 <=? n) && (n <=? 246)
   || (248 <=? n))%nat.

(** The class [\S]. *)
Definition nonspace (c : ascii) : bool := negb (isspace c).

(** The class [[\d_]]. *)
Definition digit_or_underscore (c : ascii) : bool :=
  isdigit c || Ascii.eqb c "_".

Fixpoint lstrip (s : string) : string :=
  match s with
  | String c s' => if isspace c then lstrip s' else s
  | EmptyString => EmptyString
  end.

Fixpoint rstrip (s : string) : string :=
  match s with
  | String c s' =>
      match rstrip s' with
      | EmptyString => if isspace c then EmptyString else String c EmptyString
      | r => String c r
      end
  | EmptyString => EmptyString
  end.

(** [s.strip()] *)
Definition strip (s : string) : string := rstrip (lstrip s).

(** [s.startswith(p)] *)
Definition startswith (p s : string) : bool := String.prefix p s.

(** [sub in s] *)
Fixpoint contains (sub s : string) : bool :=
  String.prefix sub s
  || match s with
     | String _ s' => contains sub s'
     | EmptyString => false
     end.

(** [s.split(sep)] for a separator of one character. *)
Fixpoint split (sep : ascii) (s : string) : list string :=
  match s with
  | EmptyString => [EmptyString]
  | String c s' =>
      if Ascii.eqb c sep then EmptyString :: split sep s'
      else match split sep s' with
           | w :: ws => String c w :: ws
           | [] => [String c EmptyString]
           end
  end.

(** [s.replace(old, new)] for a non-empty [old]: the occurrences are taken
    from left to right and do not overlap.  [skip] counts the characters
    of an occurrence that are still to be dropped. *)
Fixpoint replace_from (old new : string) (skip : nat) (s : string) : string :=
  match s with
  | EmptyString => EmptyString
  | String c s' =>
      match skip with
      | S k => replace_from old new k s'
      | O =>
          if String.prefix old s
          then String.append new (replace_from old new (String.length old - 1) s')
          else String c (replace_from old new O s')
      end
  end.

Definition replace (old new s : string) : string := replace_from old new O s.

(** [parts[-1]] of a list of strings (the empty string on an empty list,
    which [split] never returns). *)
Definition last_part (parts : list string) : string := last parts EmptyString.

(** Value of a string of decimal digits, most significant first. *)
Fixpoint digits_value (acc : Z) (s : string) : Z :=
  match s with
  | EmptyString => acc
  | String c s' => digits_value (10 * acc + (Z.of_nat (nat_of_ascii c) - 48)) s'
  end.

Fixpoint all_digits (s : string) : bool :=
  match s with
  | EmptyString => true
  | String c s' => isdigit c && all_digits s'
  end.

(** [int(s)] on a string of decimal digits; the empty string is not a
    literal. *)
Definition int (s : string) : result Z :=
  match s with
  | EmptyString => Raise ValueError
  | _ => if all_digits s then OK (digits_value 0 s) else Raise ValueError
  end.

(** *** Ordered dictionaries *)

Definition dict (V : Type) := list (string * V).

Fixpoint get {V} (d : dict V) (k : string) : option V :=
  match d with
  | [] => None
  | (k', v) :: d' => if String.eqb k' k then Some v else get d' k
  end.

(** [d.get(k, dflt)] *)
Definition get_default {V} (d : dict V) (k : string) (dflt : V) : V :=
  match get d k with Some v => v | None => dflt end.

(** [d[k] = v] *)
Fixpoint set {V} (d : dict V) (k : string) (v : V) : dict V :=
  match d with
  | [] => [(k, v)]
  | (k', v') :: d' =>
      if String.eqb k' k then (k', v) :: d' else (k', v') :: set d' k v
  end.

(** [d[k].append(x)] on a [defaultdict(list)] *)
Definition append {V} (d : dict (list V)) (k : string) (x : V) : dict (list V) :=
  set d k (get_default d k [] ++ [x]).

Definition keys {V} (d : dict V) : list string := map fst d.

(** *** Iteration order of sets of strings *)

Fixpoint mem (k : string) (l : list string) : bool :=
  match l with
  | [] => false
  | x :: l' => String.eqb x k || mem k l'
  end.

(** The distinct elements of [l], by first occurrence. *)
Fixpoint distinct (seen l : list string) : list string :=
  match l with
  | [] => []
  | x :: l' => if mem x seen then distinct seen l' else x :: distinct (x :: seen) l'
  end.

(** [iter l] is the order in which a set built from the elements [l] is
    iterated: some enumeration, without repetition, of these elements. *)
Record SetOrder := {
  iter : list string -> list string;
  iter_In : forall l x, In x (iter l) <-> In x l;
  iter_NoDup : forall l, NoDup (iter l)
}.

(** *** Floats *)

Definition float := spec_float.

Definition prec : Z := 53.
Definition emax : Z := 1024.

(** [float(z)], rounded to nearest even. *)
Definition of_int (z : Z) : float := binary_normalize prec emax z 0 false.

Definition inf : float := S754_infinity false.

Definition fmul : float -> float -> float := SFmul prec emax.
Definition fabs : float -> float := SFabs.
Definition fneg : float -> float := SFopp.
Definition flt : float -> float -> bool := SFltb.
Definition feq : float -> float -> bool := SFeqb.

(** [a / b] on integers with [b] non-zero: the quotient rounded once to
    nearest even; a quotient beyond the largest float raises. *)
Definition int_truediv (a b : Z) : result float :=
  let exact z :=
    match z with
    | Z0 => S754_zero false
    | Zpos m => S754_finite false m 0
    | Zneg m => S754_finite true m 0
    end in
  match SFdiv prec emax (exact a) (exact b) with
  | S754_infinity _ => Raise OverflowError
  | q => OK q
  end.

(** *** Text of numbers *)

(** [str(z)] *)
Definition str (z : Z) : string := NilZero.string_of_int (Z.to_int z).

Definition sign_text (s : bool) : string := if s then "-" else "".

(** The number of tenths nearest to [m * 2^e], ties to the even number. *)
Definition tenths (m : positive) (e : Z) : Z :=
  let n := Zpos m * 10 in
  match e with
  | Zneg k =>
      let d := Z.pow_pos 2 k in
      let q := n / d in
      match Z.compare (2 * (n mod d)) d with
      | Lt => q
      | Gt => q + 1
      | Eq => if Z.even q then q else q + 1
      end
  | _ => n * 2 ^ e
  end.

(** [f"{x:.1f}"]: one digit after the point, correctly rounded. *)
Definition format_1f (x : float) : string :=
  match x with
  | S754_nan => "nan"
  | S754_infinity s => String.append (sign_text s) "inf"
  | S754_zero s => String.append (sign_text s) "0.0"
  | S754_finite s m e =>
      let t := tenths m e in
      String.append (sign_text s)
        (String.append (str (t / 10)) (String.append "." (str (t mod 10))))
  end.

End Py.

Import Py.

Declare Scope py_scope.
Notation "x <- e ;; k" := (Py.bind e (fun x => k))
  (at level 61, e at next level, right associativity) : py_scope.
Open Scope py_scope.

(** ** The fragment of [re] that the script uses

    Every pattern of the script is a sequence of literal characters,
    greedy repetitions of one character class, and capture groups that are
    not nested.  [match_here] explores the alternatives in the order of a
    backtracking matcher: a repetition first takes as many characters as it
    can and gives them back one at a time. *)

Module Re.

Inductive atom :=
| Chr (c : ascii)                  (* a literal character *)
| Many0 (cls : ascii -> bool)      (* cls* *)
| Many1 (cls : ascii -> bool)      (* cls+ *)
| GOpen                            (* ( *)
| GClose.                          (* ) *)

Definition pattern := list atom.

Fixpoint lit (s : string) : pattern :=
  match s with
  | EmptyString => []
  | String c s' => Chr c :: lit s'
  end.

(** Groups closed so far, and the text of the group that is open. *)
Record mstate := { closed : list string; opened : option string }.

Definition start : mstate := {| closed := []; opened := None |}.

Definition feed (c : ascii) (st : mstate) : mstate :=
  match opened st with
  | Some g => {| closed := closed st; opened := Some (String.append g (String c EmptyString)) |}
  | None => st
  end.

Definition open_group (st : mstate) : mstate :=
  {| closed := closed st; opened := Some EmptyString |}.

Definition close_group (st : mstate) : mstate :=
  match opened st with
  | Some g => {| closed := closed st ++ [g]; opened := None |}
  | None => st
  end.

Fixpoint greedy (cls : ascii -> bool)
    (k : string -> mstate -> option (list string))
    (s : string) (st : mstate) : option (list string) :=
  match s with
  | String c s' =>
      if cls c then
        match greedy cls k s' (feed c st) with
        | Some r => Some r
        | None => k s st
        end
      else k s st
  | EmptyString => k s st
  end.

Fixpoint match_here (p : pattern) : string -> mstate -> option (list string) :=
  match p with
  | [] => fun _ st => Some (closed st)
  | Chr c :: p' => fun s st =>
      match s with
      | String a s' => if Ascii.eqb a c then match_here p' s' (feed a st) else None
      | EmptyString => None
      end
  | Many0 cls :: p' => greedy cls (match_here p')
  | Many1 cls :: p' => fun s st =>
      match s with
      | String a s' => if cls a then greedy cls (match_here p') s' (feed a st) else None
      | EmptyString => None
      end
  | GOpen :: p' => fun s st => match_here p' s (open_group st)
  | GClose :: p' => fun s st => match_here p' s (close_group st)
  end.

(** [re.match(p, s)]: the groups of the match at the start of [s]. *)
Definition match_ (p : pattern) (s : string) : option (list string) :=
  match_here p s start.

(** [re.search(p, s)]: the groups of the leftmost match. *)
Fixpoint search (p : pattern) (s : string) : option (list string) :=
  match match_here p s start with
  | Some r => Some r
  | None =>
      match s with
      | String _ s' => search p s'
      | EmptyString => None
      end
  end.

(** [m.group(i)], [i] counted from 1. *)
Definition group (r : list string) (i : nat) : string :=
  nth (i - 1) r EmptyString.

End Re.

Import Re.

(** ** The patterns of the script *)

Definition grp (p : pattern) : pattern := GOpen :: p ++ [GClose].

(** [Minimum execution time:\s*([\d_]+)\s*picoseconds] *)
Definition min_re : pattern :=
  lit "Minimum execution time:" ++ [Many0 isspace]
  ++ grp [Many1 digit_or_underscore] ++ [Many0 isspace] ++ lit "picoseconds".

(** [\(\s*([\d_]+)\s*,\s*([\d_]+)\s*\)] *)
Definition two_numbers : pattern :=
  lit "(" ++ [Many0 isspace] ++ grp [Many1 digit_or_underscore]
  ++ [Many0 isspace] ++ lit "," ++ [Many0 isspace]
  ++ grp [Many1 digit_or_underscore] ++ [Many0 isspace] ++ lit ")".

(** [Weight::from_parts\(\s*([\d_]+)\s*,\s*([\d_]+)\s*\)] *)
Definition base_re : pattern := lit "Weight::from_parts" ++ two_numbers.

(** [\.saturating_add\(Weight::from_parts\(\s*([\d_]+)\s*,\s*([\d_]+)\s*\)\.saturating_mul\((\w+)\.into\(\)\)\)] *)
Definition mul_re : pattern :=
  lit ".saturating_add(Weight::from_parts" ++ two_numbers
  ++ lit ".saturating_mul(" ++ grp [Many1 isword] ++ lit ".into()))".

(** [\.reads\(\((\d+)_u64\)\.saturating_mul\((\w+)] *)
Definition reads_re : pattern :=
  lit ".reads((" ++ grp [Many1 isdigit] ++ lit "_u64).saturating_mul("
  ++ grp [Many1 isword].

(** [\.reads\((\d+)_u64\)] *)
Definition reads_base_re : pattern :=
  lit ".reads(" ++ grp [Many1 isdigit] ++ lit "_u64)".

(** [fn (\w+)] *)
Definition hunk_fn_re : pattern := lit "fn " ++ grp [Many1 isword].

(** [\s*fn (\w+)\s*\(] *)
Definition fn_decl_re : pattern :=
  [Many0 isspace] ++ lit "fn " ++ grp [Many1 isword] ++ [Many0 isspace] ++ lit "(".

(** [b/(runtime/\S+)] *)
Definition path_re : pattern :=
  lit "b/" ++ grp (lit "runtime/" ++ [Many1 nonspace]).

(** ** parse_weight_block *)

Record weight_block := {
  base_ref : Z;
  base_proof : Z;
  min_execution_time : option Z;
  ref_multipliers : dict Z;
  proof_multipliers : dict Z;
  db_reads_base : Z;
  db_reads_per_var : dict Z
}.

Definition empty_block : weight_block :=
  {| base_ref := 0; base_proof := 0; min_execution_time := None;
     ref_multipliers := []; proof_multipliers := [];
     db_reads_base := 0; db_reads_per_var := [] |}.

(** [int(g.replace("_", ""))] *)
Definition int_sep (g : string) : result Z := int (replace "_" "" g).

(** The body of the loop of [parse_weight_block] on one line. *)
Definition parse_line (result : weight_block) (line : string) : Py.result weight_block :=
  let clean := strip line in
  match search min_re clean with
  | Some m =>
      t <- int_sep (group m 1) ;;
      OK {| base_ref := base_ref result; base_proof := base_proof result;
            min_execution_time := Some t;
            ref_multipliers := ref_multipliers result;
            proof_multipliers := proof_multipliers result;
            db_reads_base := db_reads_base result;
            db_reads_per_var := db_reads_per_var result |}
  | None =>
  match (if negb (contains "saturating_add" clean)
         then search base_re clean else None) with
  | Some m =>
      r <- int_sep (group m 1) ;;
      p <- int_sep (group m 2) ;;
      OK {| base_ref := r; base_proof := p;
            min_execution_time := min_execution_time result;
            ref_multipliers := ref_multipliers result;
            proof_multipliers := proof_multipliers result;
            db_reads_base := db_reads_base result;
            db_reads_per_var := db_reads_per_var result |}
  | None =>
  match search mul_re clean with
  | Some m =>
      ref_val <- int_sep (group m 1) ;;
      proof_val <- int_sep (group m 2) ;;
      let var_name := group m 3 in
      OK {| base_ref := base_ref result; base_proof := base_proof result;
            min_execution_time := min_execution_time result;
            ref_multipliers :=
              if ref_val >? 0 then set (ref_multipliers result) var_name ref_val
              else ref_multipliers result;
            proof_multipliers :=
              if proof_val >? 0 then set (proof_multipliers result) var_name proof_val
              else proof_multipliers result;
            db_reads_base := db_reads_base result;
            db_reads_per_var := db_reads_per_var result |}
  | None =>
  match search reads_re clean with
  | Some m =>
      n <- int (group m 1) ;;
      OK {| base_ref := base_ref result; base_proof := base_proof result;
            min_execution_time := min_execution_time result;
            ref_multipliers := ref_multipliers result;
            proof_multipliers := proof_multipliers result;
            db_reads_base := db_reads_base result;
            db_reads_per_var := set (db_reads_per_var result) (group m 2) n |}
  | None =>
  match search reads_base_re clean with
  | Some m =>
      if negb (contains "saturating_mul" clean) then
        n <- int (group m 1) ;;
        OK {| base_ref := base_ref result; base_proof := base_proof result;
              min_execution_time := min_execution_time result;
              ref_multipliers := ref_multipliers result;
              proof_multipliers := proof_multipliers result;
              db_reads_base := n;
              db_reads_per_var := db_reads_per_var result |}
      else OK result
  | None => OK result
  end end end end end.

Fixpoint parse_from (result : weight_block) (lines : list string) : Py.result weight_block :=
  match lines with
  | [] => OK result
  | line :: rest => r <- parse_line result line ;; parse_from r rest
  end.

Definition parse_weight_block (lines : list string) : Py.result weight_block :=
  parse_from empty_block lines.

(** ** extract_function_diffs *)

Record seg_state := {
  current_fn : option string;
  fn_removed_lines : dict (list string);
  fn_added_lines : dict (list string)
}.

Definition seg_start : seg_state :=
  {| current_fn := None; fn_removed_lines := []; fn_added_lines := [] |}.

(** [line[1:]] *)
Definition drop_first (line : string) : string :=
  match line with
  | String _ s => s
  | EmptyString => EmptyString
  end.

(** [line[1:] if line and line[0] in " +-" else line] *)
Definition content_of (line : string) : string :=
  match line with
  | String c s =>
      if Ascii.eqb c " " || Ascii.eqb c "+" || Ascii.eqb c "-" then s else line
  | EmptyString => line
  end.

Definition is_metadata (line : string) : bool :=
  startswith "---" line || startswith "+++" line || startswith "index " line.

Definition is_removal (line : string) : bool :=
  startswith "-" line && negb (startswith "---" line).

Definition is_addition (line : string) : bool :=
  startswith "+" line && negb (startswith "+++" line).

(** The body of the first loop of [extract_function_diffs] on one line. *)
Definition segment_line (st : seg_state) (line : string) : seg_state :=
  if is_metadata line then st
  else if startswith "@@" line then
    match search hunk_fn_re line with
    | Some m => {| current_fn := Some (group m 1);
                   fn_removed_lines := fn_removed_lines st;
                   fn_added_lines := fn_added_lines st |}
    | None => st
    end
  else
    let cur :=
      match match_ fn_decl_re (content_of line) with
      | Some m => Some (group m 1)
      | None => current_fn st
      end in
    match cur with
    | None => st
    | Some f =>
        if is_removal line then
          {| current_fn := cur;
             fn_removed_lines := append (fn_removed_lines st) f (drop_first line);
             fn_added_lines := fn_added_lines st |}
        else if is_addition line then
          {| current_fn := cur;
             fn_removed_lines := fn_removed_lines st;
             fn_added_lines := append (fn_added_lines st) f (drop_first line) |}
        else
          {| current_fn := cur;
             fn_removed_lines := fn_removed_lines st;
             fn_added_lines := fn_added_lines st |}
    end.

Definition segment_from (st : seg_state) (file_lines : list string) : seg_state :=
  fold_left segment_line file_lines st.

Definition segment (file_lines : list string) : seg_state :=
  segment_from seg_start file_lines.

Definition is_some {A} (x : option A) : bool :=
  match x with Some _ => true | None => false end.

Definition nonempty {A} (l : list A) : bool :=
  match l with [] => false | _ => true end.

(** [has_old] and [has_new] *)
Definition has_data (b : weight_block) : bool :=
  (base_ref b >? 0) || is_some (min_execution_time b) || nonempty (ref_multipliers b).

Definition fn_diffs := dict (weight_block * weight_block).

(** The second loop of [extract_function_diffs], over the names [fns]. *)
Fixpoint collect (removed_d added_d : dict (list string)) (fns : list string)
    (result : fn_diffs) : Py.result fn_diffs :=
  match fns with
  | [] => OK result
  | fn_name :: rest =>
      let removed := get_default removed_d fn_name [] in
      let added := get_default added_d fn_name [] in
      if negb (nonempty removed) && negb (nonempty added)
      then collect removed_d added_d rest result
      else
        old_block <- parse_weight_block removed ;;
        new_block <- parse_weight_block added ;;
        if has_data old_block || has_data new_block
        then collect removed_d added_d rest (set result fn_name (old_block, new_block))
        else collect removed_d added_d rest result
  end.

Definition all_fns (o : SetOrder) (st : seg_state) : list string :=
  iter o (keys (fn_removed_lines st) ++ keys (fn_added_lines st)).

Definition extract_function_diffs (o : SetOrder) (file_lines : list string)
    : Py.result fn_diffs :=
  let st := segment file_lines in
  collect (fn_removed_lines st) (fn_added_lines st) (all_fns o st) [].

(** ** Helpers *)

Definition zero : float := S754_zero false.

Definition pct (old new : Z) : Py.result float :=
  if old =? 0 then OK (if new >? 0 then inf else zero)
  else q <- int_truediv (new - old) old ;; OK (fmul q (of_int 100)).

Definition format_weight (val : Z) : Py.result string :=
  if val >=? 1000000000 then
    q <- int_truediv val 1000000000 ;; OK (String.append (format_1f q) "B")
  else if val >=? 1000000 then
    q <- int_truediv val 1000000 ;; OK (String.append (format_1f q) "M")
  else if val >=? 1000 then
    q <- int_truediv val 1000 ;; OK (String.append (format_1f q) "K")
  else OK (str val).

(** ** main: from the diff text to the list of changes *)

Record change := {
  runtime : string;
  pallet : string;
  function : string;
  old : weight_block;
  new : weight_block
}.

Record split_state := {
  file_diffs : dict (list string);
  current_file : option string;
  current_lines : list string
}.

Definition split_start : split_state :=
  {| file_diffs := []; current_file := None; current_lines := [] |}.

(** [if current_file and current_lines: file_diffs[current_file] = current_lines] *)
Definition flush (st : split_state) : dict (list string) :=
  match current_file st with
  | Some (String c f) =>
      if nonempty (current_lines st)
      then set (file_diffs st) (String c f) (current_lines st)
      else file_diffs st
  | _ => file_diffs st
  end.

Definition split_line (st : split_state) (line : string) : split_state :=
  if startswith "diff --git" line then
    {| file_diffs := flush st;
       current_file :=
         match search path_re line with
         | Some m => Some (group m 1)
         | None => None
         end;
       current_lines := [] |}
  else
    match current_file st with
    | Some _ =>
        {| file_diffs := file_diffs st;
           current_file := current_file st;
           current_lines := current_lines st ++ [line] |}
    | None => st
    end.

Definition split_files (lines : list string) : dict (list string) :=
  flush (fold_left split_line lines split_start).

(** [parts[1] if len(parts) > 1 else "unknown"] *)
Definition runtime_of (filepath : string) : string :=
  nth 1 (split "/" filepath) "unknown".

(** [parts[-1].replace(".rs", "") if parts else "unknown"] *)
Definition pallet_of (filepath : string) : string :=
  match split "/" filepath with
  | [] => "unknown"
  | parts => replace ".rs" "" (last_part parts)
  end.

Definition changes_of_file (filepath : string) (fd : fn_diffs) : list change :=
  map (fun '(fn_name, (o, n)) =>
         {| runtime := runtime_of filepath; pallet := pallet_of filepath;
            function := fn_name; old := o; new := n |}) fd.

Fixpoint changes_of_files (o : SetOrder) (files : dict (list string))
    : Py.result (list change) :=
  match files with
  | [] => OK []
  | (filepath, flines) :: rest =>
      fd <- extract_function_diffs o flines ;;
      cs <- changes_of_files o rest ;;
      OK (changes_of_file filepath fd ++ cs)
  end.

(** [all_changes] *)
Definition aggregate (o : SetOrder) (diff_text : string) : Py.result (list change) :=
  changes_of_files o (split_files (split "010" diff_text)).

(** ** main: classification *)

(** [sorted(l, key=key)]: a stable sort with the comparison [<] of the keys.
    On keys that [<] orders totally the result of a stable sort is unique;
    it is computed here by insertion. *)
Section Sorting.
Context {A K : Type} (lt : K -> K -> bool) (key : A -> K).

(** [x] stood before every element of the sorted list [l]: it goes before
    the first element whose key is not smaller than its own. *)
Fixpoint insert (x : A) (l : list A) : list A :=
  match l with
  | [] => [x]
  | y :: l' => if lt (key y) (key x) then y :: insert x l' else x :: y :: l'
  end.

Fixpoint sorted (l : list A) : list A :=
  match l with
  | [] => []
  | x :: l' => insert x (sorted l')
  end.

(** [sorted(l, key=key, reverse=True)]: the list is reversed, sorted and
    reversed again, so that equal keys keep their order. *)
Definition sorted_reverse (l : list A) : list A := rev (sorted (rev l)).
End Sorting.

(** The comparison [<] of [str]. *)
Fixpoint str_lt (a b : string) : bool :=
  match a, b with
  | _, EmptyString => false
  | EmptyString, String _ _ => true
  | String x a', String y b' =>
      (nat_of_ascii x <? nat_of_ascii y)%nat
      || (nat_of_ascii x =? nat_of_ascii y)%nat && str_lt a' b'
  end.

(** [x and x > 0] and the like, on an optional integer. *)
Definition truthy (x : option Z) : bool :=
  match x with
  | Some v => negb (v =? 0)
  | None => false
  end.

Definition value (x : option Z) : Z :=
  match x with Some v => v | None => 0 end.

(** [old_min and new_min and old_min > 0] *)
Definition min_measured (c : change) : bool :=
  truthy (min_execution_time (old c)) && truthy (min_execution_time (new c))
  && (value (min_execution_time (old c)) >? 0).

Definition old_min (c : change) : Z := value (min_execution_time (old c)).
Definition new_min (c : change) : Z := value (min_execution_time (new c)).

(** [min_changes], and [rt_min_changes] on the changes of one runtime. *)
Fixpoint min_changes (cs : list change) : Py.result (list float) :=
  match cs with
  | [] => OK []
  | c :: rest =>
      if min_measured c then
        p <- pct (old_min c) (new_min c) ;;
        ps <- min_changes rest ;;
        OK (p :: ps)
      else min_changes rest
  end.

Definition count (f : float -> bool) (l : list float) : nat :=
  List.length (filter f l).

Definition ups (l : list float) : nat := count (fun p => flt zero p) l.
Definition downs (l : list float) : nat := count (fun p => flt p zero) l.

(** [min(l)] and [max(l)] of a list that starts with [x]. *)
Definition minimum (x : float) (l : list float) : float :=
  fold_left (fun m p => if flt p m then p else m) l x.
Definition maximum (x : float) (l : list float) : float :=
  fold_left (fun m p => if flt m p then p else m) l x.

(** [sorted_mc[len(sorted_mc) // 2]] *)
Definition median (l : list float) : float :=
  nth (Nat.div (List.length l) 2) (sorted flt (fun p => p) l) zero.

Definition base_both (c : change) : bool :=
  (base_ref (old c) >? 0) && (base_ref (new c) >? 0).

(** Section 1: [sig_base_inc] before it is sorted. *)
Fixpoint base_inc (cs : list change) (threshold : float)
    : Py.result (list (change * float)) :=
  match cs with
  | [] => OK []
  | c :: rest =>
      if base_both c then
        p <- pct (base_ref (old c)) (base_ref (new c)) ;;
        l <- base_inc rest threshold ;;
        OK (if flt threshold p then (c, p) :: l else l)
      else base_inc rest threshold
  end.

Definition sig_base_inc (cs : list change) (threshold : float)
    : Py.result (list (change * float)) :=
  l <- base_inc cs threshold ;; OK (sorted_reverse flt snd l).

(** Section 2: [sig_base_dec] before it is sorted. *)
Fixpoint base_dec (cs : list change) (threshold : float)
    : Py.result (list (change * float)) :=
  match cs with
  | [] => OK []
  | c :: rest =>
      if base_both c then
        p <- pct (base_ref (old c)) (base_ref (new c)) ;;
        l <- base_dec rest threshold ;;
        OK (if flt p (fneg threshold) then (c, p) :: l else l)
      else base_dec rest threshold
  end.

Definition sig_base_dec (cs : list change) (threshold : float)
    : Py.result (list (change * float)) :=
  l <- base_dec cs threshold ;; OK (sorted flt snd l).

(** An entry [(c, var, old_val, new_val, p)] of [sig_mul] or [sig_proof]. *)
Record var_entry := {
  ve_change : change;
  ve_var : string;
  ve_old : Z;
  ve_new : Z;
  ve_pct : float
}.

Definition minus_100 : float := fneg (of_int 100).

(** The entries of one change in section 3, over the variables [vars]. *)
Fixpoint mul_vars (c : change) (vars : list string) (threshold : float)
    : Py.result (list var_entry) :=
  match vars with
  | [] => OK []
  | var :: rest =>
      let old_val := get_default (ref_multipliers (old c)) var 0 in
      let new_val := get_default (ref_multipliers (new c)) var 0 in
      if (old_val >? 0) && (new_val >? 0) then
        p <- pct old_val new_val ;;
        l <- mul_vars c rest threshold ;;
        OK (if flt threshold (fabs p)
            then {| ve_change := c; ve_var := var; ve_old := old_val;
                    ve_new := new_val; ve_pct := p |} :: l
            else l)
      else if (old_val =? 0) && (new_val >? 0) then
        l <- mul_vars c rest threshold ;;
        OK ({| ve_change := c; ve_var := var; ve_old := old_val;
               ve_new := new_val; ve_pct := inf |} :: l)
      else if (old_val >? 0) && (new_val =? 0) then
        l <- mul_vars c rest threshold ;;
        OK ({| ve_change := c; ve_var := var; ve_old := old_val;
               ve_new := new_val; ve_pct := minus_100 |} :: l)
      else mul_vars c rest threshold
  end.

(** [set(old_muls.keys()) | set(new_muls.keys())] in iteration order. *)
Definition union_keys (o : SetOrder) (a b : dict Z) : list string :=
  iter o (keys a ++ keys b).

Fixpoint mul_entries (o : SetOrder) (cs : list change) (threshold : float)
    : Py.result (list var_entry) :=
  match cs with
  | [] => OK []
  | c :: rest =>
      l <- mul_vars c (union_keys o (ref_multipliers (old c)) (ref_multipliers (new c)))
             threshold ;;
      ls <- mul_entries o rest threshold ;;
      OK (l ++ ls)
  end.

(** [abs(x[4]) if x[4] != float("inf") else 999999] *)
Definition magnitude_key (e : var_entry) : float :=
  if negb (feq (ve_pct e) inf) then fabs (ve_pct e) else of_int 999999.

Definition sig_mul (o : SetOrder) (cs : list change) (threshold : float)
    : Py.result (list var_entry) :=
  l <- mul_entries o cs threshold ;; OK (sorted_reverse flt magnitude_key l).

(** Section 4: [sig_min] before it is sorted; an entry is [(c, p)], the two
    times being those of [c]. *)
Fixpoint min_entries (cs : list change) (threshold : float)
    : Py.result (list (change * float)) :=
  match cs with
  | [] => OK []
  | c :: rest =>
      if min_measured c then
        p <- pct (old_min c) (new_min c) ;;
        l <- min_entries rest threshold ;;
        OK (if flt threshold (fabs p) then (c, p) :: l else l)
      else min_entries rest threshold
  end.

Definition abs_snd (x : change * float) : float := fabs (snd x).

Definition sig_min (cs : list change) (threshold : float)
    : Py.result (list (change * float)) :=
  l <- min_entries cs threshold ;; OK (sorted_reverse flt abs_snd l).

(** The entries of one change in section 5. *)
Fixpoint proof_vars (c : change) (vars : list string) : Py.result (list var_entry) :=
  match vars with
  | [] => OK []
  | var :: rest =>
      let old_val := get_default (proof_multipliers (old c)) var 0 in
      let new_val := get_default (proof_multipliers (new c)) var 0 in
      if (old_val >? 0) && (new_val >? 0) then
        p <- pct old_val new_val ;;
        l <- proof_vars c rest ;;
        OK (if flt (of_int 100) (fabs p)
            then {| ve_change := c; ve_var := var; ve_old := old_val;
                    ve_new := new_val; ve_pct := p |} :: l
            else l)
      else if (old_val =? 0) && (new_val >? 0) then
        l <- proof_vars c rest ;;
        OK ({| ve_change := c; ve_var := var; ve_old := old_val;
               ve_new := new_val; ve_pct := inf |} :: l)
      else proof_vars c rest
  end.

Fixpoint proof_entries (o : SetOrder) (cs : list change) : Py.result (list var_entry) :=
  match cs with
  | [] => OK []
  | c :: rest =>
      l <- proof_vars c (union_keys o (proof_multipliers (old c))
                           (proof_multipliers (new c))) ;;
      ls <- proof_entries o rest ;;
      OK (l ++ ls)
  end.

Definition sig_proof (o : SetOrder) (cs : list change) : Py.result (list var_entry) :=
  l <- proof_entries o cs ;; OK (sorted_reverse flt magnitude_key l).

(** Section 7: [all_min]. *)
Fixpoint all_min_entries (cs : list change) : Py.result (list (change * float)) :=
  match cs with
  | [] => OK []
  | c :: rest =>
      if min_measured c then
        p <- pct (old_min c) (new_min c) ;;
        l <- all_min_entries rest ;;
        OK ((c, p) :: l)
      else all_min_entries rest
  end.

Definition all_min (cs : list change) : Py.result (list (change * float)) :=
  l <- all_min_entries cs ;; OK (sorted_reverse flt abs_snd l).

(** ** main: the report

    What the script prints is kept as a list of blocks, one per [print]
    call (or pair of calls), holding the values that the call formats, and
    the text of [format_weight] where the call formats a value with it.  An
    exception stops the run after the blocks printed so far.  The averages
    of the summaries are formatted from the list [changes] of their block. *)

Inductive block :=
| NoInput                                           (* "No diff input provided. ..." *)
| Banner (threshold : float)
| Total (n : nat)
| MinSummary (n_ups n_downs : nat) (changes : list float) (med lo hi : float)
| Header (section : nat)
| NoneFound
| FnLine (c : change)                               (* "  [runtime] pallet::function" *)
| BaseRef (old_val new_val : Z) (p : float)
| BaseMin (old_val new_val : Z) (mp : float)
| GroupKey (key : string)
| PerVarRef (var : string) (old_txt new_txt : string) (p : float)
| PerVarReads (rv : string) (or_val nr_val : Z)
| MinExec (old_txt new_txt : string) (p : float)
| PerVarProof (var : string) (old_txt new_txt : string) (p : float)
| RuntimeSummary (rt : string) (n_items n_ups n_downs : nat) (changes : list float)
| RuntimeFlagged (big_ups big_downs : nat)
| TableHeader
| TableRow (c : change) (old_txt new_txt : string) (p : float).

Module Out.

(** A computation that prints and may raise. *)
Definition M (A : Type) := list block -> Py.result A * list block.

Definition ret {A} (a : A) : M A := fun out => (OK a, out).

Definition bind {A B} (m : M A) (f : A -> M B) : M B :=
  fun out =>
    match m out with
    | (OK a, out') => f a out'
    | (Raise e, out') => (Raise e, out')
    end.

Definition print (b : block) : M unit := fun out => (OK tt, out ++ [b]).

Definition lift {A} (r : Py.result A) : M A := fun out => (r, out).

Fixpoint for_each {A} (l : list A) (body : A -> M unit) : M unit :=
  match l with
  | [] => ret tt
  | x :: l' => bind (body x) (fun _ => for_each l' body)
  end.

Definition when (b : bool) (m : M unit) : M unit := if b then m else ret tt.

End Out.

Import Out.

Notation "x <~ e ;; k" := (Out.bind e (fun x => k))
  (at level 61, e at next level, right associativity) : py_scope.
Notation "e ;;; k" := (Out.bind e (fun _ => k))
  (at level 61, right associativity) : py_scope.

(** [f"[{c['runtime']}] {c['pallet']}::{c['function']}"] *)
Definition fn_key (c : change) : string :=
  String.append "["
    (String.append (runtime c)
       (String.append "] "
          (String.append (pallet c) (String.append "::" (function c))))).

(** [by_fn] *)
Definition group_by_fn (sig : list var_entry) : dict (list var_entry) :=
  fold_left (fun by_fn e => append by_fn (fn_key (ve_change e)) e) sig [].

(** The lines on storage reads of the change [c0]. *)
Definition reads_lines (o : SetOrder) (c0 : change) : list block :=
  let old_reads_per := db_reads_per_var (old c0) in
  let new_reads_per := db_reads_per_var (new c0) in
  flat_map
    (fun rv =>
       let or_val := get_default old_reads_per rv 0 in
       let nr_val := get_default new_reads_per rv 0 in
       if negb (or_val =? nr_val) then [PerVarReads rv or_val nr_val] else [])
    (union_keys o old_reads_per new_reads_per).

(** The line of one entry of section 3; the two values are formatted
    before the line is printed. *)
Definition ref_line (e : var_entry) : M unit :=
  old_txt <~ lift (format_weight (ve_old e)) ;;
  new_txt <~ lift (format_weight (ve_new e)) ;;
  print (PerVarRef (ve_var e) old_txt new_txt (ve_pct e)).

(** What section 3 prints for the group [key] with the entries [entries]. *)
Definition print_group (o : SetOrder) (key : string) (entries : list var_entry)
    : M unit :=
  match entries with
  | [] => ret tt   (* a group holds an entry: [entries[0]] is defined *)
  | e0 :: _ =>
      print (GroupKey key) ;;;
      for_each entries ref_line ;;;
      for_each (reads_lines o (ve_change e0)) print
  end.

(** [sorted(by_fn.keys())] *)
Definition group_keys (sig : list var_entry) : list string :=
  sorted str_lt (fun k => k) (keys (group_by_fn sig)).

Definition overall (all_changes : list change) : M unit :=
  mc <~ lift (min_changes all_changes) ;;
  print (Total (List.length all_changes)) ;;;
  match mc with
  | [] => ret tt
  | p :: ps =>
      print (MinSummary (ups mc) (downs mc) mc (median mc) (minimum p ps) (maximum p ps))
  end.

Definition section1 (all_changes : list change) (threshold : float) : M unit :=
  print (Header 1) ;;;
  sig <~ lift (sig_base_inc all_changes threshold) ;;
  match sig with
  | [] => print NoneFound
  | _ =>
      for_each sig (fun '(c, p) =>
        print (FnLine c) ;;;
        print (BaseRef (base_ref (old c)) (base_ref (new c)) p) ;;;
        when (truthy (min_execution_time (old c)) && truthy (min_execution_time (new c)))
          (mp <~ lift (pct (old_min c) (new_min c)) ;;
           print (BaseMin (old_min c) (new_min c) mp)))
  end.

Definition section2 (all_changes : list change) (threshold : float) : M unit :=
  print (Header 2) ;;;
  sig <~ lift (sig_base_dec all_changes threshold) ;;
  match sig with
  | [] => print NoneFound
  | _ =>
      for_each sig (fun '(c, p) =>
        print (FnLine c) ;;;
        print (BaseRef (base_ref (old c)) (base_ref (new c)) p))
  end.

Definition section3 (o : SetOrder) (all_changes : list change) (threshold : float)
    : M unit :=
  print (Header 3) ;;;
  sig <~ lift (sig_mul o all_changes threshold) ;;
  match sig with
  | [] => print NoneFound
  | _ =>
      for_each (group_keys sig)
        (fun key => print_group o key (get_default (group_by_fn sig) key []))
  end.

Definition section4 (all_changes : list change) (threshold : float) : M unit :=
  print (Header 4) ;;;
  sig <~ lift (sig_min all_changes threshold) ;;
  match sig with
  | [] => print NoneFound
  | _ =>
      for_each sig (fun '(c, p) =>
        print (FnLine c) ;;;
        old_txt <~ lift (format_weight (old_min c)) ;;
        new_txt <~ lift (format_weight (new_min c)) ;;
        print (MinExec old_txt new_txt p))
  end.

Definition section5 (o : SetOrder) (all_changes : list change) : M unit :=
  print (Header 5) ;;;
  sig <~ lift (sig_proof o all_changes) ;;
  match sig with
  | [] => print NoneFound
  | _ =>
      for_each sig (fun e =>
        print (FnLine (ve_change e)) ;;;
        old_txt <~ lift (format_weight (ve_old e)) ;;
        new_txt <~ lift (format_weight (ve_new e)) ;;
        print (PerVarProof (ve_var e) old_txt new_txt (ve_pct e)))
  end.

(** The runtimes that section 6 goes through. *)
Definition summary_runtimes : list string := ["moonbase"; "moonbeam"; "moonriver"].

Definition runtime_summary (all_changes : list change) (threshold : float)
    (rt : string) : M unit :=
  let rt_items := filter (fun c => String.eqb (runtime c) rt) all_changes in
  match rt_items with
  | [] => ret tt
  | _ =>
      rt_min_changes <~ lift (min_changes rt_items) ;;
      when (nonempty rt_min_changes)
        (let big_ups := count (fun p => flt threshold p) rt_min_changes in
         let big_downs := count (fun p => flt p (fneg threshold)) rt_min_changes in
         print (RuntimeSummary rt (List.length rt_items) (ups rt_min_changes)
                  (downs rt_min_changes) rt_min_changes) ;;;
         when (negb (Nat.eqb big_ups 0) || negb (Nat.eqb big_downs 0))
           (print (RuntimeFlagged big_ups big_downs)))
  end.

Definition section6 (all_changes : list change) (threshold : float) : M unit :=
  print (Header 6) ;;;
  for_each summary_runtimes (runtime_summary all_changes threshold).

Definition section7 (all_changes : list change) : M unit :=
  print (Header 7) ;;;
  print TableHeader ;;;
  rows <~ lift (all_min all_changes) ;;
  for_each rows (fun '(c, p) =>
    old_txt <~ lift (format_weight (old_min c)) ;;
    new_txt <~ lift (format_weight (new_min c)) ;;
    print (TableRow c old_txt new_txt p)).

(** [main] after the check of the input. *)
Definition report (o : SetOrder) (diff_text : string) (threshold : float) : M unit :=
  all_changes <~ lift (aggregate o diff_text) ;;
  print (Banner threshold) ;;;
  overall all_changes ;;;
  section1 all_changes threshold ;;;
  section2 all_changes threshold ;;;
  section3 o all_changes threshold ;;;
  section4 all_changes threshold ;;;
  section5 o all_changes ;;;
  section6 all_changes threshold ;;;
  section7 all_changes.

(** How the process ends: [main] returns, [sys.exit(code)] is called, or an
    exception reaches the top level (the interpreter then writes a traceback
    and the exit status is 1). *)
Inductive ending :=
| Returned
| SysExit (code : Z)
| Uncaught (e : exn).

Definition exit_status (e : ending) : Z :=
  match e with
  | Returned => 0
  | SysExit code => code
  | Uncaught _ => 1
  end.

Record outcome := { stdout : list block; ended : ending }.

Definition main (o : SetOrder) (diff_text : string) (threshold : float) : outcome :=
  match strip diff_text with
  | EmptyString => {| stdout := [NoInput]; ended := SysExit 1 |}
  | _ =>
      match report o diff_text threshold [] with
      | (OK _, out) => {| stdout := out; ended := Returned |}
      | (Raise e, out) => {| stdout := out; ended := Uncaught e |}
      end
  end.

(** ** An iteration order: by first occurrence *)

Lemma mem_In (k : string) (l : list string) : mem k l = true <-> In k l.
Proof.
  induction l as [|x l IH]; simpl.
  - split; [discriminate | tauto].
  - rewrite orb_true_iff, IH, String.eqb_eq. tauto.
Qed.

Lemma distinct_In (l seen : list string) (x : string) :
  In x (distinct seen l) <-> In x l /\ ~ In x seen.
Proof.
  revert seen. induction l as [|y l IH]; intros seen; simpl.
  - tauto.
  - destruct (mem y seen) eqn:E.
    + rewrite IH. apply mem_In in E. split.
      * tauto.
      * intros [[->|H] Hn]; tauto.
    + assert (Hy : ~ In y seen) by (rewrite <- mem_In, E; discriminate).
      simpl. rewrite IH. simpl. split.
      * intros [->|[H Hn]]; tauto.
      * intros [[->|H] Hn]; [tauto|].
        destruct (string_dec y x) as [->|Hne]; tauto.
Qed.

Lemma distinct_NoDup (l seen : list string) : NoDup (distinct seen l).
Proof.
  revert seen. induction l as [|y l IH]; intros seen; simpl.
  - constructor.
  - destruct (mem y seen); [apply IH|].
    constructor; [|apply IH].
    rewrite distinct_In. simpl. tauto.
Qed.

Definition first_seen : SetOrder.
Proof.
  refine {| iter := distinct [] |}.
  - intros l x. rewrite distinct_In. simpl. tauto.
  - intros l. apply distinct_NoDup.
Defined.

(** ** Checks of the embedding on concrete inputs *)

Definition nl : string := String "010" EmptyString.

(** The text whose lines are [lines]. *)
Definition text (lines : list string) : string := String.concat nl lines.

Example search_min_time :
  search min_re "// Minimum execution time: 12_345 picoseconds." = Some ["12_345"].
Proof. reflexivity. Qed.

Example search_base_backtracks :
  search base_re "Weight::from_parts(1, x) Weight::from_parts( 2_0 ,30 )" = Some ["2_0"; "30"].
Proof. reflexivity. Qed.

Example search_mul :
  search mul_re
    ".saturating_add(Weight::from_parts(500, 0).saturating_mul(n.into()))"
  = Some ["500"; "0"; "n"].
Proof. reflexivity. Qed.

Example match_fn_decl :
  match_ fn_decl_re "    fn set_keys (n: u32, ) -> Weight {" = Some ["set_keys"].
Proof. reflexivity. Qed.

Example strip_both_sides : strip (String "009" "  a b  ") = "a b".
Proof. reflexivity. Qed.

Example split_keeps_empty_parts : split "/" "a//b" = ["a"; ""; "b"].
Proof. reflexivity. Qed.

Example replace_every_occurrence : replace ".rs" "" "a.rs.rsx" = "ax".
Proof. reflexivity. Qed.

Example pct_doubles : pct 100000 200000 = OK (of_int 100).
Proof. reflexivity. Qed.

Example pct_appeared : pct 0 5 = OK inf /\ pct 0 0 = OK zero.
Proof. split; reflexivity. Qed.

(** ** Dictionaries *)

Section DictFacts.
Context {V : Type}.
Implicit Types (d : dict V) (k : string) (v : V).

Lemma get_set_same d k v : get (set d k v) k = Some v.
Proof.
  induction d as [|[k' v'] d IH]; simpl.
  - now rewrite String.eqb_refl.
  - destruct (String.eqb k' k) eqn:E; simpl; rewrite E; auto.
Qed.

Lemma get_set_other d k k' v : k <> k' -> get (set d k v) k' = get d k'.
Proof.
  intros Hne. induction d as [|[k0 v0] d IH]; simpl.
  - destruct (String.eqb k k') eqn:E; [apply String.eqb_eq in E; tauto | reflexivity].
  - destruct (String.eqb k0 k) eqn:E; simpl.
    + apply String.eqb_eq in E. subst k0.
      destruct (String.eqb k k') eqn:E'; [apply String.eqb_eq in E'; tauto | reflexivity].
    + now rewrite IH.
Qed.

Lemma In_set d k v k' v' :
  In (k', v') (set d k v) -> (k' = k /\ v' = v) \/ In (k', v') d.
Proof.
  induction d as [|[k0 v0] d IH]; simpl.
  - intros [H|[]]. inversion H. auto.
  - destruct (String.eqb k0 k) eqn:E; simpl.
    + apply String.eqb_eq in E. subst k0.
      intros [H|H]; [inversion H; auto | auto].
    + intros [H|H]; [auto | destruct (IH H); auto].
Qed.

Lemma keys_set d k v x : In x (keys (set d k v)) <-> x = k \/ In x (keys d).
Proof.
  unfold keys. induction d as [|[k0 v0] d IH]; simpl.
  - intuition.
  - destruct (String.eqb k0 k) eqn:E; simpl.
    + apply String.eqb_eq in E. subst k0. intuition.
    + rewrite IH. intuition.
Qed.

Lemma get_None_keys d k : get d k = None <-> ~ In k (keys d).
Proof.
  unfold keys. induction d as [|[k0 v0] d IH]; simpl.
  - intuition.
  - destruct (String.eqb k0 k) eqn:E.
    + apply String.eqb_eq in E. split; [discriminate | intuition].
    + apply String.eqb_neq in E. rewrite IH. intuition.
Qed.

Lemma get_In d k v : get d k = Some v -> In (k, v) d.
Proof.
  induction d as [|[k0 v0] d IH]; simpl; [discriminate|].
  destruct (String.eqb k0 k) eqn:E.
  - apply String.eqb_eq in E. intros [= ->]. subst. auto.
  - auto.
Qed.
End DictFacts.

Lemma get_default_append_same {V} (d : dict (list V)) k x :
  get_default (append d k x) k [] = get_default d k [] ++ [x].
Proof. unfold get_default at 1, append. now rewrite get_set_same. Qed.

Lemma get_default_append_other {V} (d : dict (list V)) k k' x :
  k <> k' -> get_default (append d k x) k' [] = get_default d k' [].
Proof. intros H. unfold get_default, append. now rewrite get_set_other. Qed.

(** ** Properties of parse_weight_block *)

Lemma digits_value_nonneg (s : string) (acc : Z) :
  0 <= acc -> all_digits s = true -> 0 <= digits_value acc s.
Proof.
  revert acc. induction s as [|c s IH]; cbn [digits_value all_digits];
    intros acc Hacc H; [assumption|].
  apply andb_true_iff in H. destruct H as [Hc Hs].
  apply IH; [|assumption].
  unfold isdigit in Hc. apply andb_true_iff in Hc. destruct Hc as [Hc _].
  apply Nat.leb_le in Hc. lia.
Qed.

Lemma int_nonneg (s : string) (z : Z) : int s = OK z -> 0 <= z.
Proof.
  intros H.
  assert (E : all_digits s = true /\ z = digits_value 0 s).
  { unfold int in H. destruct s as [|c s]; [discriminate|].
    destruct (all_digits (String c s)); [|discriminate].
    injection H as <-. auto. }
  destruct E as [E ->]. apply digits_value_nonneg; [lia | exact E].
Qed.

(** Every stored multiplier of time and of proof size is positive, every
    stored multiplier of storage reads is not negative. *)
Definition multipliers_ok (b : weight_block) : Prop :=
  (forall var v, In (var, v) (ref_multipliers b) -> 0 < v)
  /\ (forall var v, In (var, v) (proof_multipliers b) -> 0 < v)
  /\ (forall var v, In (var, v) (db_reads_per_var b) -> 0 <= v).

Ltac bind_inv H :=
  match type of H with
  | Py.bind ?e _ = OK _ =>
      let E := fresh "E" in destruct e eqn:E; simpl in H; [|discriminate]
  end.

Lemma parse_line_ok (b b' : weight_block) (line : string) :
  multipliers_ok b -> parse_line b line = OK b' -> multipliers_ok b'.
Proof.
  intros (Hr & Hp & Hd). unfold parse_line.
  destruct (search min_re _).
  { intros H. bind_inv H. injection H as <-. repeat split; simpl; auto. }
  destruct (if negb _ then _ else _).
  { intros H. do 2 bind_inv H. injection H as <-. repeat split; simpl; auto. }
  destruct (search mul_re _).
  { intros H. do 2 bind_inv H. injection H as <-. repeat split; simpl; auto.
    - intros var v. destruct (Z.gtb_spec a 0); [|apply Hr].
      intros Hin. apply In_set in Hin. destruct Hin as [[_ ->]|Hin]; [lia | eauto].
    - intros var v. destruct (Z.gtb_spec a0 0); [|apply Hp].
      intros Hin. apply In_set in Hin. destruct Hin as [[_ ->]|Hin]; [lia | eauto]. }
  destruct (search reads_re _).
  { intros H. bind_inv H. injection H as <-. repeat split; simpl; auto.
    intros var v Hin. apply In_set in Hin.
    destruct Hin as [[_ ->]|Hin]; [eapply int_nonneg; eassumption | eauto]. }
  destruct (search reads_base_re _).
  { destruct (negb _).
    - intros H. bind_inv H. injection H as <-. repeat split; simpl; auto.
    - intros [= <-]. repeat split; auto. }
  intros [= <-]. repeat split; auto.
Qed.

Lemma parse_from_ok (lines : list string) (b b' : weight_block) :
  multipliers_ok b -> parse_from b lines = OK b' -> multipliers_ok b'.
Proof.
  revert b. induction lines as [|line lines IH]; simpl; intros b Hb H.
  - now injection H as <-.
  - bind_inv H. eapply IH; [|eassumption]. eapply parse_line_ok; eassumption.
Qed.

Definition old_side_lines : list string :=
  ["    // Minimum execution time: 12_345 picoseconds.";
   "    Weight::from_parts(100_000, 2_000)";
   "      .saturating_add(Weight::from_parts(500, 0).saturating_mul(n.into()))";
   "      .saturating_add(Weight::from_parts(0, 64).saturating_mul(m.into()))";
   "      .saturating_add(T::DbWeight::get().reads(3_u64))";
   "      .saturating_add(T::DbWeight::get().reads((2_u64).saturating_mul(n.into())))"].

Example parse_old_side :
  parse_weight_block old_side_lines
  = OK {| base_ref := 100000; base_proof := 2000; min_execution_time := Some 12345;
          ref_multipliers := [("n", 500)]; proof_multipliers := [("m", 64)];
          db_reads_base := 3; db_reads_per_var := [("n", 2)] |}.
Proof. vm_compute. reflexivity. Qed.

(** Whatever the record holds, a line that states a base cost sets the two
    base fields. *)
Lemma base_line_overwrites (b : weight_block) :
  parse_line b "    Weight::from_parts(200_000, 3_000)"
  = OK {| base_ref := 200000; base_proof := 3000;
          min_execution_time := min_execution_time b;
          ref_multipliers := ref_multipliers b;
          proof_multipliers := proof_multipliers b;
          db_reads_base := db_reads_base b;
          db_reads_per_var := db_reads_per_var b |}.
Proof. vm_compute. reflexivity. Qed.

(** C1. Two lines that both state a base cost: the record produced by
    [parse_weight_block] holds the numbers of the later line, although the
    first line alone gives 100000 and 2000.  The assignment to [base_ref]
    and [base_proof] is not guarded by a test that they are still unset, so
    each further match overwrites them: the last match decides, not the
    first. *)
Theorem base_cost_taken_from_last_match :
  (exists b, parse_weight_block ["    Weight::from_parts(100_000, 2_000)"] = OK b
             /\ base_ref b = 100000 /\ base_proof b = 2000)
  /\ (exists b, parse_weight_block
                  ["    Weight::from_parts(100_000, 2_000)";
                   "    Weight::from_parts(200_000, 3_000)"] = OK b
                /\ base_ref b = 200000 /\ base_proof b = 3000).
Proof.
  split; eexists; (split; [vm_compute; reflexivity | split; reflexivity]).
Qed.

(** The claim C3 as it is stated: the three multiplier mappings hold
    positive values only. *)
Definition all_multipliers_positive (b : weight_block) : Prop :=
  (forall var v, In (var, v) (ref_multipliers b) -> 0 < v)
  /\ (forall var v, In (var, v) (proof_multipliers b) -> 0 < v)
  /\ (forall var v, In (var, v) (db_reads_per_var b) -> 0 < v).

(** C3, counterexample. A term of storage reads per [n] with the factor 0
    is matched and stored: the record holds the read multiplier 0 for [n]. *)
Lemma zero_read_multiplier_is_stored :
  exists b,
    parse_weight_block
      ["      .saturating_add(T::DbWeight::get().reads((0_u64).saturating_mul(n.into())))"]
    = OK b
    /\ db_reads_per_var b = [("n", 0)]
    /\ ~ all_multipliers_positive b.
Proof.
  eexists. split; [vm_compute; reflexivity|]. split; [reflexivity|].
  intros (_ & _ & H). specialize (H "n" 0 (or_introl eq_refl)). lia.
Qed.

(** C3, amended. In every record that [parse_weight_block] returns, the
    multipliers of time and of proof size are strictly positive (a matched
    value of zero is not stored); a multiplier of storage reads is stored as
    matched and is not negative. *)
Theorem extracted_multipliers_ok (lines : list string) (b : weight_block) :
  parse_weight_block lines = OK b -> multipliers_ok b.
Proof.
  apply parse_from_ok. repeat split; simpl; intros var v [].
Qed.

Lemma extracted_multipliers_ok_witness :
  exists b, parse_weight_block old_side_lines = OK b /\ multipliers_ok b.
Proof.
  eexists. split; [vm_compute; reflexivity|].
  apply (extracted_multipliers_ok old_side_lines). vm_compute. reflexivity.
Defined.

(** ** Properties of extract_function_diffs *)

(** A record holds data on the weight of a function. *)
Definition retained (b : weight_block) : Prop :=
  0 < base_ref b \/ min_execution_time b <> None \/ ref_multipliers b <> [].

Lemma has_data_spec (b : weight_block) : has_data b = true <-> retained b.
Proof.
  unfold has_data, retained. rewrite !orb_true_iff, Z.gtb_lt.
  destruct (min_execution_time b), (ref_multipliers b); simpl;
    intuition (discriminate || congruence).
Qed.

(** Every bucket of lines holds a line. *)
Definition buckets_nonempty (d : dict (list string)) : Prop :=
  forall k l, In (k, l) d -> l <> [].

Lemma append_nonempty (d : dict (list string)) (k x : string) :
  buckets_nonempty d -> buckets_nonempty (append d k x).
Proof.
  intros H k' l Hin. apply In_set in Hin. destruct Hin as [[_ ->]|Hin].
  - intros E. now apply app_eq_nil in E.
  - eauto.
Qed.

Lemma segment_line_nonempty (st : seg_state) (line : string) :
  buckets_nonempty (fn_removed_lines st) /\ buckets_nonempty (fn_added_lines st) ->
  buckets_nonempty (fn_removed_lines (segment_line st line))
  /\ buckets_nonempty (fn_added_lines (segment_line st line)).
Proof.
  intros [Hr Ha]. unfold segment_line.
  destruct (is_metadata line); [auto|].
  destruct (startswith "@@" line).
  { destruct (search hunk_fn_re line); auto. }
  destruct (match match_ fn_decl_re (content_of line) with
            | Some m => Some (group m 1) | None => current_fn st end); [|auto].
  destruct (is_removal line); simpl; [auto using append_nonempty|].
  destruct (is_addition line); simpl; auto using append_nonempty.
Qed.

Lemma segment_from_nonempty (lines : list string) (st : seg_state) :
  buckets_nonempty (fn_removed_lines st) /\ buckets_nonempty (fn_added_lines st) ->
  buckets_nonempty (fn_removed_lines (segment_from st lines))
  /\ buckets_nonempty (fn_added_lines (segment_from st lines)).
Proof.
  revert st. unfold segment_from.
  induction lines as [|line lines IH]; simpl; intros st H; [assumption|].
  apply IH, segment_line_nonempty, H.
Qed.

Lemma key_bucket_nonempty (d : dict (list string)) (k : string) :
  buckets_nonempty d -> In k (keys d) -> get_default d k [] <> [].
Proof.
  intros Hd Hk. unfold get_default.
  destruct (get d k) as [l|] eqn:E.
  - apply get_In in E. eauto.
  - apply get_None_keys in E. contradiction.
Qed.

Lemma nonempty_false {A} (l : list A) : nonempty l = false <-> l = [].
Proof. destruct l; simpl; split; congruence. Qed.

Lemma collect_spec (rd ad : dict (list string)) (fns : list string) :
  forall (acc res : fn_diffs),
    collect rd ad fns acc = OK res ->
    NoDup fns ->
    (forall fn, In fn fns -> get acc fn = None) ->
    (forall fn, In fn fns -> get_default rd fn [] <> [] \/ get_default ad fn [] <> []) ->
    forall fn,
      (In fn fns ->
       exists o n,
         parse_weight_block (get_default rd fn []) = OK o
         /\ parse_weight_block (get_default ad fn []) = OK n
         /\ get res fn = if has_data o || has_data n then Some (o, n) else None)
      /\ (~ In fn fns -> get res fn = get acc fn).
Proof.
  induction fns as [|f fns IH]; intros acc res H Hnd Hacc Hne fn.
  - simpl in H. injection H as <-. split; [intros [] | reflexivity].
  - cbn [collect] in H.
    assert (Hf : negb (nonempty (get_default rd f [])) && negb (nonempty (get_default ad f []))
                 = false).
    { destruct (Hne f (or_introl eq_refl)) as [Hx|Hx];
        destruct (get_default rd f []), (get_default ad f []); simpl; congruence. }
    rewrite Hf in H. do 2 bind_inv H.
    inversion Hnd as [|? ? Hnotin Hnd']; subst.
    assert (Hrest : exists acc',
               collect rd ad fns acc' = OK res
               /\ get acc' f = (if has_data a || has_data a0 then Some (a, a0) else None)
               /\ forall g, g <> f -> get acc' g = get acc g).
    { destruct (has_data a || has_data a0).
      - eexists. split; [exact H|]. split; [apply get_set_same|].
        intros g Hg. apply get_set_other. congruence.
      - eexists. split; [exact H|]. split; [apply Hacc; now left | reflexivity]. }
    destruct Hrest as (acc' & Hc & Hgf & Hother).
    assert (Hacc' : forall g, In g fns -> get acc' g = None).
    { intros g Hg. rewrite Hother; [apply Hacc; now right | congruence]. }
    destruct (IH acc' res Hc Hnd' Hacc' (fun g Hg => Hne g (or_intror Hg)) fn)
      as [Hin Hout].
    split.
    + intros [<-|Hin']; [|auto].
      exists a, a0. repeat split; try assumption.
      rewrite (proj2 (IH acc' res Hc Hnd' Hacc' (fun g Hg => Hne g (or_intror Hg)) f) Hnotin).
      exact Hgf.
    + intros Hn. rewrite Hout by (simpl in Hn; tauto).
      apply Hother. simpl in Hn. intros ->. tauto.
Qed.

Definition sample_file_lines : list string :=
  ["index 123..456 100644";
   "--- a/runtime/moonbase/src/weights/pallet_x.rs";
   "+++ b/runtime/moonbase/src/weights/pallet_x.rs";
   "@@ -10,7 +10,7 @@ impl WeightInfo for X { fn foo(n: u32) -> Weight {";
   "-    // Minimum execution time: 10_000 picoseconds.";
   "+    // Minimum execution time: 25_000 picoseconds.";
   "-    Weight::from_parts(100_000, 2_000)";
   "+    Weight::from_parts(200_000, 2_000)";
   "+      .saturating_add(Weight::from_parts(500, 0).saturating_mul(n.into()))";
   " }";
   "     fn bar() -> Weight {";
   "-    // Storage: `System::Account` (r:1 w:1)";
   "+    // Storage: `System::Account` (r:2 w:1)";
   "@@ -40,3 +40,3 @@";
   "-      .saturating_add(T::DbWeight::get().reads(3_u64))";
   "+      .saturating_add(T::DbWeight::get().reads(4_u64))"].



(** ** The cursor of the segmentation *)

Lemma prefix_cons (a : ascii) (p s : string) :
  String.prefix (String a p) s = true <->
  exists s', s = String a s' /\ String.prefix p s' = true.
Proof.
  destruct s as [|b s]; simpl.
  - split; [discriminate | intros (s' & H & _); discriminate].
  - destruct (ascii_dec a b) as [->|Hne].
    + split; [eauto | intros (s' & [= <-] & H); exact H].
    + split; [discriminate | intros (s' & [= E _] & _); congruence].
Qed.

Lemma metadata_not_change (line : string) :
  is_metadata line = true -> is_removal line = false /\ is_addition line = false.
Proof.
  unfold is_metadata, is_removal, is_addition, startswith.
  rewrite !orb_true_iff. intros [[H|H]|H].
  - rewrite H. apply prefix_cons in H. destruct H as (s' & -> & _).
    split; [apply andb_false_r | reflexivity].
  - rewrite H. apply prefix_cons in H. destruct H as (s' & -> & _).
    split; [reflexivity | apply andb_false_r].
  - apply prefix_cons in H. destruct H as (s' & -> & _). split; reflexivity.
Qed.

Lemma removal_not_header (line : string) :
  is_removal line = true ->
  is_metadata line = false /\ startswith "@@" line = false /\ is_addition line = false.
Proof.
  intros H. destruct (is_metadata line) eqn:M.
  - apply metadata_not_change in M. destruct M; congruence.
  - unfold is_removal, startswith in H. apply andb_true_iff in H. destruct H as [H _].
    apply prefix_cons in H. destruct H as (s' & -> & _). repeat split.
Qed.

Lemma addition_not_header (line : string) :
  is_addition line = true ->
  is_metadata line = false /\ startswith "@@" line = false /\ is_removal line = false.
Proof.
  intros H. destruct (is_metadata line) eqn:M.
  - apply metadata_not_change in M. destruct M; congruence.
  - unfold is_addition, startswith in H. apply andb_true_iff in H. destruct H as [H _].
    apply prefix_cons in H. destruct H as (s' & -> & _). repeat split.
Qed.

(** The lines of [body] that are removals, and those that are additions,
    without their marker. *)
Definition removals (body : list string) : list string :=
  map drop_first (filter is_removal body).
Definition additions (body : list string) : list string :=
  map drop_first (filter is_addition body).

(** One line that names no function, under the cursor [f]. *)
Lemma segment_line_under_cursor (st : seg_state) (f line : string) :
  current_fn st = Some f ->
  startswith "@@" line = false ->
  match_ fn_decl_re (content_of line) = None ->
  let st' := segment_line st line in
  current_fn st' = Some f
  /\ get_default (fn_removed_lines st') f []
     = get_default (fn_removed_lines st) f [] ++ removals [line]
  /\ get_default (fn_added_lines st') f []
     = get_default (fn_added_lines st) f [] ++ additions [line]
  /\ forall g, g <> f ->
       get_default (fn_removed_lines st') g [] = get_default (fn_removed_lines st) g []
       /\ get_default (fn_added_lines st') g [] = get_default (fn_added_lines st) g [].
Proof.
  intros Hcur Hat Hdecl. unfold segment_line, removals, additions.
  cbn [filter].
  destruct (is_metadata line) eqn:M.
  { apply metadata_not_change in M. destruct M as [-> ->]. simpl.
    rewrite !app_nil_r. auto. }
  rewrite Hat, Hdecl, Hcur.
  destruct (is_removal line) eqn:R.
  { apply removal_not_header in R. destruct R as (_ & _ & ->). simpl.
    rewrite get_default_append_same, app_nil_r. repeat split; auto.
    apply get_default_append_other; congruence. }
  destruct (is_addition line) eqn:A; simpl.
  { rewrite get_default_append_same, app_nil_r. repeat split; auto.
    apply get_default_append_other; congruence. }
  rewrite !app_nil_r. auto.
Qed.

Lemma segment_body_under_cursor (body : list string) :
  forall (st : seg_state) (f : string),
    current_fn st = Some f ->
    (forall line, In line body ->
       startswith "@@" line = false /\ match_ fn_decl_re (content_of line) = None) ->
    let st' := segment_from st body in
    current_fn st' = Some f
    /\ get_default (fn_removed_lines st') f []
       = get_default (fn_removed_lines st) f [] ++ removals body
    /\ get_default (fn_added_lines st') f []
       = get_default (fn_added_lines st) f [] ++ additions body
    /\ forall g, g <> f ->
         get_default (fn_removed_lines st') g [] = get_default (fn_removed_lines st) g []
         /\ get_default (fn_added_lines st') g [] = get_default (fn_added_lines st) g [].
Proof.
  induction body as [|line body IH]; intros st f Hcur Hbody.
  - simpl. unfold removals, additions. simpl. rewrite !app_nil_r. auto.
  - destruct (Hbody line (or_introl eq_refl)) as [Hat Hdecl].
    destruct (segment_line_under_cursor st f line Hcur Hat Hdecl)
      as (Hc & Hr & Ha & Ho).
    destruct (IH (segment_line st line) f Hc (fun l Hl => Hbody l (or_intror Hl)))
      as (Hc' & Hr' & Ha' & Ho').
    unfold segment_from in *. cbn [fold_left].
    split; [exact Hc'|]. split; [|split].
    + rewrite Hr', Hr. unfold removals. cbn [filter].
      destruct (is_removal line); simpl; rewrite <- app_assoc; reflexivity.
    + rewrite Ha', Ha. unfold additions. cbn [filter].
      destruct (is_addition line); simpl; rewrite <- app_assoc; reflexivity.
    + intros g Hg. destruct (Ho g Hg) as [<- <-]. apply Ho', Hg.
Qed.

(** A line that is read while no function has been identified, and that
    identifies none, leaves no trace. *)
Lemma segment_line_without_cursor (st : seg_state) (line : string) :
  current_fn st = None ->
  (startswith "@@" line = true -> search hunk_fn_re line = None) ->
  (startswith "@@" line = false -> match_ fn_decl_re (content_of line) = None) ->
  segment_line st line = st.
Proof.
  intros Hcur Hh Hd. unfold segment_line.
  destruct (is_metadata line); [reflexivity|].
  destruct (startswith "@@" line).
  - now rewrite Hh.
  - now rewrite Hd, Hcur.
Qed.

Lemma hunk_header_is_no_metadata (header : string) :
  startswith "@@" header = true -> is_metadata header = false.
Proof.
  intros H. apply prefix_cons in H. destruct H as (s' & -> & _). reflexivity.
Qed.

(** Once a function has been identified the cursor stays set, and every
    removed or added line read from then on is appended to the lines of the
    function under the cursor. *)
Lemma segment_line_records (st : seg_state) (f line : string) :
  current_fn st = Some f ->
  let st' := segment_line st line in
  exists g,
    current_fn st' = Some g
    /\ (is_removal line = true ->
        get_default (fn_removed_lines st') g []
        = get_default (fn_removed_lines st) g [] ++ [drop_first line])
    /\ (is_addition line = true ->
        get_default (fn_added_lines st') g []
        = get_default (fn_added_lines st) g [] ++ [drop_first line]).
Proof.
  intros Hcur. unfold segment_line.
  destruct (is_metadata line) eqn:M.
  { apply metadata_not_change in M. destruct M as [-> ->].
    exists f. repeat split; auto; discriminate. }
  destruct (startswith "@@" line) eqn:Hat.
  { assert (is_removal line = false /\ is_addition line = false) as [-> ->].
    { apply prefix_cons in Hat. destruct Hat as (s' & -> & _). split; reflexivity. }
    destruct (search hunk_fn_re line).
    - eexists. repeat split; simpl; auto; discriminate.
    - exists f. repeat split; auto; discriminate. }
  assert (Hg : exists g, match match_ fn_decl_re (content_of line) with
                         | Some m => Some (group m 1)
                         | None => current_fn st
                         end = Some g).
  { destruct (match_ fn_decl_re (content_of line)); eauto. }
  destruct Hg as (g & ->). exists g.
  destruct (is_removal line) eqn:R.
  { apply removal_not_header in R. destruct R as (_ & _ & ->). simpl.
    rewrite get_default_append_same. repeat split; auto; discriminate. }
  destruct (is_addition line); simpl.
  - rewrite get_default_append_same. repeat split; auto; discriminate.
  - repeat split; auto; discriminate.
Qed.

(** C10, amended. A hunk whose header names no function and whose body
    holds no function declaration, read while the cursor is on [f]: the
    cursor is still on [f] after the hunk; the lines of the hunk that start
    with [-] and not with [---] have been appended, in order and without
    their marker, to the removed lines of [f], and the lines that start with
    [+] and not with [+++] likewise to the added lines of [f]; the lines of
    the other functions are unchanged.  A removed line that starts with
    [---] and an added line that starts with [+++] are skipped as headers of
    a file, in a hunk as anywhere else.  Read before any function has been
    identified, the same hunk leaves no trace. *)
Theorem cursor_persists_across_hunks
    (st : seg_state) (f header : string) (body : list string) :
  current_fn st = Some f ->
  startswith "@@" header = true ->
  search hunk_fn_re header = None ->
  (forall line, In line body ->
     startswith "@@" line = false /\ match_ fn_decl_re (content_of line) = None) ->
  let st' := segment_from st (header :: body) in
  current_fn st' = Some f
  /\ get_default (fn_removed_lines st') f []
     = get_default (fn_removed_lines st) f [] ++ removals body
  /\ get_default (fn_added_lines st') f []
     = get_default (fn_added_lines st) f [] ++ additions body
  /\ (forall g, g <> f ->
        get_default (fn_removed_lines st') g [] = get_default (fn_removed_lines st) g []
        /\ get_default (fn_added_lines st') g [] = get_default (fn_added_lines st) g [])
  /\ (forall st0, current_fn st0 = None -> segment_from st0 (header :: body) = st0).
Proof.
  intros Hcur Hat Hfn Hbody.
  assert (Hhead : forall s, segment_line s header = s).
  { intros s. unfold segment_line.
    now rewrite (hunk_header_is_no_metadata header Hat), Hat, Hfn. }
  unfold segment_from. cbn [fold_left]. rewrite Hhead.
  destruct (segment_body_under_cursor body st f Hcur Hbody) as (H1 & H2 & H3 & H4).
  repeat split; try assumption; try apply H4; try assumption.
  intros st0 H0. rewrite Hhead.
  clear - H0 Hbody. induction body as [|line body IH]; [reflexivity|].
  cbn [fold_left]. destruct (Hbody line (or_introl eq_refl)) as [Ha Hd].
  rewrite segment_line_without_cursor; auto.
  - apply IH. intros l Hl. apply Hbody. now right.
  - congruence.
Qed.

Definition state_on_foo : seg_state :=
  segment ["@@ -10,7 +10,7 @@ impl WeightInfo for X { fn foo(n: u32) -> Weight {";
           "-    Weight::from_parts(100_000, 2_000)";
           "+    Weight::from_parts(200_000, 2_000)"].

Definition later_hunk : list string :=
  ["     // Proof Size summary in bytes:";
   "-      .saturating_add(T::DbWeight::get().reads(3_u64))";
   "+      .saturating_add(T::DbWeight::get().reads(4_u64))";
   "+      .saturating_add(T::DbWeight::get().writes(1_u64))"].

Lemma cursor_persists_across_hunks_witness :
  let st' := segment_from state_on_foo ("@@ -40,3 +40,4 @@" :: later_hunk) in
  current_fn st' = Some "foo"
  /\ get_default (fn_removed_lines st') "foo" []
     = ["    Weight::from_parts(100_000, 2_000)";
        "      .saturating_add(T::DbWeight::get().reads(3_u64))"]
  /\ get_default (fn_added_lines st') "foo" []
     = ["    Weight::from_parts(200_000, 2_000)";
        "      .saturating_add(T::DbWeight::get().reads(4_u64))";
        "      .saturating_add(T::DbWeight::get().writes(1_u64))"].
Proof.
  destruct (cursor_persists_across_hunks state_on_foo "foo" "@@ -40,3 +40,4 @@" later_hunk)
    as (H1 & H2 & H3 & _).
  - vm_compute. reflexivity.
  - vm_compute. reflexivity.
  - vm_compute. reflexivity.
  - intros line [<-|[<-|[<-|[<-|[]]]]]; split; vm_compute; reflexivity.
  - cbv zeta. rewrite H1, H2, H3. repeat split.
Defined.

(** The lines of a hunk that the unified diff format marks as removed, and
    those that it marks as added: the first character of the line is the
    marker. *)
Definition marked_removed (line : string) : bool := startswith "-" line.
Definition marked_added (line : string) : bool := startswith "+" line.

(** A hunk that removes the two lines [-- old note] and
    [    Weight::from_parts(1, 2)] and adds the line [++ new note]. *)
Definition hunk_with_repeated_markers : list string :=
  ["--- old note";
   "-    Weight::from_parts(1, 2)";
   "+++ new note"].

(** C10, counterexample. The hunk has no function name in its header and no
    function declaration in its body, and it is read while the cursor is on
    [foo].  Of its two removed lines only the second one is appended to the
    removed lines of [foo], and its added line is not appended to the added
    lines of [foo]: both start with the marker written three times. *)
Lemma line_with_repeated_marker_is_discarded :
  current_fn state_on_foo = Some "foo"
  /\ search hunk_fn_re "@@ -40,3 +40,2 @@" = None
  /\ forallb (fun line => match match_ fn_decl_re (content_of line) with
                          | None => true
                          | Some _ => false
                          end) hunk_with_repeated_markers = true
  /\ filter marked_removed hunk_with_repeated_markers
     = ["--- old note"; "-    Weight::from_parts(1, 2)"]
  /\ filter marked_added hunk_with_repeated_markers = ["+++ new note"]
  /\ get_default
       (fn_removed_lines
          (segment_from state_on_foo ("@@ -40,3 +40,2 @@" :: hunk_with_repeated_markers)))
       "foo" []
     = get_default (fn_removed_lines state_on_foo) "foo" []
       ++ ["    Weight::from_parts(1, 2)"]
  /\ get_default
       (fn_added_lines
          (segment_from state_on_foo ("@@ -40,3 +40,2 @@" :: hunk_with_repeated_markers)))
       "foo" []
     = get_default (fn_added_lines state_on_foo) "foo" [].
Proof.
  repeat split; vm_compute; reflexivity.
Qed.

(** ** Comparison of floats *)

Ltac compare_cases :=
  repeat match goal with
         | |- context [Pos.compare_cont Eq ?a ?b] =>
             change (Pos.compare_cont Eq a b) with (Pos.compare a b)
         | H : context [Pos.compare_cont Eq ?a ?b] |- _ =>
             change (Pos.compare_cont Eq a b) with (Pos.compare a b) in H
         end;
  repeat match goal with
         | |- context [Z.compare ?a ?b] => destruct (Z.compare_spec a b)
         | H : context [Z.compare ?a ?b] |- _ => destruct (Z.compare_spec a b)
         | |- context [Pos.compare ?a ?b] => destruct (Pos.compare_spec a b)
         | H : context [Pos.compare ?a ?b] |- _ => destruct (Pos.compare_spec a b)
         end;
  simpl in *; try discriminate; try reflexivity; try lia.

Lemma flt_trans (a b c : float) :
  flt a b = true -> flt b c = true -> flt a c = true.
Proof.
  unfold flt, SFltb, SFcompare.
  destruct a as [sa|sa| |sa ma ea], b as [sb|sb| |sb mb eb], c as [sc|sc| |sc mc ec];
    try discriminate; try reflexivity;
    repeat match goal with s : bool |- _ => destruct s end;
    try discriminate; try reflexivity; intros; compare_cases.
Qed.

Lemma flt_fneg (a b : float) : flt a b = true -> flt (fneg b) (fneg a) = true.
Proof.
  unfold flt, fneg, SFltb, SFcompare, SFopp.
  destruct a as [sa|sa| |sa ma ea], b as [sb|sb| |sb mb eb];
    try discriminate; try reflexivity;
    repeat match goal with s : bool |- _ => destruct s end;
    try discriminate; try reflexivity; intros; compare_cases.
Qed.

(** ** Sorting keeps the elements *)

Section SortingFacts.
Context {A K : Type} (lt : K -> K -> bool) (key : A -> K).

Lemma insert_perm (x : A) (l : list A) : Permutation (x :: l) (insert lt key x l).
Proof.
  induction l as [|y l IH]; simpl; [reflexivity|].
  destruct (lt (key y) (key x)); [|reflexivity].
  rewrite perm_swap. now constructor.
Qed.

Lemma sorted_perm (l : list A) : Permutation l (sorted lt key l).
Proof.
  induction l as [|x l IH]; simpl; [reflexivity|].
  rewrite <- insert_perm. now constructor.
Qed.

Lemma sorted_reverse_perm (l : list A) : Permutation l (sorted_reverse lt key l).
Proof.
  unfold sorted_reverse.
  rewrite <- Permutation_rev, <- sorted_perm, <- Permutation_rev. reflexivity.
Qed.

Lemma sorted_In (l : list A) (x : A) : In x (sorted lt key l) <-> In x l.
Proof.
  split; apply Permutation_in; [symmetry|]; apply sorted_perm.
Qed.

Lemma sorted_reverse_In (l : list A) (x : A) :
  In x (sorted_reverse lt key l) <-> In x l.
Proof.
  split; apply Permutation_in; [symmetry|]; apply sorted_reverse_perm.
Qed.
End SortingFacts.

(** ** The threshold *)

Lemma incl_same_head {A} (x : A) (l2 l1 : list A) :
  incl l2 l1 -> incl (x :: l2) (x :: l1).
Proof. intros H y [<-|Hy]; [now left | right; auto]. Qed.

Lemma base_inc_mono (cs : list change) (t1 t2 : float) :
  flt t1 t2 = true ->
  forall l2, base_inc cs t2 = OK l2 ->
  exists l1, base_inc cs t1 = OK l1 /\ incl l2 l1.
Proof.
  intros Ht. induction cs as [|c cs IH]; simpl; intros l2 H.
  - injection H as <-. eexists. split; [reflexivity | apply incl_refl].
  - destruct (base_both c); [|auto].
    destruct (pct _ _) as [p|]; simpl in *; [|discriminate].
    bind_inv H. injection H as <-.
    destruct (IH _ eq_refl) as (l1 & -> & Hincl). simpl.
    eexists. split; [reflexivity|].
    destruct (flt t2 p) eqn:E2.
    + rewrite (flt_trans _ _ _ Ht E2). now apply incl_same_head.
    + destruct (flt t1 p); [apply incl_tl|]; assumption.
Qed.

Lemma base_dec_mono (cs : list change) (t1 t2 : float) :
  flt t1 t2 = true ->
  forall l2, base_dec cs t2 = OK l2 ->
  exists l1, base_dec cs t1 = OK l1 /\ incl l2 l1.
Proof.
  intros Ht. induction cs as [|c cs IH]; simpl; intros l2 H.
  - injection H as <-. eexists. split; [reflexivity | apply incl_refl].
  - destruct (base_both c); [|auto].
    destruct (pct _ _) as [p|]; simpl in *; [|discriminate].
    bind_inv H. injection H as <-.
    destruct (IH _ eq_refl) as (l1 & -> & Hincl). simpl.
    eexists. split; [reflexivity|].
    destruct (flt p (fneg t2)) eqn:E2.
    + rewrite (flt_trans _ _ _ E2 (flt_fneg _ _ Ht)). now apply incl_same_head.
    + destruct (flt p (fneg t1)); [apply incl_tl|]; assumption.
Qed.

Lemma min_entries_mono (cs : list change) (t1 t2 : float) :
  flt t1 t2 = true ->
  forall l2, min_entries cs t2 = OK l2 ->
  exists l1, min_entries cs t1 = OK l1 /\ incl l2 l1.
Proof.
  intros Ht. induction cs as [|c cs IH]; simpl; intros l2 H.
  - injection H as <-. eexists. split; [reflexivity | apply incl_refl].
  - destruct (min_measured c); [|auto].
    destruct (pct _ _) as [p|]; simpl in *; [|discriminate].
    bind_inv H. injection H as <-.
    destruct (IH _ eq_refl) as (l1 & -> & Hincl). simpl.
    eexists. split; [reflexivity|].
    destruct (flt t2 (fabs p)) eqn:E2.
    + rewrite (flt_trans _ _ _ Ht E2). now apply incl_same_head.
    + destruct (flt t1 (fabs p)); [apply incl_tl|]; assumption.
Qed.

Lemma mul_vars_mono (c : change) (vars : list string) (t1 t2 : float) :
  flt t1 t2 = true ->
  forall l2, mul_vars c vars t2 = OK l2 ->
  exists l1, mul_vars c vars t1 = OK l1 /\ incl l2 l1.
Proof.
  intros Ht. induction vars as [|var vars IH]; cbn [mul_vars]; intros l2 H.
  - injection H as <-. eexists. split; [reflexivity | apply incl_refl].
  - destruct (_ && _).
    { destruct (pct _ _) as [p|]; simpl in *; [|discriminate].
      bind_inv H. injection H as <-.
      destruct (IH _ eq_refl) as (l1 & -> & Hincl). simpl.
      eexists. split; [reflexivity|].
      destruct (flt t2 (fabs p)) eqn:E2.
      + rewrite (flt_trans _ _ _ Ht E2). now apply incl_same_head.
      + destruct (flt t1 (fabs p)); [apply incl_tl|]; assumption. }
    destruct (_ && _).
    { bind_inv H. injection H as <-.
      destruct (IH _ eq_refl) as (l1 & -> & Hincl). simpl.
      eexists. split; [reflexivity | now apply incl_same_head]. }
    destruct (_ && _); [|auto].
    bind_inv H. injection H as <-.
    destruct (IH _ eq_refl) as (l1 & -> & Hincl). simpl.
    eexists. split; [reflexivity | now apply incl_same_head].
Qed.

Lemma mul_entries_mono (o : SetOrder) (cs : list change) (t1 t2 : float) :
  flt t1 t2 = true ->
  forall l2, mul_entries o cs t2 = OK l2 ->
  exists l1, mul_entries o cs t1 = OK l1 /\ incl l2 l1.
Proof.
  intros Ht. induction cs as [|c cs IH]; cbn [mul_entries]; intros l2 H.
  - injection H as <-. eexists. split; [reflexivity | apply incl_refl].
  - do 2 bind_inv H. injection H as <-.
    destruct (mul_vars_mono c _ t1 t2 Ht _ E) as (l1 & -> & Hincl).
    destruct (IH _ eq_refl) as (l1' & -> & Hincl'). simpl.
    eexists. split; [reflexivity | now apply incl_app_app].
Qed.

Lemma incl_sorted_reverse {A} (key : A -> float) (l1 l2 : list A) :
  incl l2 l1 -> incl (sorted_reverse flt key l2) (sorted_reverse flt key l1).
Proof.
  intros H x Hx. apply sorted_reverse_In. apply sorted_reverse_In in Hx. auto.
Qed.

Lemma incl_sorted {A} (key : A -> float) (l1 l2 : list A) :
  incl l2 l1 -> incl (sorted flt key l2) (sorted flt key l1).
Proof.
  intros H x Hx. apply sorted_In. apply sorted_In in Hx. auto.
Qed.

(** C8. For two thresholds [t1 < t2] and any list of changes (hence the
    changes of any diff), each of the four lists gated by the threshold -
    base time increases, base time decreases, per-variable time multipliers
    and minimum execution times - is computed at [t1] whenever it is at
    [t2], and every entry of the list at [t2] is an entry of the list at
    [t1]. *)
Theorem threshold_monotone (o : SetOrder) (cs : list change) (t1 t2 : float) :
  flt t1 t2 = true ->
  (forall l2, sig_base_inc cs t2 = OK l2 ->
     exists l1, sig_base_inc cs t1 = OK l1 /\ incl l2 l1)
  /\ (forall l2, sig_base_dec cs t2 = OK l2 ->
        exists l1, sig_base_dec cs t1 = OK l1 /\ incl l2 l1)
  /\ (forall l2, sig_mul o cs t2 = OK l2 ->
        exists l1, sig_mul o cs t1 = OK l1 /\ incl l2 l1)
  /\ (forall l2, sig_min cs t2 = OK l2 ->
        exists l1, sig_min cs t1 = OK l1 /\ incl l2 l1).
Proof.
  intros Ht. unfold sig_base_inc, sig_base_dec, sig_mul, sig_min.
  repeat split; intros l2 H; bind_inv H; injection H as <-.
  - destruct (base_inc_mono cs t1 t2 Ht _ E) as (l1 & -> & Hincl).
    eexists. split; [reflexivity | now apply incl_sorted_reverse].
  - destruct (base_dec_mono cs t1 t2 Ht _ E) as (l1 & -> & Hincl).
    eexists. split; [reflexivity | now apply incl_sorted].
  - destruct (mul_entries_mono o cs t1 t2 Ht _ E) as (l1 & -> & Hincl).
    eexists. split; [reflexivity | now apply incl_sorted_reverse].
  - destruct (min_entries_mono cs t1 t2 Ht _ E) as (l1 & -> & Hincl).
    eexists. split; [reflexivity | now apply incl_sorted_reverse].
Qed.

Definition file_header (path : string) : string :=
  String.append "diff --git a/" (String.append path (String.append " b/" path)).

Definition sample_diff : string := text
  [file_header "runtime/moonbase/src/weights/pallet_x.rs";
   "index 123..456 100644";
   "--- a/runtime/moonbase/src/weights/pallet_x.rs";
   "+++ b/runtime/moonbase/src/weights/pallet_x.rs";
   "@@ -10,7 +10,7 @@ impl WeightInfo for X { fn foo(n: u32) -> Weight {";
   "-    // Minimum execution time: 10_000 picoseconds.";
   "+    // Minimum execution time: 25_000 picoseconds.";
   "-    Weight::from_parts(100_000, 2_000)";
   "+    Weight::from_parts(200_000, 2_000)";
   "-      .saturating_add(Weight::from_parts(500, 0).saturating_mul(n.into()))";
   "+      .saturating_add(Weight::from_parts(800, 0).saturating_mul(n.into()))";
   "-      .saturating_add(T::DbWeight::get().reads(3_u64))";
   "+      .saturating_add(T::DbWeight::get().reads((2_u64).saturating_mul(n.into())))";
   " }";
   "     fn bar() -> Weight {";
   "-    Weight::from_parts(7, 8)";
   "+    Weight::from_parts(3, 8)";
   ""].

(** The changes of a diff, when they are computed. *)
Definition changes_of (diff_text : string) : list change :=
  match aggregate first_seen diff_text with
  | OK cs => cs
  | Raise _ => []
  end.

Example sample_changes :
  map (fun c => (runtime c, pallet c, function c)) (changes_of sample_diff)
  = [("moonbase", "pallet_x", "foo"); ("moonbase", "pallet_x", "bar")].
Proof. vm_compute. reflexivity. Qed.

Example sample_flagged_at_50 :
  sig_mul first_seen (changes_of sample_diff) (of_int 50)
  = OK [{| ve_change := nth 0 (changes_of sample_diff) (Build_change "" "" "" empty_block empty_block);
           ve_var := "n"; ve_old := 500; ve_new := 800; ve_pct := of_int 60 |}]
  /\ sig_mul first_seen (changes_of sample_diff) (of_int 100) = OK [].
Proof. split; vm_compute; reflexivity. Qed.

Lemma threshold_monotone_witness :
  (forall l2, sig_base_inc (changes_of sample_diff) (of_int 100) = OK l2 ->
     exists l1, sig_base_inc (changes_of sample_diff) (of_int 50) = OK l1 /\ incl l2 l1)
  /\ (forall l2, sig_base_dec (changes_of sample_diff) (of_int 100) = OK l2 ->
        exists l1, sig_base_dec (changes_of sample_diff) (of_int 50) = OK l1 /\ incl l2 l1)
  /\ (forall l2, sig_mul first_seen (changes_of sample_diff) (of_int 100) = OK l2 ->
        exists l1, sig_mul first_seen (changes_of sample_diff) (of_int 50) = OK l1
                   /\ incl l2 l1)
  /\ (forall l2, sig_min (changes_of sample_diff) (of_int 100) = OK l2 ->
        exists l1, sig_min (changes_of sample_diff) (of_int 50) = OK l1 /\ incl l2 l1).
Proof.
  apply (threshold_monotone first_seen (changes_of sample_diff) (of_int 50) (of_int 100)).
  vm_compute. reflexivity.
Defined.

(** ** The order of the per-variable entries *)

Definition large_change_diff : string := text
  [file_header "runtime/moonbase/src/weights/pallet_x.rs";
   "@@ -10,3 +10,4 @@ impl WeightInfo for X { fn foo(a: u32, b: u32) -> Weight {";
   "-      .saturating_add(Weight::from_parts(1, 0).saturating_mul(b.into()))";
   "+      .saturating_add(Weight::from_parts(20_000, 0).saturating_mul(b.into()))";
   "+      .saturating_add(Weight::from_parts(5, 0).saturating_mul(a.into()))"].

(** A set of one element has one iteration order, a set of two has two. *)
Lemma iter_singleton (o : SetOrder) (l : list string) (x : string) :
  (forall y, In y l <-> y = x) -> iter o l = [x].
Proof.
  intros H. pose proof (iter_NoDup o l) as Hnd.
  assert (Hin : forall y, In y (iter o l) <-> y = x).
  { intros y. rewrite iter_In. apply H. }
  destruct (iter o l) as [|a [|b r]].
  - destruct (proj2 (Hin x) eq_refl).
  - f_equal. apply Hin. now left.
  - exfalso. inversion Hnd as [|? ? Hn _]; subst. apply Hn.
    rewrite (proj1 (Hin a)) by (now left).
    rewrite <- (proj1 (Hin b)) by (right; now left). now left.
Qed.

Lemma iter_pair (o : SetOrder) (l : list string) (a b : string) :
  a <> b -> (forall y, In y l <-> y = a \/ y = b) ->
  iter o l = [a; b] \/ iter o l = [b; a].
Proof.
  intros Hab H. pose proof (iter_NoDup o l) as Hnd.
  assert (Hin : forall y, In y (iter o l) <-> y = a \/ y = b).
  { intros y. rewrite iter_In. apply H. }
  destruct (iter o l) as [|x [|y [|z r]]].
  - destruct (proj2 (Hin a) (or_introl eq_refl)).
  - exfalso.
    destruct (proj2 (Hin a) (or_introl eq_refl)) as [<-|[]].
    destruct (proj2 (Hin b) (or_intror eq_refl)) as [E|[]]. congruence.
  - inversion Hnd as [|? ? Hn _]; subst.
    assert (x <> y) by (intros ->; apply Hn; now left).
    destruct (proj1 (Hin x) (or_introl eq_refl)) as [->| ->];
      destruct (proj1 (Hin y) (or_intror (or_introl eq_refl))) as [->| ->];
      auto; congruence.
  - exfalso. inversion Hnd as [|? ? Hx Hnd']; subst.
    inversion Hnd' as [|? ? Hy _]; subst.
    assert (x <> y) by (intros ->; apply Hx; now left).
    assert (x <> z) by (intros ->; apply Hx; right; now left).
    assert (y <> z) by (intros ->; apply Hy; now left).
    destruct (proj1 (Hin x) (or_introl eq_refl)) as [->| ->];
      destruct (proj1 (Hin y) (or_intror (or_introl eq_refl))) as [->| ->];
      destruct (proj1 (Hin z) (or_intror (or_intror (or_introl eq_refl)))) as [->| ->];
      congruence.
Qed.

Definition large_change : change :=
  {| runtime := "moonbase"; pallet := "pallet_x"; function := "foo";
     old := {| base_ref := 0; base_proof := 0; min_execution_time := None;
               ref_multipliers := [("b", 1)]; proof_multipliers := [];
               db_reads_base := 0; db_reads_per_var := [] |};
     new := {| base_ref := 0; base_proof := 0; min_execution_time := None;
               ref_multipliers := [("b", 20000); ("a", 5)]; proof_multipliers := [];
               db_reads_base := 0; db_reads_per_var := [] |} |}.

Lemma large_change_aggregate (o : SetOrder) :
  aggregate o large_change_diff = OK [large_change].
Proof.
  unfold aggregate.
  replace (split_files (split "010" large_change_diff))
    with [("runtime/moonbase/src/weights/pallet_x.rs",
           ["@@ -10,3 +10,4 @@ impl WeightInfo for X { fn foo(a: u32, b: u32) -> Weight {";
            "-      .saturating_add(Weight::from_parts(1, 0).saturating_mul(b.into()))";
            "+      .saturating_add(Weight::from_parts(20_000, 0).saturating_mul(b.into()))";
            "+      .saturating_add(Weight::from_parts(5, 0).saturating_mul(a.into()))"])]
    by (vm_compute; reflexivity).
  cbn [changes_of_files]. unfold extract_function_diffs, all_fns.
  rewrite (iter_singleton o _ "foo").
  - vm_compute. reflexivity.
  - intros y. vm_compute. intuition congruence.
Qed.

(** C7. On a diff in which the time multiplier of [b] goes from 1 to 20000
    and the one of [a] appears, [sig_mul] holds, whatever the iteration
    order of the set of the two variables, the entry of [b], a finite change
    of 1999900 percent, before the entry of [a], whose change is the
    sentinel of an appeared term: the sort key of the sentinel is the number
    999999, which a finite change can exceed. *)
Theorem finite_change_sorted_before_appeared (o : SetOrder) :
  aggregate o large_change_diff = OK [large_change]
  /\ sig_mul o [large_change] (of_int 50)
     = OK [ {| ve_change := large_change; ve_var := "b"; ve_old := 1;
               ve_new := 20000; ve_pct := of_int 1999900 |};
            {| ve_change := large_change; ve_var := "a"; ve_old := 0;
               ve_new := 5; ve_pct := inf |} ]
  /\ magnitude_key {| ve_change := large_change; ve_var := "a"; ve_old := 0;
                      ve_new := 5; ve_pct := inf |} = of_int 999999
  /\ flt (of_int 999999) (of_int 1999900) = true.
Proof.
  split; [apply large_change_aggregate|].
  split; [|split; vm_compute; reflexivity].
  unfold sig_mul. cbn [mul_entries]. unfold union_keys.
  destruct (iter_pair o (keys (ref_multipliers (old large_change))
                         ++ keys (ref_multipliers (new large_change))) "a" "b")
    as [-> | ->].
  - discriminate.
  - intros y. vm_compute. intuition congruence.
  - vm_compute. reflexivity.
  - vm_compute. reflexivity.
Qed.

(** ** Section 3: the lines on storage reads *)

Definition has_key (k : string) (e : var_entry) : bool :=
  String.eqb (fn_key (ve_change e)) k.

(** The group of a key holds the entries of this key, in their order. *)
Lemma group_from_spec (sig : list var_entry) :
  forall (acc : dict (list var_entry)) (k : string),
    get_default
      (fold_left (fun by_fn e => append by_fn (fn_key (ve_change e)) e) sig acc) k []
    = get_default acc k [] ++ filter (has_key k) sig.
Proof.
  induction sig as [|e sig IH]; intros acc k; cbn [fold_left filter].
  - now rewrite app_nil_r.
  - rewrite IH. unfold has_key at 2.
    destruct (String.eqb (fn_key (ve_change e)) k) eqn:E.
    + apply String.eqb_eq in E. subst k.
      rewrite get_default_append_same, <- app_assoc. reflexivity.
    + apply String.eqb_neq in E. now rewrite get_default_append_other.
Qed.

Lemma group_by_fn_spec (sig : list var_entry) (k : string) :
  get_default (group_by_fn sig) k [] = filter (has_key k) sig.
Proof. unfold group_by_fn. now rewrite group_from_spec. Qed.

Lemma get_default_differs (a b : dict Z) (k : string) :
  get_default a k 0 <> get_default b k 0 -> In k (keys a ++ keys b).
Proof.
  intros H. apply in_or_app.
  destruct (get a k) eqn:Ea; [left|].
  { destruct (in_dec string_dec k (keys a)) as [|Hn]; [assumption|].
    apply get_None_keys in Hn. congruence. }
  destruct (get b k) eqn:Eb; [right|].
  { destruct (in_dec string_dec k (keys b)) as [|Hn]; [assumption|].
    apply get_None_keys in Hn. congruence. }
  unfold get_default in H. rewrite Ea, Eb in H. congruence.
Qed.

Lemma reads_lines_complete (o : SetOrder) (c0 : change) (rv : string) :
  let or_val := get_default (db_reads_per_var (old c0)) rv 0 in
  let nr_val := get_default (db_reads_per_var (new c0)) rv 0 in
  or_val <> nr_val -> In (PerVarReads rv or_val nr_val) (reads_lines o c0).
Proof.
  intros or_val nr_val H. unfold reads_lines. apply in_flat_map.
  exists rv. split.
  - unfold union_keys. apply iter_In. now apply get_default_differs.
  - fold or_val nr_val. apply Z.eqb_neq in H. rewrite H. simpl. now left.
Qed.

Lemma reads_lines_sound (o : SetOrder) (c0 : change) (rv : string) (a b : Z) :
  In (PerVarReads rv a b) (reads_lines o c0) ->
  a = get_default (db_reads_per_var (old c0)) rv 0
  /\ b = get_default (db_reads_per_var (new c0)) rv 0
  /\ a <> b.
Proof.
  unfold reads_lines. intros H. apply in_flat_map in H. destruct H as (rv' & _ & H).
  destruct (get_default (db_reads_per_var (old c0)) rv' 0
            =? get_default (db_reads_per_var (new c0)) rv' 0) eqn:E;
    simpl in H; [destruct H|].
  destruct H as [H|[]]. injection H as <- <- <-.
  apply Z.eqb_neq in E. auto.
Qed.

(** *** Runs of the printing computations *)

(** Whatever the result of [m], its output is the output so far followed
    by blocks that satisfy [P]. *)
Definition emits {A} (P : block -> Prop) (m : M A) : Prop :=
  forall out r out', m out = (r, out') -> exists bs, out' = out ++ bs /\ Forall P bs.

Lemma emits_ret {A} (P : block -> Prop) (a : A) : emits P (Out.ret a).
Proof.
  intros out r out' [= <- <-]. exists []. now rewrite app_nil_r.
Qed.

Lemma emits_lift {A} (P : block -> Prop) (r : Py.result A) : emits P (Out.lift r).
Proof.
  intros out r' out' [= <- <-]. exists []. now rewrite app_nil_r.
Qed.

Lemma emits_print (P : block -> Prop) (b : block) : P b -> emits P (Out.print b).
Proof.
  intros H out r out' [= <- <-]. exists [b]. auto.
Qed.

Lemma emits_bind {A B} (P : block -> Prop) (m : M A) (f : A -> M B) :
  emits P m -> (forall a, emits P (f a)) -> emits P (Out.bind m f).
Proof.
  intros Hm Hf out r out'. unfold Out.bind.
  destruct (m out) as [[a|e] o1] eqn:E; intros H.
  - destruct (Hm _ _ _ E) as (b1 & -> & F1).
    destruct (Hf a _ _ _ H) as (b2 & -> & F2).
    exists (b1 ++ b2). rewrite app_assoc. split; [reflexivity|].
    apply Forall_app. auto.
  - injection H as <- <-. eauto.
Qed.

Lemma emits_for_each {A} (P : block -> Prop) (l : list A) (body : A -> M unit) :
  (forall x, In x l -> emits P (body x)) -> emits P (Out.for_each l body).
Proof.
  induction l as [|x l IH]; intros H; cbn [Out.for_each].
  - apply emits_ret.
  - apply emits_bind; [apply H; now left|].
    intros _. apply IH. intros y Hy. apply H. now right.
Qed.

(** A loop that returns has run its body to the end on every element. *)
Lemma for_each_ok {A} (P : block -> Prop) (l : list A) (body : A -> M unit) :
  (forall x, In x l -> emits P (body x)) ->
  forall out out', Out.for_each l body out = (OK tt, out') ->
  forall x, In x l -> exists o1 o2, body x o1 = (OK tt, o2) /\ incl o2 out'.
Proof.
  induction l as [|y l IH]; intros Hb out out' H x Hx; [destruct Hx|].
  cbn [Out.for_each] in H. unfold Out.bind in H.
  destruct (body y out) as [[[]|e] o1] eqn:E; [|discriminate].
  assert (Hl : forall z, In z l -> emits P (body z)) by (intros z Hz; apply Hb; now right).
  destruct Hx as [<-|Hx].
  - exists out, o1. split; [assumption|].
    destruct (emits_for_each P l body Hl _ _ _ H) as (bs & -> & _).
    apply incl_appl, incl_refl.
  - apply (IH Hl _ _ H x Hx).
Qed.

(** A loop whose body returns on every element returns. *)
Lemma for_each_returns {A} (l : list A) (body : A -> M unit) :
  (forall x, In x l -> forall out, exists out', body x out = (OK tt, out')) ->
  forall out, exists out', Out.for_each l body out = (OK tt, out').
Proof.
  induction l as [|y l IH]; intros Hb out; cbn [Out.for_each].
  - exists out. reflexivity.
  - unfold Out.bind. destruct (Hb y (or_introl eq_refl) out) as (o1 & ->).
    apply IH. intros z Hz. apply Hb. now right.
Qed.

Lemma for_each_print (l out : list block) :
  Out.for_each l Out.print out = (OK tt, out ++ l).
Proof.
  revert out. induction l as [|b l IH]; intros out; cbn [Out.for_each].
  - unfold Out.ret. now rewrite app_nil_r.
  - unfold Out.bind, Out.print. rewrite IH, <- app_assoc. reflexivity.
Qed.

(** *** The groups of section 3 *)

(** Both values of the entry can be formatted. *)
Definition formatted (e : var_entry) : Prop :=
  exists a b, format_weight (ve_old e) = OK a /\ format_weight (ve_new e) = OK b.

Lemma ref_line_run (e : var_entry) (out : list block) :
  (formatted e /\ exists b, ref_line e out = (OK tt, out ++ [b]))
  \/ (~ formatted e /\ exists x, ref_line e out = (Raise x, out)).
Proof.
  unfold ref_line, formatted, Out.bind, Out.lift, Out.print.
  destruct (format_weight (ve_old e)) as [a|x].
  - destruct (format_weight (ve_new e)) as [b|x].
    + left. split; eauto.
    + right. split; [|eauto]. intros (a' & b' & _ & H). discriminate.
  - right. split; [|eauto]. intros (a' & b' & H & _). discriminate.
Qed.

Definition is_reads_line (b : block) : bool :=
  match b with PerVarReads _ _ _ => true | _ => false end.

Definition is_ref_line (b : block) : bool :=
  match b with PerVarRef _ _ _ _ => true | _ => false end.

Lemma emits_weaken {A} (P Q : block -> Prop) (m : M A) :
  (forall b, P b -> Q b) -> emits P m -> emits Q m.
Proof.
  intros H Hm out r out' E. destruct (Hm _ _ _ E) as (bs & -> & F).
  exists bs. split; [reflexivity|]. revert F. apply Forall_impl, H.
Qed.

Lemma ref_line_emits (e : var_entry) : emits (fun b => is_ref_line b = true) (ref_line e).
Proof.
  unfold ref_line.
  apply emits_bind; [apply emits_lift|]. intros a.
  apply emits_bind; [apply emits_lift|]. intros b.
  now apply emits_print.
Qed.

(** The group of a key of [by_fn] holds an entry, and its entries have this
    key. *)
Lemma group_of_key (sig : list var_entry) (key : string) :
  In key (group_keys sig) ->
  exists e0 rest,
    get_default (group_by_fn sig) key [] = e0 :: rest
    /\ fn_key (ve_change e0) = key.
Proof.
  unfold group_keys. rewrite sorted_In. intros H.
  assert (Hk : exists e, In e sig /\ fn_key (ve_change e) = key).
  { unfold group_by_fn in H.
    assert (G : forall l acc,
               In key (keys (fold_left (fun by_fn e => append by_fn (fn_key (ve_change e)) e) l acc)) ->
               In key (keys acc) \/ exists e, In e l /\ fn_key (ve_change e) = key).
    { induction l as [|e l IH]; intros acc Hi; cbn [fold_left] in Hi; [now left|].
      destruct (IH _ Hi) as [Ha|(e' & He' & Hk)].
      - unfold append in Ha. apply keys_set in Ha. destruct Ha as [->|Ha]; [|now left].
        right. exists e. split; [now left | reflexivity].
      - right. exists e'. split; [now right | assumption]. }
    destruct (G _ _ H) as [[]|Hk]. exact Hk. }
  destruct Hk as (e & He & Hk).
  assert (Hin : In e (get_default (group_by_fn sig) key [])).
  { rewrite group_by_fn_spec. apply filter_In. split; [assumption|].
    unfold has_key. rewrite Hk. apply String.eqb_refl. }
  destruct (get_default (group_by_fn sig) key []) as [|e0 rest] eqn:G; [destruct Hin|].
  exists e0, rest. split; [reflexivity|].
  assert (H0 : In e0 (filter (has_key key) sig)).
  { rewrite <- group_by_fn_spec, G. now left. }
  apply filter_In in H0. destruct H0 as [_ H0]. now apply String.eqb_eq in H0.
Qed.

(** The group of the key of an entry holds the entry. *)
Lemma group_of_entry (sig : list var_entry) (e : var_entry) :
  In e sig ->
  In (fn_key (ve_change e)) (group_keys sig)
  /\ In e (get_default (group_by_fn sig) (fn_key (ve_change e)) []).
Proof.
  intros He.
  assert (Hin : In e (get_default (group_by_fn sig) (fn_key (ve_change e)) [])).
  { rewrite group_by_fn_spec. apply filter_In. split; [assumption|].
    apply String.eqb_refl. }
  split; [|assumption].
  unfold group_keys. apply sorted_In.
  destruct (in_dec string_dec (fn_key (ve_change e)) (keys (group_by_fn sig)))
    as [|Hn]; [assumption|].
  apply get_None_keys in Hn. unfold get_default in Hin. rewrite Hn in Hin.
  destruct Hin.
Qed.

(** A line on storage reads that belongs to the first entry of a group. *)
Definition group_reads (o : SetOrder) (sig : list var_entry) (b : block) : Prop :=
  is_reads_line b = true ->
  exists e0 rest,
    get_default (group_by_fn sig) (fn_key (ve_change e0)) [] = e0 :: rest
    /\ In b (reads_lines o (ve_change e0)).

Lemma print_group_emits (o : SetOrder) (sig : list var_entry) (key : string) :
  In key (group_keys sig) ->
  emits (group_reads o sig) (print_group o key (get_default (group_by_fn sig) key [])).
Proof.
  intros Hk. destruct (group_of_key sig key Hk) as (e0 & rest & G & K).
  rewrite G. cbn [print_group].
  apply emits_bind; [apply emits_print; discriminate|]. intros _.
  apply emits_bind.
  - apply emits_for_each. intros e _.
    apply (emits_weaken (fun b => is_ref_line b = true)); [|apply ref_line_emits].
    intros [] Hb Hr; discriminate.
  - intros _ out r out' H. rewrite for_each_print in H. injection H as <- <-.
    eexists. split; [reflexivity|]. apply Forall_forall. intros b Hb _.
    exists e0, rest. rewrite K. auto.
Qed.

Lemma section3_run (o : SetOrder) (cs : list change) (t : float)
    (sig : list var_entry) (out : list block) :
  sig_mul o cs t = OK sig ->
  section3 o cs t out
  = match sig with
    | [] => (OK tt, out ++ [Header 3; NoneFound])
    | _ =>
        Out.for_each (group_keys sig)
          (fun key => print_group o key (get_default (group_by_fn sig) key []))
          (out ++ [Header 3])
    end.
Proof.
  intros S. unfold section3, Out.bind, Out.print, Out.lift. rewrite S.
  destruct sig; [|reflexivity]. now rewrite <- app_assoc.
Qed.

Lemma section3_emits (o : SetOrder) (cs : list change) (t : float)
    (sig : list var_entry) :
  sig_mul o cs t = OK sig -> emits (group_reads o sig) (section3 o cs t).
Proof.
  intros S out r out' H. rewrite (section3_run o cs t sig out S) in H.
  destruct sig as [|s sig'].
  { injection H as <- <-. eexists. split; [reflexivity|].
    repeat constructor; discriminate. }
  apply (emits_for_each (group_reads o (s :: sig'))) in H.
  - destruct H as (bs & -> & F). exists (Header 3 :: bs).
    rewrite <- app_assoc. split; [reflexivity|].
    constructor; [discriminate | assumption].
  - intros key Hk. now apply print_group_emits.
Qed.

Lemma print_group_ok (o : SetOrder) (key : string) (e0 : var_entry)
    (rest : list var_entry) (o1 o2 : list block) :
  print_group o key (e0 :: rest) o1 = (OK tt, o2) ->
  (forall e, In e (e0 :: rest) -> formatted e)
  /\ incl (reads_lines o (ve_change e0)) o2.
Proof.
  cbn [print_group]. unfold Out.bind at 1 2. cbn [Out.print].
  destruct (Out.for_each (e0 :: rest) ref_line (o1 ++ [GroupKey key]))
    as [[[]|x] o3] eqn:E; [|discriminate].
  rewrite for_each_print. intros [= <-]. split.
  - intros e He.
    destruct (for_each_ok _ _ _ (fun x _ => ref_line_emits x) _ _ E e He)
      as (p1 & p2 & R & _).
    destruct (ref_line_run e p1) as [(F & _)|(_ & x & R')]; [assumption|].
    rewrite R' in R. discriminate.
  - apply incl_appr, incl_refl.
Qed.

Lemma print_group_returns (o : SetOrder) (key : string) (entries : list var_entry) :
  (forall e, In e entries -> formatted e) ->
  forall out, exists out', print_group o key entries out = (OK tt, out').
Proof.
  intros F out. destruct entries as [|e0 rest]; [eexists; reflexivity|].
  cbn [print_group]. unfold Out.bind at 1 2. cbn [Out.print].
  destruct (for_each_returns (e0 :: rest) ref_line) with (out := out ++ [GroupKey key])
    as (o3 & ->).
  - intros e He p1.
    destruct (ref_line_run e p1) as [(_ & b & R)|(N & _)]; [eauto|].
    destruct N. now apply F.
  - rewrite for_each_print. eauto.
Qed.

(** C5, amended. Let [sig] be the list of the time multipliers that are
    listed (flagged, new or removed), and run section 3 on an empty output.
    - The section runs to its end exactly when both values of every entry
      can be formatted; otherwise [format_weight] raises in the middle of it.
    - When it runs to its end, every entry [e] belongs to the group of its
      function key, and the output holds, for the change [c0] of the first
      entry of this group and for every variable whose read multipliers in
      [c0] differ (an absent one counting as 0), the line of this variable
      with the two values.  No threshold enters.
    - However the section ends, every line on storage reads of its output
      belongs to the first entry of some group, and its two values differ:
      a function without an entry in [sig] gets no such line. *)
Theorem read_deltas_reported_in_flagged_groups
    (o : SetOrder) (cs : list change) (t : float) (sig : list var_entry) :
  sig_mul o cs t = OK sig ->
  let run := section3 o cs t [] in
  (fst run = OK tt <-> forall e, In e sig -> formatted e)
  /\ (fst run = OK tt ->
      forall e, In e sig ->
      exists e0 rest,
        get_default (group_by_fn sig) (fn_key (ve_change e)) [] = e0 :: rest
        /\ In e (e0 :: rest)
        /\ fn_key (ve_change e0) = fn_key (ve_change e)
        /\ forall rv,
             let or_val := get_default (db_reads_per_var (old (ve_change e0))) rv 0 in
             let nr_val := get_default (db_reads_per_var (new (ve_change e0))) rv 0 in
             or_val <> nr_val -> In (PerVarReads rv or_val nr_val) (snd run))
  /\ (forall rv a b,
      In (PerVarReads rv a b) (snd run) ->
      exists e0 rest,
        get_default (group_by_fn sig) (fn_key (ve_change e0)) [] = e0 :: rest
        /\ a = get_default (db_reads_per_var (old (ve_change e0))) rv 0
        /\ b = get_default (db_reads_per_var (new (ve_change e0))) rv 0
        /\ a <> b).
Proof.
  intros S run.
  assert (Hok : fst run = OK tt ->
          forall e, In e sig ->
          exists e0 rest,
            get_default (group_by_fn sig) (fn_key (ve_change e)) [] = e0 :: rest
            /\ In e (e0 :: rest)
            /\ fn_key (ve_change e0) = fn_key (ve_change e)
            /\ (forall e', In e' (e0 :: rest) -> formatted e')
            /\ incl (reads_lines o (ve_change e0)) (snd run)).
  { intros R e He. subst run. rewrite (section3_run o cs t sig [] S) in *.
    destruct sig as [|s sig']; [destruct He|]. set (sg := s :: sig') in *.
    destruct (Out.for_each _ _ _) as [r out'] eqn:E. cbn [fst snd] in *. subst r.
    destruct (group_of_entry sg e He) as [Hk Hin].
    destruct (for_each_ok (group_reads o sg) _ _
                (fun key Hkey => print_group_emits o sg key Hkey) _ _ E _ Hk)
      as (o1 & o2 & P & I).
    destruct (group_of_key sg _ Hk) as (e0 & rest & G & K).
    rewrite G in P, Hin. apply print_group_ok in P. destruct P as [F Hr].
    exists e0, rest. repeat (split; [assumption|]).
    intros b Hb. apply I, Hr, Hb. }
  split; [split|split].
  - intros R e He. destruct (Hok R e He) as (e0 & rest & _ & Hin & _ & F & _). auto.
  - intros F. subst run. rewrite (section3_run o cs t sig [] S).
    destruct sig as [|s sig']; [reflexivity|]. set (sg := s :: sig') in *.
    destruct (for_each_returns (group_keys sg)
                (fun key => print_group o key (get_default (group_by_fn sg) key [])))
      with (out := [] ++ [Header 3]) as (out' & ->); [|reflexivity].
    intros key _. apply print_group_returns. intros e He. apply F.
    rewrite group_by_fn_spec in He. apply filter_In in He. tauto.
  - intros R e He. destruct (Hok R e He) as (e0 & rest & G & Hin & K & _ & Hr).
    exists e0, rest. repeat (split; [assumption|]).
    intros rv or_val nr_val Hd. apply Hr. now apply reads_lines_complete.
  - intros rv a b Hin. subst run.
    destruct (section3 o cs t []) as [r out'] eqn:E. cbn [snd] in Hin.
    destruct (section3_emits o cs t sig S _ _ _ E) as (bs & -> & F).
    rewrite Forall_forall in F. destruct (F _ Hin eq_refl) as (e0 & rest & G & Hb).
    exists e0, rest. split; [assumption|]. now apply (reads_lines_sound o).
Qed.

(** The flagged time multipliers of a diff, when they are computed. *)
Definition flagged_of (diff_text : string) (threshold : float) : list var_entry :=
  match sig_mul first_seen (changes_of diff_text) threshold with
  | OK l => l
  | Raise _ => []
  end.

Definition sample_entry : var_entry :=
  nth 0 (flagged_of sample_diff (of_int 50))
    {| ve_change := Build_change "" "" "" empty_block empty_block;
       ve_var := ""; ve_old := 0; ve_new := 0; ve_pct := zero |}.

Lemma read_deltas_reported_in_flagged_groups_witness :
  sig_mul first_seen (changes_of sample_diff) (of_int 50)
  = OK (flagged_of sample_diff (of_int 50))
  /\ In sample_entry (flagged_of sample_diff (of_int 50))
  /\ fst (section3 first_seen (changes_of sample_diff) (of_int 50) []) = OK tt
  /\ In (PerVarReads "n" 0 2)
       (snd (section3 first_seen (changes_of sample_diff) (of_int 50) [])).
Proof.
  assert (S : sig_mul first_seen (changes_of sample_diff) (of_int 50)
              = OK (flagged_of sample_diff (of_int 50))).
  { vm_compute. reflexivity. }
  assert (He : In sample_entry (flagged_of sample_diff (of_int 50))).
  { vm_compute. left. reflexivity. }
  assert (R : fst (section3 first_seen (changes_of sample_diff) (of_int 50) []) = OK tt).
  { vm_compute. reflexivity. }
  split; [exact S|]. split; [exact He|]. split; [exact R|].
  destruct (read_deltas_reported_in_flagged_groups first_seen
              (changes_of sample_diff) (of_int 50)
              (flagged_of sample_diff (of_int 50)) S)
    as (_ & Hreads & _).
  destruct (Hreads R sample_entry He) as (e0 & rest & G & _ & _ & Hr).
  vm_compute in G. injection G as <- <-.
  apply (Hr "n"). vm_compute. discriminate.
Defined.

Definition reads_only_diff : string := text
  [file_header "runtime/moonbase/src/weights/pallet_x.rs";
   "@@ -10,4 +10,4 @@ impl WeightInfo for X { fn foo(n: u32) -> Weight {";
   "-    // Minimum execution time: 10_000 picoseconds.";
   "+    // Minimum execution time: 11_000 picoseconds.";
   "-      .saturating_add(T::DbWeight::get().reads((1_u64).saturating_mul(n.into())))";
   "+      .saturating_add(T::DbWeight::get().reads((2_u64).saturating_mul(n.into())))"].

(** C5, counterexample. A function whose read multiplier of [n] goes from 1
    to 2 and which has no flagged time multiplier: the function is in the
    list of changes, section 3 prints that nothing was found, and the report
    holds no line on storage reads. *)
Lemma read_delta_without_flagged_multiplier_not_reported :
  exists c,
    aggregate first_seen reads_only_diff = OK [c]
    /\ get_default (db_reads_per_var (old c)) "n" 0 = 1
    /\ get_default (db_reads_per_var (new c)) "n" 0 = 2
    /\ sig_mul first_seen [c] (of_int 50) = OK []
    /\ ended (main first_seen reads_only_diff (of_int 50)) = Returned
    /\ filter is_reads_line (stdout (main first_seen reads_only_diff (of_int 50))) = [].
Proof.
  eexists. split; [vm_compute; reflexivity|].
  repeat split; vm_compute; reflexivity.
Qed.

(** ** Section 6: the summaries per runtime *)
















(** ** The files that are kept, and their identifiers *)

Lemma search_suffix (p : pattern) (s : string) (r : list string) :
  search p s = Some r ->
  exists before s', s = String.append before s' /\ match_here p s' start = Some r.
Proof.
  induction s as [|c s IH]; simpl.
  - destruct (match_here p "" start) eqn:E; [|discriminate].
    intros [= <-]. exists "", "". auto.
  - destruct (match_here p (String c s) start) eqn:E.
    + intros [= <-]. exists "", (String c s). auto.
    + intros H. destruct (IH H) as (b & s' & -> & Hm).
      exists (String c b), s'. auto.
Qed.

Lemma match_here_chr (c : ascii) (p : pattern) (s : string) (st : mstate)
    (r : list string) :
  match_here (Chr c :: p) s st = Some r ->
  exists s', s = String c s' /\ match_here p s' (feed c st) = Some r.
Proof.
  simpl. destruct s as [|a s]; [discriminate|].
  destruct (Ascii.eqb_spec a c) as [->|]; [eauto | discriminate].
Qed.

(** The state after the characters of [s] went by. *)
Fixpoint feed_all (s : string) (st : mstate) : mstate :=
  match s with
  | EmptyString => st
  | String c s' => feed_all s' (feed c st)
  end.

Lemma feed_all_opened (s g : string) (cl : list string) :
  feed_all s {| closed := cl; opened := Some g |}
  = {| closed := cl; opened := Some (String.append g s) |}.
Proof.
  revert g. induction s as [|c s IH]; intros g; simpl.
  - f_equal. f_equal. induction g; simpl; congruence.
  - unfold feed. simpl. rewrite IH. f_equal. f_equal.
    induction g; simpl; congruence.
Qed.

Lemma greedy_split (cls : ascii -> bool) (k : string -> mstate -> option (list string))
    (s : string) :
  forall (st : mstate) (r : list string),
    greedy cls k s st = Some r ->
    exists s1 s2, s = String.append s1 s2 /\ k s2 (feed_all s1 st) = Some r.
Proof.
  induction s as [|c s IH]; intros st r; simpl.
  - intros H. exists "", "". auto.
  - destruct (cls c).
    + destruct (greedy cls k s (feed c st)) eqn:E.
      * intros [= <-]. destruct (IH _ _ E) as (s1 & s2 & -> & Hk).
        exists (String c s1), s2. auto.
      * intros H. exists "", (String c s). auto.
    + intros H. exists "", (String c s). auto.
Qed.

Lemma feed_all_closed (s : string) (cl : list string) :
  feed_all s {| closed := cl; opened := None |} = {| closed := cl; opened := None |}.
Proof. induction s as [|c s IH]; simpl; [reflexivity | exact IH]. Qed.

Lemma match_here_lit (w : string) (p : pattern) :
  forall (s : string) (st : mstate) (r : list string),
    match_here (lit w ++ p) s st = Some r ->
    exists s', s = String.append w s' /\ match_here p s' (feed_all w st) = Some r.
Proof.
  induction w as [|c w IH]; intros s st r H.
  - exists s. auto.
  - cbn [lit app] in H. apply match_here_chr in H. destruct H as (s1 & -> & H).
    apply IH in H. destruct H as (s' & -> & H). exists s'. auto.
Qed.

Lemma match_here_many1 (cls : ascii -> bool) (p : pattern) (s : string)
    (st : mstate) (r : list string) :
  match_here (Many1 cls :: p) s st = Some r ->
  exists a s1 s2,
    s = String a (String.append s1 s2) /\ cls a = true
    /\ match_here p s2 (feed_all (String a s1) st) = Some r.
Proof.
  cbn [match_here]. destruct s as [|a s]; [discriminate|].
  destruct (cls a) eqn:E; [|discriminate].
  intros H. apply greedy_split in H. destruct H as (s1 & s2 & -> & H).
  exists a, s1, s2. auto.
Qed.

(** Every character of [s] is in the class. *)
Fixpoint all_of (cls : ascii -> bool) (s : string) : bool :=
  match s with
  | EmptyString => true
  | String c s' => cls c && all_of cls s'
  end.







(** What [path_re] captures starts with the directory [runtime]. *)
Lemma path_re_captures (line : string) (m : list string) :
  search path_re line = Some m ->
  exists p, m = [String.append "runtime/" p] /\ p <> "".
Proof.
  intros H. apply search_suffix in H. destruct H as (_ & s & _ & H).
  unfold path_re, grp in H.
  apply match_here_lit in H. destruct H as (s1 & _ & H).
  unfold start in H. rewrite feed_all_closed in H.
  change (match_here ((lit "runtime/" ++ [Many1 nonspace]) ++ [GClose]) s1
            (open_group {| closed := []; opened := None |}) = Some m) in H.
  rewrite <- app_assoc in H.
  apply match_here_lit in H. destruct H as (s2 & _ & H).
  unfold open_group in H. cbn [closed] in H. rewrite feed_all_opened in H.
  apply match_here_many1 in H. destruct H as (a & s3 & s4 & _ & _ & H).
  rewrite feed_all_opened in H.
  cbn [match_here close_group opened closed] in H. injection H as <-.
  exists (String a s3). split; [reflexivity | discriminate].
Qed.

Lemma startswith_append (w s : string) : startswith w (String.append w s) = true.
Proof.
  unfold startswith. induction w as [|c w IH]; simpl.
  - now destruct s.
  - destruct (ascii_dec c c); [exact IH | congruence].
Qed.








Definition sample_change : change :=
  nth 0 (changes_of sample_diff) (Build_change "" "" "" empty_block empty_block).


(** A file whose path holds the directory [runtime] further down: the
    header line matches inside the path, the text from [runtime/] on is
    kept, and the runtime identifier is the directory that follows. *)
Definition nested_runtime_diff : string := text
  [file_header "parachains/bridge-hub/runtime/src/weights/pallet_x.rs";
   "@@ -10,2 +10,2 @@ fn foo() -> Weight {";
   "-    // Minimum execution time: 10_000 picoseconds.";
   "+    // Minimum execution time: 11_000 picoseconds."].

Example nested_runtime_directory_is_kept :
  keys (split_files (split "010" nested_runtime_diff))
  = ["runtime/src/weights/pallet_x.rs"]
  /\ exists c,
       aggregate first_seen nested_runtime_diff = OK [c]
       /\ (runtime c, pallet c, function c) = ("src", "pallet_x", "foo").
Proof.
  split; [vm_compute; reflexivity|].
  eexists. split; [vm_compute; reflexivity|]. reflexivity.
Qed.





(** ** The fatal conditions *)

Definition malformed_number_diff : string := text
  [file_header "runtime/moonbase/src/weights/pallet_x.rs";
   "@@ -10,2 +10,2 @@ impl WeightInfo for X { fn foo() -> Weight {";
   "-    Weight::from_parts(_, 2_000)";
   "+    Weight::from_parts(200_000, 2_000)"].

(** An input without text is reported and ends the run with status 1,
    before anything else is done. *)
Lemma empty_input_exits (o : SetOrder) (diff_text : string) (threshold : float) :
  strip diff_text = "" ->
  main o diff_text threshold = {| stdout := [NoInput]; ended := SysExit 1 |}.
Proof. intros H. unfold main. now rewrite H. Qed.

(** No other input ends the run through [sys.exit]. *)
Lemma other_input_does_not_exit (o : SetOrder) (diff_text : string) (threshold : float) :
  strip diff_text <> "" ->
  forall code, ended (main o diff_text threshold) <> SysExit code.
Proof.
  intros H code. unfold main. destruct (strip diff_text); [congruence|].
  destruct (report o diff_text threshold []) as [[u|e] out]; discriminate.
Qed.

(** C9. The empty input and an input of white space end the run with the
    message and the status 1.  So does, without the message, a diff that is
    not empty: a removed line [Weight::from_parts(_, 2_000)] matches the
    pattern of the base cost, its first group holds no digit, and [int]
    raises [ValueError], which nothing catches.  The run stops before the
    first line of the report, with a traceback and the exit status 1. *)
Theorem malformed_number_ends_the_run (threshold : float) :
  main first_seen "" threshold = {| stdout := [NoInput]; ended := SysExit 1 |}
  /\ main first_seen (text ["  "; String "009" ""; ""]) threshold
     = {| stdout := [NoInput]; ended := SysExit 1 |}
  /\ strip malformed_number_diff <> ""
  /\ main first_seen malformed_number_diff threshold
     = {| stdout := []; ended := Uncaught ValueError |}
  /\ exit_status (ended (main first_seen malformed_number_diff threshold)) = 1.
Proof.
  split; [reflexivity|]. split; [vm_compute; reflexivity|].
  split; [vm_compute; discriminate|].
  assert (H : main first_seen malformed_number_diff threshold
              = {| stdout := []; ended := Uncaught ValueError |}).
  { vm_compute. reflexivity. }
  split; [exact H | now rewrite H].
Qed.

(** * Further properties of the script *)

From Stdlib Require Import Sorted.

(** ** parse_weight_block, line by line *)

Lemma parse_from_app (l1 l2 : list string) (b : weight_block) :
  parse_from b (l1 ++ l2) = (b' <- parse_from b l1 ;; parse_from b' l2).
Proof.
  revert b. induction l1 as [|line l1 IH]; intros b; simpl; [reflexivity|].
  destruct (parse_line b line); simpl; [apply IH | reflexivity].
Qed.

(** No pattern of [parse_weight_block] takes the line: the five searches
    fail, or the last one succeeds on a line that holds [saturating_mul]. *)
Definition unrecognised (line : string) : bool :=
  let clean := strip line in
  negb (is_some (search min_re clean))
  && negb (negb (contains "saturating_add" clean) && is_some (search base_re clean))
  && negb (is_some (search mul_re clean))
  && negb (is_some (search reads_re clean))
  && negb (is_some (search reads_base_re clean)
           && negb (contains "saturating_mul" clean)).

Lemma parse_line_unrecognised (b : weight_block) (line : string) :
  unrecognised line = true -> parse_line b line = OK b.
Proof.
  unfold unrecognised, parse_line. cbv zeta.
  destruct (search min_re (strip line)); [discriminate|].
  destruct (contains "saturating_add" (strip line));
    destruct (search base_re (strip line)); try discriminate;
    (destruct (search mul_re (strip line)); [discriminate|]);
    (destruct (search reads_re (strip line)); [discriminate|]);
    (destruct (search reads_base_re (strip line)); [|reflexivity]);
    (destruct (contains "saturating_mul" (strip line)); [reflexivity | discriminate]).
Qed.

(** X1. A line that no pattern takes can stand anywhere among the lines of
    a side: the record, or the exception, is the one of the lines without
    it. *)
Theorem unrecognised_line_is_ignored (l1 l2 : list string) (line : string) :
  unrecognised line = true ->
  parse_weight_block (l1 ++ line :: l2) = parse_weight_block (l1 ++ l2).
Proof.
  intros H. unfold parse_weight_block. rewrite !parse_from_app.
  destruct (parse_from empty_block l1) as [b|e]; simpl; [|reflexivity].
  now rewrite (parse_line_unrecognised b line H).
Qed.

Lemma unrecognised_line_is_ignored_witness :
  parse_weight_block
    (["    Weight::from_parts(100_000, 2_000)"]
     ++ "    // Storage: `System::Account` (r:1 w:1)"
     :: ["      .saturating_add(T::DbWeight::get().reads(3_u64))"])
  = parse_weight_block
      (["    Weight::from_parts(100_000, 2_000)"]
       ++ ["      .saturating_add(T::DbWeight::get().reads(3_u64))"]).
Proof.
  apply (unrecognised_line_is_ignored
           ["    Weight::from_parts(100_000, 2_000)"]
           ["      .saturating_add(T::DbWeight::get().reads(3_u64))"]
           "    // Storage: `System::Account` (r:1 w:1)").
  vm_compute. reflexivity.
Defined.

(** [b] with the minimum execution time [t]. *)
Definition with_min_time (b : weight_block) (t : Z) : weight_block :=
  {| base_ref := base_ref b; base_proof := base_proof b;
     min_execution_time := Some t;
     ref_multipliers := ref_multipliers b;
     proof_multipliers := proof_multipliers b;
     db_reads_base := db_reads_base b;
     db_reads_per_var := db_reads_per_var b |}.

(** X2. A line that states a minimum execution time is taken by this
    pattern alone, whatever else it holds: after the lines [lines], whose
    record is [b], it gives [b] with this time in the place of an earlier
    one, all other fields kept.  The time of a record is therefore the one
    of the last line that states a time. *)
Theorem min_time_line_sets_only_the_time
    (lines : list string) (line : string) (b : weight_block)
    (m : list string) (t : Z) :
  parse_weight_block lines = OK b ->
  search min_re (strip line) = Some m ->
  int_sep (group m 1) = OK t ->
  parse_weight_block (lines ++ [line]) = OK (with_min_time b t).
Proof.
  intros Hb Hm Ht. unfold parse_weight_block in *.
  rewrite parse_from_app, Hb. cbn [Py.bind parse_from].
  unfold parse_line. cbv zeta. rewrite Hm, Ht. reflexivity.
Qed.

Lemma min_time_line_sets_only_the_time_witness :
  parse_weight_block
    (["    // Minimum execution time: 10_000 picoseconds.";
      "    Weight::from_parts(100_000, 2_000)"]
     ++ ["    // Minimum execution time: 25_000 picoseconds. Weight::from_parts(1, 1)"])
  = OK {| base_ref := 100000; base_proof := 2000; min_execution_time := Some 25000;
          ref_multipliers := []; proof_multipliers := [];
          db_reads_base := 0; db_reads_per_var := [] |}.
Proof.
  apply (min_time_line_sets_only_the_time
           ["    // Minimum execution time: 10_000 picoseconds.";
            "    Weight::from_parts(100_000, 2_000)"]
           "    // Minimum execution time: 25_000 picoseconds. Weight::from_parts(1, 1)"
           {| base_ref := 100000; base_proof := 2000; min_execution_time := Some 10000;
              ref_multipliers := []; proof_multipliers := [];
              db_reads_base := 0; db_reads_per_var := [] |}
           ["25_000"] 25000); vm_compute; reflexivity.
Defined.

Lemma parse_line_saturating_add (b b' : weight_block) (line : string) :
  contains "saturating_add" (strip line) = true ->
  parse_line b line = OK b' ->
  base_ref b' = base_ref b /\ base_proof b' = base_proof b.
Proof.
  intros Hc. unfold parse_line. cbv zeta. rewrite Hc. cbn [negb].
  destruct (search min_re _).
  { intros H. bind_inv H. injection H as <-. split; reflexivity. }
  destruct (search mul_re _).
  { intros H. do 2 bind_inv H. injection H as <-. split; reflexivity. }
  destruct (search reads_re _).
  { intros H. bind_inv H. injection H as <-. split; reflexivity. }
  destruct (search reads_base_re _).
  { destruct (negb _).
    - intros H. bind_inv H. injection H as <-. split; reflexivity.
    - intros [= <-]. split; reflexivity. }
  intros [= <-]. split; reflexivity.
Qed.

(** X3. Lines that hold [saturating_add] never set the base cost: after
    any lines, further lines that all hold [saturating_add] leave the base
    time and the base proof size as they were, even where such a line holds
    a two-argument [Weight::from_parts] call. *)
Theorem saturating_add_lines_keep_base
    (l1 l2 : list string) (b1 b : weight_block) :
  (forall line, In line l2 -> contains "saturating_add" (strip line) = true) ->
  parse_weight_block l1 = OK b1 ->
  parse_weight_block (l1 ++ l2) = OK b ->
  base_ref b = base_ref b1 /\ base_proof b = base_proof b1.
Proof.
  unfold parse_weight_block. intros Hall H1. rewrite parse_from_app, H1.
  cbn [Py.bind]. clear H1. revert b1.
  induction l2 as [|line l2 IH]; intros b1 H.
  - simpl in H. injection H as <-. split; reflexivity.
  - simpl in H. bind_inv H.
    destruct (parse_line_saturating_add _ _ _ (Hall line (or_introl eq_refl)) E)
      as [<- <-].
    apply IH; [|exact H]. intros l Hl. apply Hall. now right.
Qed.

Lemma saturating_add_lines_keep_base_witness :
  exists b,
    parse_weight_block
      (["    Weight::from_parts(100_000, 2_000)"]
       ++ ["      .saturating_add(Weight::from_parts(7, 8))";
           "      .saturating_add(Weight::from_parts(500, 0).saturating_mul(n.into()))"])
    = OK b
    /\ base_ref b = 100000 /\ base_proof b = 2000.
Proof.
  eexists. split; [vm_compute; reflexivity|].
  apply (saturating_add_lines_keep_base
           ["    Weight::from_parts(100_000, 2_000)"]
           ["      .saturating_add(Weight::from_parts(7, 8))";
            "      .saturating_add(Weight::from_parts(500, 0).saturating_mul(n.into()))"]
           {| base_ref := 100000; base_proof := 2000; min_execution_time := None;
              ref_multipliers := []; proof_multipliers := [];
              db_reads_base := 0; db_reads_per_var := [] |}).
  - intros line [<-|[<-|[]]]; vm_compute; reflexivity.
  - vm_compute. reflexivity.
  - vm_compute. reflexivity.
Defined.

Lemma int_sep_nonneg (g : string) (z : Z) : int_sep g = OK z -> 0 <= z.
Proof. unfold int_sep. apply int_nonneg. Qed.

Definition fields_nonneg (b : weight_block) : Prop :=
  0 <= base_ref b /\ 0 <= base_proof b /\ 0 <= db_reads_base b
  /\ forall t, min_execution_time b = Some t -> 0 <= t.

Lemma parse_line_nonneg (b b' : weight_block) (line : string) :
  fields_nonneg b -> parse_line b line = OK b' -> fields_nonneg b'.
Proof.
  intros (Hr & Hp & Hd & Hm). unfold parse_line, fields_nonneg. cbv zeta.
  destruct (search min_re _).
  { intros H. bind_inv H. injection H as <-. simpl.
    repeat split; auto. intros t [= <-]. eapply int_sep_nonneg; eassumption. }
  destruct (if negb _ then _ else _).
  { intros H. do 2 bind_inv H. injection H as <-. simpl.
    repeat split; eauto using int_sep_nonneg. }
  destruct (search mul_re _).
  { intros H. do 2 bind_inv H. injection H as <-. simpl. repeat split; auto. }
  destruct (search reads_re _).
  { intros H. bind_inv H. injection H as <-. simpl. repeat split; auto. }
  destruct (search reads_base_re _).
  { destruct (negb _).
    - intros H. bind_inv H. injection H as <-. simpl.
      repeat split; eauto using int_nonneg.
    - intros [= <-]. repeat split; auto. }
  intros [= <-]. repeat split; auto.
Qed.

(** X4. No field of a record is negative: the base time, the base proof
    size, the base count of storage reads and, when there is one, the
    minimum execution time of every record that [parse_weight_block]
    returns are at least zero. *)
Theorem extracted_fields_nonneg (lines : list string) (b : weight_block) :
  parse_weight_block lines = OK b -> fields_nonneg b.
Proof.
  unfold parse_weight_block.
  assert (H0 : fields_nonneg empty_block).
  { unfold fields_nonneg. simpl. repeat split; try lia. discriminate. }
  revert H0. generalize empty_block as b0.
  induction lines as [|line lines IH]; simpl; intros b0 H0 H.
  - now injection H as <-.
  - bind_inv H. eapply IH; [|exact H]. eapply parse_line_nonneg; eassumption.
Qed.

Lemma extracted_fields_nonneg_witness :
  exists b, parse_weight_block old_side_lines = OK b /\ fields_nonneg b.
Proof.
  eexists. split; [vm_compute; reflexivity|].
  apply (extracted_fields_nonneg old_side_lines). vm_compute. reflexivity.
Defined.

(** ** The lines that the segmentation keeps *)

(** Every line of every bucket of [d] is a line of [lines] that [marks]
    accepts, without its first character. *)
Definition bucket_lines_from (marks : string -> bool) (lines : list string)
    (d : dict (list string)) : Prop :=
  forall k l x, In (k, l) d -> In x l ->
    exists line, In line lines /\ marks line = true /\ x = drop_first line.

Lemma get_default_In {V} (d : dict (list V)) (k : string) (x : V) :
  In x (get_default d k []) -> exists l, In (k, l) d /\ In x l.
Proof.
  unfold get_default. destruct (get d k) as [l|] eqn:E; [|intros []].
  intros H. exists l. split; [now apply get_In | exact H].
Qed.

Lemma append_lines_from (marks : string -> bool) (lines : list string)
    (d : dict (list string)) (k line : string) :
  bucket_lines_from marks lines d -> In line lines -> marks line = true ->
  bucket_lines_from marks lines (append d k (drop_first line)).
Proof.
  intros Hd Hl Hm k' l x Hin Hx. apply In_set in Hin.
  destruct Hin as [[-> ->]|Hin]; [|eauto].
  apply in_app_or in Hx. destruct Hx as [Hx|[<-|[]]]; [|eauto].
  apply get_default_In in Hx. destruct Hx as (l0 & H0 & Hx). eauto.
Qed.

Lemma segment_line_lines_from (lines : list string) (st : seg_state) (line : string) :
  In line lines ->
  bucket_lines_from is_removal lines (fn_removed_lines st)
  /\ bucket_lines_from is_addition lines (fn_added_lines st) ->
  bucket_lines_from is_removal lines (fn_removed_lines (segment_line st line))
  /\ bucket_lines_from is_addition lines (fn_added_lines (segment_line st line)).
Proof.
  intros Hl [Hr Ha]. unfold segment_line.
  destruct (is_metadata line); [auto|].
  destruct (startswith "@@" line).
  { destruct (search hunk_fn_re line); auto. }
  destruct (match match_ fn_decl_re (content_of line) with
            | Some m => Some (group m 1) | None => current_fn st end); [|auto].
  destruct (is_removal line) eqn:R; simpl; [auto using append_lines_from|].
  destruct (is_addition line) eqn:A; simpl; auto using append_lines_from.
Qed.

(** X5. The segmentation invents no line and changes no side: every line
    kept as a removed line of a function is a line of the file diff that
    starts with [-] (the header [---] apart), without this marker, and every
    line kept as an added line is one that starts with [+] (the header [+++]
    apart), without this marker. *)
Theorem segment_keeps_lines_of_the_diff (file_lines : list string) (k x : string) :
  (In x (get_default (fn_removed_lines (segment file_lines)) k []) ->
   exists line, In line file_lines /\ is_removal line = true /\ x = drop_first line)
  /\ (In x (get_default (fn_added_lines (segment file_lines)) k []) ->
      exists line, In line file_lines /\ is_addition line = true /\ x = drop_first line).
Proof.
  assert (Inv : forall done st,
             (forall line, In line done -> In line file_lines) ->
             bucket_lines_from is_removal file_lines (fn_removed_lines st)
             /\ bucket_lines_from is_addition file_lines (fn_added_lines st) ->
             bucket_lines_from is_removal file_lines
               (fn_removed_lines (segment_from st done))
             /\ bucket_lines_from is_addition file_lines
                  (fn_added_lines (segment_from st done))).
  { unfold segment_from.
    induction done as [|line done IH]; intros st Hsub Hst; [exact Hst|].
    cbn [fold_left]. apply IH; [intros l Hl; apply Hsub; now right|].
    apply segment_line_lines_from; [apply Hsub; now left | exact Hst]. }
  destruct (Inv file_lines seg_start (fun _ H => H)) as [Hr Ha].
  { split; intros k0 l x0 []. }
  fold (segment file_lines) in Hr, Ha.
  split; intros H; apply get_default_In in H; destruct H as (l & Hin & Hx); eauto.
Qed.

(** The number of lines in the buckets of [d]. *)
Definition total_lines (d : dict (list string)) : nat :=
  List.length (List.concat (map snd d)).

Lemma total_lines_set (d : dict (list string)) (k : string) (v : list string) :
  (total_lines (set d k v) + List.length (get_default d k [])
   = total_lines d + List.length v)%nat.
Proof.
  unfold total_lines, get_default.
  induction d as [|[k0 v0] d IH]; simpl.
  - rewrite app_nil_r. lia.
  - destruct (String.eqb k0 k); simpl; rewrite !length_app; lia.
Qed.

Lemma total_lines_append (d : dict (list string)) (k x : string) :
  total_lines (append d k x) = S (total_lines d).
Proof.
  unfold append.
  pose proof (total_lines_set d k (get_default d k [] ++ [x])) as H.
  rewrite length_app in H. simpl in H. lia.
Qed.

Definition one_if (b : bool) : nat := if b then 1%nat else 0%nat.

Lemma segment_line_counts (st : seg_state) (f line : string) :
  current_fn st = Some f ->
  let st' := segment_line st line in
  (exists g, current_fn st' = Some g)
  /\ total_lines (fn_removed_lines st')
     = (total_lines (fn_removed_lines st) + one_if (is_removal line))%nat
  /\ total_lines (fn_added_lines st')
     = (total_lines (fn_added_lines st) + one_if (is_addition line))%nat.
Proof.
  intros Hcur. unfold segment_line.
  destruct (is_metadata line) eqn:M.
  { apply metadata_not_change in M. destruct M as [-> ->]. simpl.
    rewrite !Nat.add_0_r. eauto. }
  destruct (startswith "@@" line) eqn:Hat.
  { assert (is_removal line = false /\ is_addition line = false) as [-> ->].
    { apply prefix_cons in Hat. destruct Hat as (s' & -> & _). split; reflexivity. }
    simpl. rewrite !Nat.add_0_r.
    destruct (search hunk_fn_re line); simpl; eauto. }
  assert (Hg : exists g, match match_ fn_decl_re (content_of line) with
                         | Some m => Some (group m 1)
                         | None => current_fn st
                         end = Some g).
  { destruct (match_ fn_decl_re (content_of line)); eauto. }
  destruct Hg as (g & ->).
  destruct (is_removal line) eqn:R.
  { apply removal_not_header in R. destruct R as (_ & _ & ->). simpl.
    rewrite total_lines_append. split; [eauto|]. split; lia. }
  destruct (is_addition line); simpl.
  - rewrite total_lines_append. split; [eauto|]. split; lia.
  - split; [eauto|]. split; lia.
Qed.

Lemma marked_lines_split (lines : list string) :
  (List.length (filter is_removal lines)
   + List.length (filter (startswith "---") lines)
   = List.length (filter marked_removed lines))%nat
  /\ (List.length (filter is_addition lines)
      + List.length (filter (startswith "+++") lines)
      = List.length (filter marked_added lines))%nat.
Proof.
  induction lines as [|line lines [IHr IHa]]; [split; reflexivity|].
  cbn [filter]. unfold is_removal, is_addition, marked_removed, marked_added.
  split.
  - destruct (startswith "---" line) eqn:H3.
    + assert (H1 : startswith "-" line = true).
      { apply prefix_cons in H3. destruct H3 as (s' & -> & _).
        apply (startswith_append "-" s'). }
      rewrite H1. simpl. unfold is_removal, marked_removed in IHr. lia.
    + rewrite andb_true_r. destruct (startswith "-" line); simpl;
        unfold is_removal, marked_removed in IHr; lia.
  - destruct (startswith "+++" line) eqn:H3.
    + assert (H1 : startswith "+" line = true).
      { apply prefix_cons in H3. destruct H3 as (s' & -> & _).
        apply (startswith_append "+" s'). }
      rewrite H1. simpl. unfold is_addition, marked_added in IHa. lia.
    + rewrite andb_true_r. destruct (startswith "+" line); simpl;
        unfold is_addition, marked_added in IHa; lia.
Qed.

(** X6. Once a function has been identified, the changed lines that are
    lost are those that start with [---] or [+++]: from a state whose cursor
    is set, reading [lines] adds to the removed lines of the functions as
    many lines as [lines] holds lines that start with [-], less those that
    start with [---], and to the added lines as many as it holds lines that
    start with [+], less those that start with [+++]. *)
Theorem only_repeated_markers_are_lost
    (st : seg_state) (f : string) (lines : list string) :
  current_fn st = Some f ->
  (total_lines (fn_removed_lines (segment_from st lines))
   + List.length (filter (startswith "---") lines)
   = total_lines (fn_removed_lines st)
     + List.length (filter marked_removed lines))%nat
  /\ (total_lines (fn_added_lines (segment_from st lines))
      + List.length (filter (startswith "+++") lines)
      = total_lines (fn_added_lines st)
        + List.length (filter marked_added lines))%nat.
Proof.
  intros Hcur.
  assert (H : total_lines (fn_removed_lines (segment_from st lines))
              = (total_lines (fn_removed_lines st)
                 + List.length (filter is_removal lines))%nat
              /\ total_lines (fn_added_lines (segment_from st lines))
                 = (total_lines (fn_added_lines st)
                    + List.length (filter is_addition lines))%nat).
  { clear - Hcur. unfold segment_from. revert st f Hcur.
    induction lines as [|line lines IH]; intros st f Hcur.
    - simpl. lia.
    - cbn [fold_left filter].
      destruct (segment_line_counts st f line Hcur) as ((g & Hg) & Hr & Ha).
      destruct (IH _ g Hg) as [-> ->]. rewrite Hr, Ha.
      destruct (is_removal line), (is_addition line); simpl; lia. }
  destruct H as [-> ->]. destruct (marked_lines_split lines) as [<- <-]. lia.
Qed.

Lemma only_repeated_markers_are_lost_witness :
  current_fn state_on_foo = Some "foo"
  /\ (total_lines
        (fn_removed_lines
           (segment_from state_on_foo ("@@ -40,3 +40,2 @@" :: hunk_with_repeated_markers)))
      + List.length
          (filter (startswith "---") ("@@ -40,3 +40,2 @@" :: hunk_with_repeated_markers))
      = total_lines (fn_removed_lines state_on_foo)
        + List.length
            (filter marked_removed ("@@ -40,3 +40,2 @@" :: hunk_with_repeated_markers)))%nat
  /\ (total_lines
        (fn_added_lines
           (segment_from state_on_foo ("@@ -40,3 +40,2 @@" :: hunk_with_repeated_markers)))
      + List.length
          (filter (startswith "+++") ("@@ -40,3 +40,2 @@" :: hunk_with_repeated_markers))
      = total_lines (fn_added_lines state_on_foo)
        + List.length
            (filter marked_added ("@@ -40,3 +40,2 @@" :: hunk_with_repeated_markers)))%nat.
Proof.
  assert (H : current_fn state_on_foo = Some "foo") by (vm_compute; reflexivity).
  split; [exact H|].
  exact (only_repeated_markers_are_lost state_on_foo "foo"
           ("@@ -40,3 +40,2 @@" :: hunk_with_repeated_markers) H).
Defined.

Lemma segment_keeps_lines_of_the_diff_witness :
  exists line,
    In line sample_file_lines /\ is_removal line = true
    /\ "    Weight::from_parts(100_000, 2_000)" = drop_first line.
Proof.
  apply (proj1 (segment_keeps_lines_of_the_diff sample_file_lines "foo"
                  "    Weight::from_parts(100_000, 2_000)")).
  vm_compute. right. left. reflexivity.
Defined.

(** ** The result of extract_function_diffs *)

(** What [collect_spec] says of a whole call. *)
Lemma extract_spec (o : SetOrder) (file_lines : list string) (result : fn_diffs) :
  extract_function_diffs o file_lines = OK result ->
  let removed := fn_removed_lines (segment file_lines) in
  let added := fn_added_lines (segment file_lines) in
  forall fn,
    (In fn (keys removed) \/ In fn (keys added) ->
     exists ob nb,
       parse_weight_block (get_default removed fn []) = OK ob
       /\ parse_weight_block (get_default added fn []) = OK nb
       /\ get result fn = if has_data ob || has_data nb then Some (ob, nb) else None)
    /\ (~ (In fn (keys removed) \/ In fn (keys added)) -> get result fn = None).
Proof.
  intros H removed added fn.
  unfold extract_function_diffs in H. fold removed added in H.
  destruct (segment_from_nonempty file_lines seg_start) as [Hr Ha].
  { split; intros k l []. }
  fold (segment file_lines) in Hr, Ha. fold removed in Hr. fold added in Ha.
  assert (Hall : forall g, In g (all_fns o (segment file_lines))
                           <-> In g (keys removed) \/ In g (keys added)).
  { intros g. unfold all_fns. rewrite iter_In, in_app_iff. reflexivity. }
  assert (Hne : forall g, In g (all_fns o (segment file_lines)) ->
                 get_default removed g [] <> [] \/ get_default added g [] <> []).
  { intros g Hin. apply Hall in Hin.
    destruct Hin; [left | right]; now apply key_bucket_nonempty. }
  destruct (collect_spec removed added _ [] result H (iter_NoDup o _)
              (fun _ _ => eq_refl) Hne fn) as [Hin Hout].
  split.
  - intros Hk. apply Hin, Hall, Hk.
  - intros Hk. rewrite Hout; [reflexivity|]. intros Hx. apply Hk, Hall, Hx.
Qed.

Lemma get_default_absent {V} (d : dict (list V)) (k : string) :
  ~ In k (keys d) -> get_default d k [] = [].
Proof.
  intros H. apply get_None_keys in H. unfold get_default. now rewrite H.
Qed.

(** X7. A function of which the diff holds added lines only is kept with an
    old record that has every field at its default (zero, absent, empty),
    and a function with removed lines only is kept with such a new record:
    the side without lines is the record of no line. *)
Theorem one_sided_function_has_default_side
    (o : SetOrder) (file_lines : list string) (result : fn_diffs)
    (fn_name : string) (old_block new_block : weight_block) :
  extract_function_diffs o file_lines = OK result ->
  get result fn_name = Some (old_block, new_block) ->
  (~ In fn_name (keys (fn_removed_lines (segment file_lines))) ->
   old_block = empty_block)
  /\ (~ In fn_name (keys (fn_added_lines (segment file_lines))) ->
      new_block = empty_block).
Proof.
  intros H Hg. destruct (extract_spec o file_lines result H fn_name) as [Hin Hout].
  assert (Hk : In fn_name (keys (fn_removed_lines (segment file_lines)))
               \/ In fn_name (keys (fn_added_lines (segment file_lines)))).
  { destruct (in_dec string_dec fn_name (keys (fn_removed_lines (segment file_lines))));
      [now left|].
    destruct (in_dec string_dec fn_name (keys (fn_added_lines (segment file_lines))));
      [now right|].
    rewrite Hout in Hg by tauto. discriminate. }
  destruct (Hin Hk) as (ob & nb & Ho & Hn & Hr). rewrite Hg in Hr.
  destruct (has_data ob || has_data nb); [|discriminate].
  injection Hr as -> ->. split; intros Habs.
  - rewrite (get_default_absent _ _ Habs) in Ho. now injection Ho as <-.
  - rewrite (get_default_absent _ _ Habs) in Hn. now injection Hn as <-.
Qed.

Definition new_function_lines : list string :=
  ["@@ -10,0 +11,4 @@ impl WeightInfo for X {";
   "+    fn baz() -> Weight {";
   "+        // Minimum execution time: 7_000 picoseconds.";
   "+        Weight::from_parts(7_000, 0)";
   "+    }"].

Definition new_function_record : weight_block :=
  {| base_ref := 7000; base_proof := 0; min_execution_time := Some 7000;
     ref_multipliers := []; proof_multipliers := [];
     db_reads_base := 0; db_reads_per_var := [] |}.

Lemma one_sided_function_has_default_side_witness :
  extract_function_diffs first_seen new_function_lines
  = OK [("baz", (empty_block, new_function_record))]
  /\ empty_block = empty_block.
Proof.
  split; [vm_compute; reflexivity|].
  apply (one_sided_function_has_default_side first_seen new_function_lines
           [("baz", (empty_block, new_function_record))] "baz"
           empty_block new_function_record).
  - vm_compute. reflexivity.
  - vm_compute. reflexivity.
  - vm_compute. intros [].
Defined.

(** ** The changes of a diff *)

Lemma collect_entries (Q : string -> weight_block -> weight_block -> Prop)
    (rd ad : dict (list string)) (fns : list string) :
  forall (acc res : fn_diffs),
    collect rd ad fns acc = OK res ->
    (forall fn ob nb, In (fn, (ob, nb)) acc -> Q fn ob nb) ->
    (forall fn ob nb,
       In fn fns ->
       parse_weight_block (get_default rd fn []) = OK ob ->
       parse_weight_block (get_default ad fn []) = OK nb ->
       has_data ob || has_data nb = true -> Q fn ob nb) ->
    forall fn ob nb, In (fn, (ob, nb)) res -> Q fn ob nb.
Proof.
  induction fns as [|f fns IH]; intros acc res H Hacc Hnew fn ob nb Hin.
  - simpl in H. injection H as <-. auto.
  - cbn [collect] in H.
    assert (Hrest : forall g o n, In g fns ->
               parse_weight_block (get_default rd g []) = OK o ->
               parse_weight_block (get_default ad g []) = OK n ->
               has_data o || has_data n = true -> Q g o n).
    { intros g o n Hg. apply Hnew. now right. }
    destruct (negb _ && negb _).
    { eapply IH; eauto. }
    do 2 bind_inv H.
    destruct (has_data a || has_data a0) eqn:Hd.
    + eapply (IH _ _ H); [|exact Hrest|exact Hin].
      intros g o n Hg. apply In_set in Hg. destruct Hg as [[-> [= -> ->]]|Hg].
      * apply Hnew; auto. now left.
      * auto.
    + eapply IH; eauto.
Qed.

Lemma changes_of_files_entries (o : SetOrder) (files : dict (list string)) :
  forall cs c,
    changes_of_files o files = OK cs -> In c cs ->
    exists filepath flines fd,
      In (filepath, flines) files
      /\ extract_function_diffs o flines = OK fd
      /\ In (function c, (old c, new c)) fd.
Proof.
  induction files as [|[filepath flines] files IH]; simpl; intros cs c H Hc.
  - injection H as <-. destruct Hc.
  - do 2 bind_inv H. injection H as <-.
    apply in_app_or in Hc. destruct Hc as [Hc|Hc].
    + exists filepath, flines, a. split; [now left|]. split; [exact E|].
      unfold changes_of_file in Hc. apply in_map_iff in Hc.
      destruct Hc as ([fn [ob nb]] & <- & Hin). exact Hin.
    + destruct (IH _ _ eq_refl Hc) as (fp & fl & fd & Hin & He & Hf).
      exists fp, fl, fd. split; [now right | auto].
Qed.

(** X8. Every change of the list has data on a side: its old record or its
    new record has a base time above zero, a minimum execution time or a
    time multiplier, and both records are the records of lines of the diff.
    A function that has proof sizes or storage reads only is in no list of
    changes. *)
Theorem every_change_has_data
    (o : SetOrder) (diff_text : string) (cs : list change) (c : change) :
  aggregate o diff_text = OK cs ->
  In c cs ->
  (retained (old c) \/ retained (new c))
  /\ exists removed added,
       parse_weight_block removed = OK (old c)
       /\ parse_weight_block added = OK (new c).
Proof.
  intros H Hc. unfold aggregate in H.
  destruct (changes_of_files_entries o _ _ _ H Hc) as (fp & fl & fd & _ & He & Hin).
  unfold extract_function_diffs in He.
  apply (collect_entries
           (fun _ ob nb =>
              (retained ob \/ retained nb)
              /\ exists removed added,
                   parse_weight_block removed = OK ob
                   /\ parse_weight_block added = OK nb)
           _ _ _ _ _ He) with (fn := function c).
  - intros fn ob nb [].
  - intros fn ob nb _ Ho Hn Hd. split; [|eauto].
    apply orb_true_iff in Hd. now rewrite !has_data_spec in Hd.
  - exact Hin.
Qed.

Lemma every_change_has_data_witness :
  (retained (old sample_change) \/ retained (new sample_change))
  /\ exists removed added,
       parse_weight_block removed = OK (old sample_change)
       /\ parse_weight_block added = OK (new sample_change).
Proof.
  apply (every_change_has_data first_seen sample_diff (changes_of sample_diff)).
  - vm_compute. reflexivity.
  - vm_compute. left. reflexivity.
Defined.

(** ** The names of the functions *)

(** A non-empty string of word characters. *)
Definition is_word (s : string) : Prop := s <> "" /\ all_of isword s = true.

Lemma greedy_split_class (cls : ascii -> bool)
    (k : string -> mstate -> option (list string)) (s : string) :
  forall (st : mstate) (r : list string),
    greedy cls k s st = Some r ->
    exists s1 s2,
      s = String.append s1 s2 /\ all_of cls s1 = true
      /\ k s2 (feed_all s1 st) = Some r.
Proof.
  induction s as [|c s IH]; intros st r; simpl.
  - intros H. exists "", "". auto.
  - destruct (cls c) eqn:C.
    + destruct (greedy cls k s (feed c st)) eqn:E.
      * intros [= <-]. destruct (IH _ _ E) as (s1 & s2 & -> & Ha & Hk).
        exists (String c s1), s2. simpl. rewrite C, Ha. auto.
      * intros H. exists "", (String c s). auto.
    + intros H. exists "", (String c s). auto.
Qed.

(** A group of one repeated class, between [p1], which leaves no group
    open, and [p2]. *)
Lemma match_here_group_class (cls : ascii -> bool) (p2 : pattern) (s : string)
    (cl : list string) (r : list string) :
  match_here (grp [Many1 cls] ++ p2) s {| closed := cl; opened := None |} = Some r ->
  exists w s2,
    w <> "" /\ all_of cls w = true
    /\ match_here p2 s2 {| closed := cl ++ [w]; opened := None |} = Some r.
Proof.
  unfold grp. cbn [app match_here open_group closed].
  destruct s as [|a s]; [discriminate|].
  destruct (cls a) eqn:C; [|discriminate].
  intros H. apply greedy_split_class in H.
  destruct H as (s1 & s2 & _ & Ha & H).
  unfold feed, open_group in H. cbn [opened closed] in H.
  rewrite feed_all_opened in H. unfold close_group in H. cbn [opened closed] in H.
  exists (String a s1), s2. split; [discriminate|]. split; [|exact H].
  simpl. now rewrite C, Ha.
Qed.

Lemma hunk_fn_re_captures (line : string) (m : list string) :
  search hunk_fn_re line = Some m -> is_word (group m 1).
Proof.
  intros H. apply search_suffix in H. destruct H as (_ & s & _ & H).
  unfold hunk_fn_re in H. apply match_here_lit in H. destruct H as (s1 & _ & H).
  unfold start in H. rewrite feed_all_closed in H.
  rewrite <- (app_nil_r (grp [Many1 isword])) in H.
  apply match_here_group_class in H. destruct H as (w & s2 & Hne & Hw & H).
  cbn in H. injection H as <-. split; assumption.
Qed.

Lemma fn_decl_re_captures (content : string) (m : list string) :
  match_ fn_decl_re content = Some m -> is_word (group m 1).
Proof.
  unfold match_, fn_decl_re, start. cbn [app].
  change (match_here (Many0 isspace :: ?p) ?s ?st)
    with (greedy isspace (match_here p) s st).
  intros H. apply greedy_split in H. destruct H as (s1 & s2 & _ & H).
  rewrite feed_all_closed in H.
  apply match_here_lit in H. destruct H as (s3 & _ & H).
  rewrite feed_all_closed in H.
  apply match_here_group_class in H. destruct H as (w & s4 & Hne & Hw & H).
  cbn [app] in H.
  change (match_here (Many0 isspace :: ?p) ?s ?st)
    with (greedy isspace (match_here p) s st) in H.
  apply greedy_split in H. destruct H as (s5 & s6 & _ & H).
  rewrite feed_all_closed in H.
  rewrite <- (app_nil_r (lit "(")) in H.
  apply match_here_lit in H. destruct H as (s7 & _ & H).
  rewrite feed_all_closed in H. cbn in H. injection H as <-.
  split; assumption.
Qed.

(** The cursor and the keys of the two dictionaries are words. *)
Definition names_are_words (st : seg_state) : Prop :=
  (forall f, current_fn st = Some f -> is_word f)
  /\ (forall k, In k (keys (fn_removed_lines st)) -> is_word k)
  /\ (forall k, In k (keys (fn_added_lines st)) -> is_word k).

Lemma keys_append (d : dict (list string)) (k x k' : string) :
  In k' (keys (append d k x)) -> k' = k \/ In k' (keys d).
Proof. unfold append. apply keys_set. Qed.

Lemma segment_line_words (st : seg_state) (line : string) :
  names_are_words st -> names_are_words (segment_line st line).
Proof.
  intros Hst. pose proof Hst as (Hc & Hr & Ha). unfold segment_line.
  destruct (is_metadata line); [exact Hst|].
  destruct (startswith "@@" line).
  { destruct (search hunk_fn_re line) as [m|] eqn:E; [|exact Hst].
    split; [|split; assumption].
    cbn. intros g [= <-]. eapply hunk_fn_re_captures, E. }
  assert (Hcur : forall g,
             match match_ fn_decl_re (content_of line) with
             | Some m => Some (group m 1)
             | None => current_fn st
             end = Some g -> is_word g).
  { destruct (match_ fn_decl_re (content_of line)) as [m|] eqn:E; [|exact Hc].
    intros g [= <-]. eapply fn_decl_re_captures, E. }
  destruct (match match_ fn_decl_re (content_of line) with
            | Some m => Some (group m 1)
            | None => current_fn st
            end) as [g|]; [|exact Hst].
  specialize (Hcur g eq_refl).
  assert (Hg : forall g', Some g = Some g' -> is_word g').
  { intros g' [= <-]. exact Hcur. }
  destruct (is_removal line); [|destruct (is_addition line)];
    (split; [exact Hg|]); cbn [fn_removed_lines fn_added_lines];
    split; try assumption;
    intros k Hk; apply keys_append in Hk; destruct Hk as [->|Hk]; auto.
Qed.

Lemma segment_words (file_lines : list string) : names_are_words (segment file_lines).
Proof.
  unfold segment, segment_from.
  assert (H0 : names_are_words seg_start).
  { repeat split; cbn; intros; try discriminate; contradiction. }
  revert H0. generalize seg_start as st.
  induction file_lines as [|line lines IH]; intros st H; [exact H|].
  cbn [fold_left]. apply IH, segment_line_words, H.
Qed.

(** X9. The function name of every change of the list is a non-empty string
    of word characters (letters, digits, underscore): it is the identifier
    captured after [fn ] in a hunk header or in a declaration line, never a
    line of the diff or an empty name. *)
Theorem function_names_are_words
    (o : SetOrder) (diff_text : string) (cs : list change) (c : change) :
  aggregate o diff_text = OK cs ->
  In c cs ->
  function c <> "" /\ all_of isword (function c) = true.
Proof.
  intros H Hc. unfold aggregate in H.
  destruct (changes_of_files_entries o _ _ _ H Hc) as (fp & fl & fd & _ & He & Hin).
  destruct (extract_spec o fl fd He (function c)) as [_ Hout].
  destruct (segment_words fl) as (_ & Hr & Ha).
  destruct (in_dec string_dec (function c) (keys (fn_removed_lines (segment fl))))
    as [Hk|Hk]; [exact (Hr _ Hk)|].
  destruct (in_dec string_dec (function c) (keys (fn_added_lines (segment fl))))
    as [Hk'|Hk']; [exact (Ha _ Hk')|].
  exfalso.
  assert (Hn : get fd (function c) = None) by (apply Hout; tauto).
  apply get_None_keys in Hn. apply Hn. unfold keys.
  apply in_map_iff. exists (function c, (old c, new c)). auto.
Qed.

Lemma function_names_are_words_witness :
  function sample_change = "foo"
  /\ function sample_change <> "" /\ all_of isword (function sample_change) = true.
Proof.
  split; [vm_compute; reflexivity|].
  apply (function_names_are_words first_seen sample_diff (changes_of sample_diff)).
  - vm_compute. reflexivity.
  - vm_compute. left. reflexivity.
Defined.

(** ** The sign of a percentage *)

(** A float that is not below zero, one that is not above zero. *)
Definition not_below_zero (p : float) : Prop := flt p zero = false.
Definition not_above_zero (p : float) : Prop := flt zero p = false.

(** The sign of a rounded result is the sign that was asked for. *)
Definition has_sign (s : bool) (x : float) : Prop :=
  match x with
  | S754_zero s' | S754_infinity s' | S754_finite s' _ _ => s' = s
  | S754_nan => True
  end.

Lemma binary_round_aux_sign (s : bool) (mx ex : Z) (lx : location) :
  has_sign s (binary_round_aux prec emax s mx ex lx).
Proof.
  unfold binary_round_aux.
  destruct (shr_fexp prec emax mx ex lx) as [mrs e'].
  destruct (shr_fexp prec emax _ e' loc_Exact) as [mrs' e''].
  destruct (shr_m mrs') as [|m|m]; [reflexivity | | exact I].
  destruct (Z.leb e'' (Z.sub emax prec)); reflexivity.
Qed.

Lemma fmul_100_sign (s : bool) (q : float) :
  has_sign s q -> has_sign s (fmul q (of_int 100)).
Proof.
  assert (E : of_int 100 = S754_finite false 7036874417766400 (-46))
    by (vm_compute; reflexivity).
  rewrite E. unfold fmul, SFmul.
  destruct q as [s'|s'| |s' m e]; simpl; intros H; subst; auto.
  - now destruct s.
  - now destruct s.
  - replace (xorb s false) with s by (now destruct s).
    apply binary_round_aux_sign.
Qed.

Lemma positive_sign (x : float) : has_sign false x -> not_below_zero x.
Proof. unfold not_below_zero, flt. destruct x; simpl; intros H; subst; reflexivity. Qed.

Lemma negative_sign (x : float) : has_sign true x -> not_above_zero x.
Proof. unfold not_above_zero, flt. destruct x; simpl; intros H; subst; reflexivity. Qed.

Lemma int_truediv_sign (a b : Z) (q : float) :
  0 < b -> int_truediv a b = OK q ->
  has_sign (a <? 0) q.
Proof.
  intros Hb. unfold int_truediv.
  destruct b as [|pb|pb]; try lia.
  destruct a as [|pa|pa]; cbn [SFdiv].
  - intros [= <-]. reflexivity.
  - destruct (SFdiv_core_binary prec emax (Z.pos pa) 0 (Z.pos pb) 0) as [[mz ez] lz].
    pose proof (binary_round_aux_sign (xorb false false) mz ez lz) as Hs.
    destruct (binary_round_aux prec emax (xorb false false) mz ez lz);
      try discriminate; intros [= <-]; exact Hs.
  - destruct (SFdiv_core_binary prec emax (Z.pos pa) 0 (Z.pos pb) 0) as [[mz ez] lz].
    pose proof (binary_round_aux_sign (xorb true false) mz ez lz) as Hs.
    destruct (binary_round_aux prec emax (xorb true false) mz ez lz);
      try discriminate; intros [= <-]; exact Hs.
Qed.

Lemma pct_sign (old_val new_val : Z) (p : float) :
  0 < old_val ->
  pct old_val new_val = OK p ->
  (old_val <= new_val -> not_below_zero p)
  /\ (new_val <= old_val -> not_above_zero p)
  /\ (new_val = old_val -> p = zero).
Proof.
  intros Hold. unfold pct.
  destruct (Z.eqb_spec old_val 0) as [|_]; [lia|].
  destruct (int_truediv (new_val - old_val) old_val) as [q|] eqn:E; [|discriminate].
  cbn [Py.bind]. intros [= <-].
  pose proof (int_truediv_sign _ _ _ Hold E) as Hs.
  split; [|split].
  - intros H. apply positive_sign, fmul_100_sign.
    destruct (Z.ltb_spec (new_val - old_val) 0); [lia | exact Hs].
  - intros H. destruct (Z.ltb_spec (new_val - old_val) 0).
    + apply negative_sign, fmul_100_sign, Hs.
    + assert (Hz : new_val - old_val = 0) by lia. rewrite Hz in E.
      unfold int_truediv in E. destruct old_val; try lia.
      cbn in E. injection E as <-. reflexivity.
  - intros ->. rewrite Z.sub_diag in E.
    unfold int_truediv in E. destruct old_val; try lia.
    cbn in E. injection E as <-. reflexivity.
Qed.

(** X10. The direction of a change is never reversed: for an old value
    above zero, the percentage of a new value that is not smaller is not
    below zero, the percentage of a new value that is not larger is not
    above zero, and the percentage of an equal value is zero. *)
Theorem pct_keeps_direction (old_val new_val : Z) (p : float) :
  0 < old_val ->
  pct old_val new_val = OK p ->
  (old_val <= new_val -> not_below_zero p)
  /\ (new_val <= old_val -> not_above_zero p)
  /\ (new_val = old_val -> p = zero).
Proof. apply pct_sign. Qed.

Lemma pct_keeps_direction_witness :
  exists p, pct 10000 25000 = OK p /\ not_below_zero p.
Proof.
  eexists. split; [vm_compute; reflexivity|].
  apply (pct_keeps_direction 10000 25000); [lia | vm_compute; reflexivity | lia].
Defined.

(** ** The lists of the base time *)

Lemma base_inc_In (cs : list change) (t : float) :
  forall l, base_inc cs t = OK l ->
  forall c p,
    In (c, p) l <->
    In c cs /\ base_both c = true
    /\ pct (base_ref (old c)) (base_ref (new c)) = OK p /\ flt t p = true.
Proof.
  induction cs as [|c0 cs IH]; simpl; intros l H c p.
  - injection H as <-. simpl. tauto.
  - destruct (base_both c0) eqn:B.
    + do 2 bind_inv H. injection H as <-. specialize (IH _ eq_refl c p).
      destruct (flt t a) eqn:F; simpl; rewrite IH; split.
      * intros [[= <- <-]|H]; [auto | tauto].
      * intros [[<-|Hc] (Hb & Hp & Hf)]; [left | right; auto].
        rewrite E in Hp. now injection Hp as <-.
      * tauto.
      * intros [[<-|Hc] (Hb & Hp & Hf)]; [|auto].
        rewrite E in Hp. injection Hp as <-. congruence.
    + rewrite (IH _ H c p). split; [tauto|].
      intros [[<-|Hc] (Hb & Hp)]; [congruence | auto].
Qed.

Lemma base_dec_In (cs : list change) (t : float) :
  forall l, base_dec cs t = OK l ->
  forall c p,
    In (c, p) l <->
    In c cs /\ base_both c = true
    /\ pct (base_ref (old c)) (base_ref (new c)) = OK p /\ flt p (fneg t) = true.
Proof.
  induction cs as [|c0 cs IH]; simpl; intros l H c p.
  - injection H as <-. simpl. tauto.
  - destruct (base_both c0) eqn:B.
    + do 2 bind_inv H. injection H as <-. specialize (IH _ eq_refl c p).
      destruct (flt a (fneg t)) eqn:F; simpl; rewrite IH; split.
      * intros [[= <- <-]|H]; [auto | tauto].
      * intros [[<-|Hc] (Hb & Hp & Hf)]; [left | right; auto].
        rewrite E in Hp. now injection Hp as <-.
      * tauto.
      * intros [[<-|Hc] (Hb & Hp & Hf)]; [|auto].
        rewrite E in Hp. injection Hp as <-. congruence.
    + rewrite (IH _ H c p). split; [tauto|].
      intros [[<-|Hc] (Hb & Hp)]; [congruence | auto].
Qed.

(** X11. The two lists of the base time hold what their tests say and
    nothing else: a pair of a change and a percentage is in the list of
    increases if and only if the change is in the list of changes, its two
    base times are above zero, the percentage is the one of these two times
    and it is above the threshold; it is in the list of decreases if and
    only if the same holds with a percentage below the opposite of the
    threshold.  Sorting loses and adds no entry. *)
Theorem base_lists_hold_the_flagged_changes
    (cs : list change) (threshold : float) (incs decs : list (change * float)) :
  sig_base_inc cs threshold = OK incs ->
  sig_base_dec cs threshold = OK decs ->
  forall c p,
    (In (c, p) incs <->
     In c cs /\ base_both c = true
     /\ pct (base_ref (old c)) (base_ref (new c)) = OK p
     /\ flt threshold p = true)
    /\ (In (c, p) decs <->
        In c cs /\ base_both c = true
        /\ pct (base_ref (old c)) (base_ref (new c)) = OK p
        /\ flt p (fneg threshold) = true).
Proof.
  unfold sig_base_inc, sig_base_dec. intros Hi Hd c p.
  bind_inv Hi. injection Hi as <-. bind_inv Hd. injection Hd as <-.
  rewrite sorted_reverse_In, sorted_In.
  split; [now apply base_inc_In | now apply base_dec_In].
Qed.

Lemma base_lists_hold_the_flagged_changes_witness :
  exists incs decs,
    sig_base_inc (changes_of sample_diff) (of_int 50) = OK incs
    /\ sig_base_dec (changes_of sample_diff) (of_int 50) = OK decs
    /\ List.length incs = 1%nat /\ List.length decs = 1%nat
    /\ forall c p,
         (In (c, p) incs <->
          In c (changes_of sample_diff) /\ base_both c = true
          /\ pct (base_ref (old c)) (base_ref (new c)) = OK p
          /\ flt (of_int 50) p = true)
         /\ (In (c, p) decs <->
             In c (changes_of sample_diff) /\ base_both c = true
             /\ pct (base_ref (old c)) (base_ref (new c)) = OK p
             /\ flt p (fneg (of_int 50)) = true).
Proof.
  do 2 eexists. split; [vm_compute; reflexivity|]. split; [vm_compute; reflexivity|].
  split; [reflexivity|]. split; [reflexivity|].
  apply (base_lists_hold_the_flagged_changes (changes_of sample_diff) (of_int 50));
    vm_compute; reflexivity.
Defined.

Lemma above_nonneg_threshold (t p : float) :
  flt t zero = false -> flt t p = true -> flt zero p = true.
Proof.
  unfold flt, zero, SFltb, SFcompare.
  destruct t as [st|st| |st mt et], p as [sp|sp| |sp mp ep];
    try discriminate; try reflexivity;
    repeat match goal with s : bool |- _ => destruct s end;
    try discriminate; try reflexivity.
Qed.

Lemma below_nonneg_threshold (t p : float) :
  flt t zero = false -> flt p (fneg t) = true -> flt p zero = true.
Proof.
  unfold flt, fneg, zero, SFltb, SFcompare, SFopp.
  destruct t as [st|st| |st mt et], p as [sp|sp| |sp mp ep];
    try discriminate; try reflexivity;
    repeat match goal with s : bool |- _ => destruct s end;
    try discriminate; try reflexivity.
Qed.

(** X12. With a threshold that is not negative, the section of the
    increases lists only changes whose new base time is larger than the old
    one, the section of the decreases only changes whose new base time is
    smaller: no change is in both, and none is listed in the wrong
    direction. *)
Theorem base_sections_keep_direction
    (cs : list change) (threshold : float) (incs decs : list (change * float)) :
  flt threshold zero = false ->
  sig_base_inc cs threshold = OK incs ->
  sig_base_dec cs threshold = OK decs ->
  (forall c p, In (c, p) incs -> base_ref (old c) < base_ref (new c))
  /\ (forall c p, In (c, p) decs -> base_ref (new c) < base_ref (old c))
  /\ (forall c p q, In (c, p) incs -> In (c, q) decs -> False).
Proof.
  unfold sig_base_inc, sig_base_dec. intros Ht Hi Hd.
  bind_inv Hi. injection Hi as <-. bind_inv Hd. injection Hd as <-.
  assert (Hinc : forall c p, In (c, p) (sorted_reverse flt snd a) ->
                   base_ref (old c) < base_ref (new c)).
  { intros c p H. apply sorted_reverse_In in H.
    apply (base_inc_In _ _ _ E) in H. destruct H as (_ & Hb & Hp & Hf).
    unfold base_both in Hb. apply andb_true_iff in Hb. destruct Hb as [Ho _].
    apply Z.gtb_lt in Ho.
    destruct (Z.lt_ge_cases (base_ref (old c)) (base_ref (new c))) as [|Hle];
      [assumption|].
    destruct (pct_sign _ _ _ Ho Hp) as (_ & Hdown & _).
    specialize (Hdown Hle). unfold not_above_zero in Hdown.
    rewrite (above_nonneg_threshold _ _ Ht Hf) in Hdown. discriminate. }
  assert (Hdec : forall c p, In (c, p) (sorted flt snd a0) ->
                   base_ref (new c) < base_ref (old c)).
  { intros c p H. apply sorted_In in H.
    apply (base_dec_In _ _ _ E0) in H. destruct H as (_ & Hb & Hp & Hf).
    unfold base_both in Hb. apply andb_true_iff in Hb. destruct Hb as [Ho _].
    apply Z.gtb_lt in Ho.
    destruct (Z.lt_ge_cases (base_ref (new c)) (base_ref (old c))) as [|Hle];
      [assumption|].
    destruct (pct_sign _ _ _ Ho Hp) as (Hup & _ & _).
    specialize (Hup Hle). unfold not_below_zero in Hup.
    rewrite (below_nonneg_threshold _ _ Ht Hf) in Hup. discriminate. }
  split; [exact Hinc|]. split; [exact Hdec|].
  intros c p q H1 H2. specialize (Hinc _ _ H1). specialize (Hdec _ _ H2). lia.
Qed.

Lemma base_sections_keep_direction_witness :
  exists incs decs,
    sig_base_inc (changes_of sample_diff) (of_int 50) = OK incs
    /\ sig_base_dec (changes_of sample_diff) (of_int 50) = OK decs
    /\ (forall c p, In (c, p) incs -> base_ref (old c) < base_ref (new c))
    /\ (forall c p, In (c, p) decs -> base_ref (new c) < base_ref (old c))
    /\ (forall c p q, In (c, p) incs -> In (c, q) decs -> False).
Proof.
  do 2 eexists. split; [vm_compute; reflexivity|]. split; [vm_compute; reflexivity|].
  apply (base_sections_keep_direction (changes_of sample_diff) (of_int 50));
    vm_compute; reflexivity.
Defined.

(** ** The minimum execution times: statistics, section 4 and the table *)

Lemma all_min_entries_changes (cs : list change) :
  forall es, all_min_entries cs = OK es -> min_changes cs = OK (map snd es).
Proof.
  induction cs as [|c cs IH]; simpl; intros es H.
  - now injection H as <-.
  - destruct (min_measured c); [|auto].
    do 2 bind_inv H. injection H as <-. simpl. now rewrite (IH _ eq_refl).
Qed.

Lemma min_entries_in_table (cs : list change) (t : float) :
  forall l, min_entries cs t = OK l ->
  exists es, all_min_entries cs = OK es /\ incl l es.
Proof.
  induction cs as [|c cs IH]; simpl; intros l H.
  - injection H as <-. eexists. split; [reflexivity | apply incl_refl].
  - destruct (min_measured c); [|auto].
    do 2 bind_inv H. injection H as <-.
    destruct (IH _ eq_refl) as (es & -> & Hincl). simpl.
    eexists. split; [reflexivity|].
    destruct (flt t (fabs a)); [now apply incl_same_head | now apply incl_tl].
Qed.

(** X13. The three places that show minimum execution times agree: when
    section 4 is computed so is the table of section 7, every entry of
    section 4 is a row of the table, and the percentages of the rows are,
    up to their order, the values that the overall statistics summarise. *)
Theorem table_holds_flagged_and_summarised
    (cs : list change) (threshold : float) (flagged : list (change * float)) :
  sig_min cs threshold = OK flagged ->
  exists rows ps,
    all_min cs = OK rows
    /\ incl flagged rows
    /\ min_changes cs = OK ps
    /\ Permutation ps (map snd rows).
Proof.
  unfold sig_min, all_min. intros H. bind_inv H. injection H as <-.
  destruct (min_entries_in_table _ _ _ E) as (es & He & Hincl).
  rewrite He. cbn [Py.bind].
  exists (sorted_reverse flt abs_snd es), (map snd es).
  split; [reflexivity|]. split; [|split].
  - intros x Hx. apply sorted_reverse_In. apply sorted_reverse_In in Hx. auto.
  - now apply all_min_entries_changes.
  - apply Permutation_map, sorted_reverse_perm.
Qed.

Lemma table_holds_flagged_and_summarised_witness :
  exists flagged rows ps,
    sig_min (changes_of sample_diff) (of_int 50) = OK flagged
    /\ List.length flagged = 1%nat
    /\ all_min (changes_of sample_diff) = OK rows
    /\ incl flagged rows
    /\ min_changes (changes_of sample_diff) = OK ps
    /\ Permutation ps (map snd rows).
Proof.
  destruct (table_holds_flagged_and_summarised (changes_of sample_diff) (of_int 50)
              (match sig_min (changes_of sample_diff) (of_int 50) with
               | OK l => l
               | Raise _ => []
               end))
    as (rows & ps & H1 & H2 & H3 & H4).
  - vm_compute. reflexivity.
  - eexists _, rows, ps. split; [vm_compute; reflexivity|].
    split; [reflexivity|]. auto.
Defined.

(** ** Terms that appear and terms that are removed *)

Lemma get_default_positive (d : dict Z) (k : string) :
  0 < get_default d k 0 -> In k (keys d).
Proof.
  intros H. destruct (in_dec string_dec k (keys d)) as [|Hn]; [assumption|].
  apply get_None_keys in Hn. unfold get_default in H. rewrite Hn in H. lia.
Qed.

Lemma mul_vars_sentinels (c : change) (vars : list string) (t : float) :
  forall l, mul_vars c vars t = OK l ->
  forall var, In var vars ->
    let old_val := get_default (ref_multipliers (old c)) var 0 in
    let new_val := get_default (ref_multipliers (new c)) var 0 in
    (old_val = 0 -> 0 < new_val ->
     In {| ve_change := c; ve_var := var; ve_old := old_val; ve_new := new_val;
           ve_pct := inf |} l)
    /\ (0 < old_val -> new_val = 0 ->
        In {| ve_change := c; ve_var := var; ve_old := old_val; ve_new := new_val;
              ve_pct := minus_100 |} l).
Proof.
  induction vars as [|v vars IH]; cbn [mul_vars]; intros l H var Hin; [destruct Hin|].
  cbv zeta.
  assert (Htail : forall l', mul_vars c vars t = OK l' -> incl l' l ->
            In var vars ->
            (get_default (ref_multipliers (old c)) var 0 = 0 ->
             0 < get_default (ref_multipliers (new c)) var 0 ->
             In {| ve_change := c; ve_var := var;
                   ve_old := get_default (ref_multipliers (old c)) var 0;
                   ve_new := get_default (ref_multipliers (new c)) var 0;
                   ve_pct := inf |} l)
            /\ (0 < get_default (ref_multipliers (old c)) var 0 ->
                get_default (ref_multipliers (new c)) var 0 = 0 ->
                In {| ve_change := c; ve_var := var;
                      ve_old := get_default (ref_multipliers (old c)) var 0;
                      ve_new := get_default (ref_multipliers (new c)) var 0;
                      ve_pct := minus_100 |} l)).
  { intros l' Hl' Hincl Hv. destruct (IH _ Hl' var Hv) as [H1 H2].
    split; intros; apply Hincl; auto. }
  destruct ((get_default (ref_multipliers (old c)) v 0 >? 0)
            && (get_default (ref_multipliers (new c)) v 0 >? 0)) eqn:B1.
  { do 2 bind_inv H. injection H as <-.
    apply andb_true_iff in B1. rewrite !Z.gtb_lt in B1.
    destruct Hin as [<-|Hv].
    - split; intros; lia.
    - apply (Htail _ eq_refl); [|exact Hv].
      destruct (flt t (fabs a)); [apply incl_tl|]; apply incl_refl. }
  destruct ((get_default (ref_multipliers (old c)) v 0 =? 0)
            && (get_default (ref_multipliers (new c)) v 0 >? 0)) eqn:B2.
  { bind_inv H. injection H as <-.
    apply andb_true_iff in B2. rewrite Z.eqb_eq, Z.gtb_lt in B2.
    destruct Hin as [<-|Hv].
    - split; intros; [now left | lia].
    - apply (Htail _ eq_refl); [apply incl_tl, incl_refl | exact Hv]. }
  destruct ((get_default (ref_multipliers (old c)) v 0 >? 0)
            && (get_default (ref_multipliers (new c)) v 0 =? 0)) eqn:B3.
  { bind_inv H. injection H as <-.
    apply andb_true_iff in B3. rewrite Z.eqb_eq, Z.gtb_lt in B3.
    destruct Hin as [<-|Hv].
    - split; intros; [lia | now left].
    - apply (Htail _ eq_refl); [apply incl_tl, incl_refl | exact Hv]. }
  destruct Hin as [<-|Hv].
  - apply andb_false_iff in B2. apply andb_false_iff in B3.
    rewrite Z.eqb_neq, Z.gtb_ltb, Z.ltb_ge in B2.
    rewrite Z.eqb_neq, Z.gtb_ltb, Z.ltb_ge in B3.
    split; intros; lia.
  - apply (Htail _ H); [apply incl_refl | exact Hv].
Qed.

Lemma mul_entries_In (o : SetOrder) (cs : list change) (t : float) :
  forall l, mul_entries o cs t = OK l ->
  forall c, In c cs ->
  exists lc,
    mul_vars c (union_keys o (ref_multipliers (old c)) (ref_multipliers (new c))) t
    = OK lc
    /\ incl lc l.
Proof.
  induction cs as [|c0 cs IH]; cbn [mul_entries]; intros l H c Hc; [destruct Hc|].
  do 2 bind_inv H. injection H as <-. destruct Hc as [<-|Hc].
  - exists a. split; [exact E | apply incl_appl, incl_refl].
  - destruct (IH _ eq_refl c Hc) as (lc & Hlc & Hincl).
    exists lc. split; [exact Hlc | apply incl_appr, Hincl].
Qed.

(** X14. New and removed terms are listed at every threshold: for a change
    of the list and a variable whose time multiplier is absent (or zero) on
    the old side and positive on the new side, the list of section 3 holds
    the entry of this variable with the sentinel of an appeared term; for a
    multiplier that is positive on the old side and absent on the new side
    it holds the entry with the percentage -100. *)
Theorem new_and_removed_terms_are_always_listed
    (o : SetOrder) (cs : list change) (threshold : float) (l : list var_entry)
    (c : change) (var : string) :
  sig_mul o cs threshold = OK l ->
  In c cs ->
  let old_val := get_default (ref_multipliers (old c)) var 0 in
  let new_val := get_default (ref_multipliers (new c)) var 0 in
  (old_val = 0 -> 0 < new_val ->
   In {| ve_change := c; ve_var := var; ve_old := old_val; ve_new := new_val;
         ve_pct := inf |} l)
  /\ (0 < old_val -> new_val = 0 ->
      In {| ve_change := c; ve_var := var; ve_old := old_val; ve_new := new_val;
            ve_pct := minus_100 |} l).
Proof.
  unfold sig_mul. intros H Hc. bind_inv H. injection H as <-. cbv zeta.
  destruct (mul_entries_In _ _ _ _ E c Hc) as (lc & Hlc & Hincl).
  split; intros H1 H2; apply sorted_reverse_In, Hincl.
  - apply (mul_vars_sentinels _ _ _ _ Hlc var); [|exact H1|exact H2].
    apply iter_In, in_or_app. right. now apply get_default_positive.
  - apply (mul_vars_sentinels _ _ _ _ Hlc var); [|exact H1|exact H2].
    apply iter_In, in_or_app. left. now apply get_default_positive.
Qed.

Lemma new_and_removed_terms_are_always_listed_witness :
  exists l,
    sig_mul first_seen [large_change] (of_int 1000000000) = OK l
    /\ In {| ve_change := large_change; ve_var := "a"; ve_old := 0; ve_new := 5;
             ve_pct := inf |} l.
Proof.
  eexists. split; [vm_compute; reflexivity|].
  apply (new_and_removed_terms_are_always_listed first_seen [large_change]
           (of_int 1000000000) _ large_change "a").
  - vm_compute. reflexivity.
  - now left.
  - reflexivity.
  - reflexivity.
Defined.

(** ** The groups of section 3 *)

Lemma set_keys_NoDup {V} (d : dict V) (k : string) (v : V) :
  NoDup (keys d) -> NoDup (keys (set d k v)).
Proof.
  unfold keys. induction d as [|[k0 v0] d IH]; simpl; intros H.
  - constructor; [intros [] | constructor].
  - destruct (String.eqb k0 k) eqn:E; simpl; [exact H|].
    inversion H as [|? ? Hn Hd]; subst. constructor; [|auto].
    intros Hin. apply keys_set in Hin. destruct Hin as [->|Hin]; [|contradiction].
    rewrite String.eqb_refl in E. discriminate.
Qed.

Lemma group_from_keys (sig : list var_entry) :
  forall acc : dict (list var_entry),
    NoDup (keys acc) ->
    (forall k l, In (k, l) acc -> l <> []) ->
    let by_fn := fold_left (fun by_fn e => append by_fn (fn_key (ve_change e)) e) sig acc in
    NoDup (keys by_fn) /\ (forall k l, In (k, l) by_fn -> l <> []).
Proof.
  induction sig as [|e sig IH]; intros acc Hnd Hne; cbn [fold_left]; [auto|].
  apply IH.
  - unfold append. now apply set_keys_NoDup.
  - intros k l Hin. unfold append in Hin. apply In_set in Hin.
    destruct Hin as [[_ ->]|Hin]; [|eauto].
    intros E. now apply app_eq_nil in E.
Qed.

(** X15. Grouping by function loses nothing and keeps the order: the group
    of a key holds the entries of the list whose function has this key, in
    the order of the list; a key has a group if and only if an entry has
    this key; no key has two groups. *)
Theorem groups_hold_entries_in_order (sig : list var_entry) (key : string) :
  get_default (group_by_fn sig) key [] = filter (has_key key) sig
  /\ (In key (keys (group_by_fn sig)) <->
      exists e, In e sig /\ fn_key (ve_change e) = key)
  /\ NoDup (keys (group_by_fn sig)).
Proof.
  destruct (group_from_keys sig [] (NoDup_nil _) (fun _ _ H => match H with end))
    as [Hnd Hne].
  fold (group_by_fn sig) in Hnd, Hne.
  split; [apply group_by_fn_spec|]. split; [|exact Hnd].
  split.
  - intros Hk.
    assert (Hg : get_default (group_by_fn sig) key [] <> []).
    { unfold get_default. destruct (get (group_by_fn sig) key) as [l|] eqn:E.
      - apply get_In in E. eauto.
      - apply get_None_keys in E. contradiction. }
    rewrite group_by_fn_spec in Hg.
    destruct (filter (has_key key) sig) as [|e l] eqn:F; [congruence|].
    assert (He : In e (filter (has_key key) sig)) by (rewrite F; now left).
    apply filter_In in He. destruct He as [He Hk'].
    exists e. split; [exact He | now apply String.eqb_eq].
  - intros (e & He & Hk).
    destruct (in_dec string_dec key (keys (group_by_fn sig))) as [|Hn]; [assumption|].
    exfalso. pose proof (group_by_fn_spec sig key) as Hs.
    rewrite (get_default_absent _ _ Hn) in Hs.
    assert (Hin : In e (filter (has_key key) sig)).
    { apply filter_In. split; [exact He | now apply String.eqb_eq]. }
    rewrite <- Hs in Hin. destruct Hin.
Qed.

(** *** The order of the keys *)

Lemma nat_of_ascii_inj (x y : ascii) : nat_of_ascii x = nat_of_ascii y -> x = y.
Proof.
  intros H. rewrite <- (ascii_nat_embedding x), <- (ascii_nat_embedding y).
  now rewrite H.
Qed.

Lemma str_lt_trans (a b c : string) :
  str_lt a b = true -> str_lt b c = true -> str_lt a c = true.
Proof.
  revert b c. induction a as [|x a IH]; intros [|y b] [|z c]; simpl;
    try discriminate; try reflexivity.
  rewrite !orb_true_iff, !andb_true_iff, !Nat.ltb_lt, !Nat.eqb_eq.
  intros [H1|[H1 H1']] [H2|[H2 H2']]; try (left; lia).
  right. split; [lia | eauto].
Qed.

Lemma str_lt_total (a b : string) :
  str_lt a b = false -> str_lt b a = false -> a = b.
Proof.
  revert b. induction a as [|x a IH]; intros [|y b]; simpl;
    try discriminate; try reflexivity.
  rewrite !orb_false_iff, !andb_false_iff, !Nat.ltb_ge, !Nat.eqb_neq.
  intros [H1 H1'] [H2 H2'].
  assert (E : nat_of_ascii x = nat_of_ascii y) by lia.
  apply nat_of_ascii_inj in E. subst y. f_equal.
  apply IH; [destruct H1' | destruct H2']; congruence.
Qed.

Definition ascending : list string -> Prop :=
  StronglySorted (fun a b => str_lt a b = true).

Lemma insert_ascending (x : string) (l : list string) :
  ascending l -> ~ In x l -> ascending (insert str_lt (fun k => k) x l).
Proof.
  unfold ascending. induction l as [|y l IH]; simpl; intros Hs Hn.
  - constructor; constructor.
  - inversion Hs as [|? ? Hs' Hy]; subst.
    destruct (str_lt y x) eqn:E.
    + constructor; [apply IH; tauto|].
      apply Forall_forall. intros z Hz.
      apply (Permutation_in _ (Permutation_sym (insert_perm str_lt (fun k => k) x l)))
        in Hz.
      destruct Hz as [<-|Hz]; [exact E|].
      rewrite Forall_forall in Hy. auto.
    + assert (Hxy : str_lt x y = true).
      { destruct (str_lt x y) eqn:E'; [reflexivity|].
        exfalso. apply Hn. left. symmetry. now apply str_lt_total. }
      constructor; [exact Hs|].
      constructor; [exact Hxy|].
      rewrite Forall_forall in Hy. apply Forall_forall. intros z Hz.
      eapply str_lt_trans; eauto.
Qed.

Lemma sorted_ascending (l : list string) :
  NoDup l -> ascending (sorted str_lt (fun k => k) l).
Proof.
  induction l as [|x l IH]; simpl; intros H; [constructor|].
  inversion H as [|? ? Hn Hd]; subst.
  apply insert_ascending; [auto|]. now rewrite sorted_In.
Qed.

(** The keys of the groups that a list of blocks prints, in order. *)
Definition printed_keys (bs : list block) : list string :=
  flat_map (fun b => match b with GroupKey k => [k] | _ => [] end) bs.

Lemma printed_keys_app (a b : list block) :
  printed_keys (a ++ b) = printed_keys a ++ printed_keys b.
Proof. unfold printed_keys. apply flat_map_app. Qed.

Definition is_key (b : block) : bool :=
  match b with GroupKey _ => true | _ => false end.

Lemma printed_keys_plain (bs : list block) :
  Forall (fun b => is_key b = false) bs -> printed_keys bs = [].
Proof.
  induction 1 as [|b bs Hb _ IH]; [reflexivity|].
  change (b :: bs) with ([b] ++ bs). rewrite printed_keys_app, IH.
  destruct b; try reflexivity. discriminate.
Qed.

(** A group prints its key first, and no other key, however it ends. *)
Lemma print_group_key (o : SetOrder) (key : string) (e0 : var_entry)
    (rest : list var_entry) (out out' : list block) (r : Py.result unit) :
  print_group o key (e0 :: rest) out = (r, out') ->
  printed_keys out' = printed_keys out ++ [key].
Proof.
  cbn [print_group]. unfold Out.bind at 1. cbn [Out.print]. intros H.
  assert (E : emits (fun b => is_key b = false)
                (Out.for_each (e0 :: rest) ref_line ;;;
                 Out.for_each (reads_lines o (ve_change e0)) Out.print)).
  { apply emits_bind.
    - apply emits_for_each. intros e _.
      apply (emits_weaken (fun b => is_ref_line b = true)); [|apply ref_line_emits].
      intros []; try reflexivity; discriminate.
    - intros _ p1 r1 p2 Hp. rewrite for_each_print in Hp. injection Hp as <- <-.
      eexists. split; [reflexivity|]. apply Forall_forall. intros b Hb.
      unfold reads_lines in Hb. apply in_flat_map in Hb. destruct Hb as (rv & _ & Hb).
      destruct (negb _); [|destruct Hb]. destruct Hb as [<-|[]]. reflexivity. }
  destruct (E _ _ _ H) as (bs & -> & F).
  rewrite !printed_keys_app, (printed_keys_plain bs F), app_nil_r. reflexivity.
Qed.

(** The loop over the groups prints the keys it is given, in order, up to
    the group in which it stops. *)
Lemma groups_loop_keys (o : SetOrder) (sig : list var_entry) (ks : list string) :
  (forall k, In k ks -> In k (group_keys sig)) ->
  forall (out out' : list block) (r : Py.result unit),
    Out.for_each ks
      (fun key => print_group o key (get_default (group_by_fn sig) key [])) out
    = (r, out') ->
    exists done later,
      ks = done ++ later
      /\ printed_keys out' = printed_keys out ++ done
      /\ (r = OK tt -> later = [])
      /\ (ks <> [] -> done <> []).
Proof.
  induction ks as [|k ks IH]; intros Hk out out' r; cbn [Out.for_each].
  - intros [= <- <-]. exists [], []. split; [reflexivity|].
    rewrite app_nil_r. auto.
  - unfold Out.bind.
    destruct (group_of_key sig k (Hk k (or_introl eq_refl))) as (e0 & rest & G & _).
    rewrite G.
    destruct (print_group o k (e0 :: rest) out) as [[[]|x] o1] eqn:E;
      apply print_group_key in E.
    + intros H. apply IH in H; [|intros k' Hk'; apply Hk; now right].
      destruct H as (done & later & -> & Hp & Hr & _).
      exists (k :: done), later. split; [reflexivity|]. split; [|split; [exact Hr|discriminate]].
      rewrite Hp, E, <- app_assoc. reflexivity.
    + intros [= <- <-]. exists [k], ks. split; [reflexivity|].
      split; [exact E|]. split; [discriminate | discriminate].
Qed.

Lemma ascending_prefix (a b : list string) : ascending (a ++ b) -> ascending a.
Proof.
  unfold ascending. induction a as [|x a IH]; simpl; intros H; [constructor|].
  inversion H as [|? ? Hs Hf]; subst. constructor; [auto|].
  apply Forall_app in Hf. tauto.
Qed.

(** X16. Section 3 prints the groups in the ascending order of their keys
    ([runtime], pallet and function as one string), whatever the order of
    the entries in the list: the keys printed are the first keys of the
    sorted keys of the groups, one at least and each one strictly below the
    next; they are all the keys when the section runs to its end, and the
    keys up to the group in which [format_weight] raises otherwise. *)
Theorem section3_groups_in_key_order
    (o : SetOrder) (cs : list change) (t : float) (sig : list var_entry) :
  sig_mul o cs t = OK sig ->
  sig <> [] ->
  let run := section3 o cs t [] in
  (exists later,
     group_keys sig = printed_keys (snd run) ++ later
     /\ (fst run = OK tt -> later = []))
  /\ printed_keys (snd run) <> []
  /\ ascending (printed_keys (snd run)).
Proof.
  intros S Hsig run.
  destruct (group_from_keys sig [] (NoDup_nil _) (fun _ _ H => match H with end))
    as [Hnd _].
  fold (group_by_fn sig) in Hnd.
  assert (Hasc : ascending (group_keys sig)) by now apply sorted_ascending.
  subst run. rewrite (section3_run o cs t sig [] S).
  destruct sig as [|s sig']; [congruence|]. set (sg := s :: sig') in *.
  destruct (Out.for_each _ _ _) as [r out'] eqn:E. cbn [fst snd].
  apply (groups_loop_keys o sg (group_keys sg) (fun k H => H)) in E.
  destruct E as (done & later & Hks & Hp & Hr & Hne).
  simpl in Hp. rewrite Hp.
  split; [exists later; auto|]. split.
  - apply Hne. intros E0.
    destruct (group_of_entry sg s (or_introl eq_refl)) as [Hin _].
    rewrite E0 in Hin. destruct Hin.
  - apply (ascending_prefix done later). now rewrite <- Hks.
Qed.

(** Two changes of the multiplier of [n], of the function [foo] in two
    runtimes. *)
Definition multiplier_block (v : Z) : weight_block :=
  {| base_ref := 0; base_proof := 0; min_execution_time := None;
     ref_multipliers := [("n", v)]; proof_multipliers := [];
     db_reads_base := 0; db_reads_per_var := [] |}.

Definition flagged_in (cs : list change) : list var_entry :=
  match sig_mul first_seen cs (of_int 50) with
  | OK l => l
  | Raise _ => []
  end.

Definition two_groups : list change :=
  [Build_change "moonriver" "pallet_x" "foo" (multiplier_block 1) (multiplier_block 5);
   Build_change "moonbase" "pallet_x" "foo" (multiplier_block 1) (multiplier_block 3)].

Lemma section3_groups_in_key_order_witness :
  printed_keys (snd (section3 first_seen two_groups (of_int 50) []))
  = ["[moonbase] pallet_x::foo"; "[moonriver] pallet_x::foo"]
  /\ ascending (printed_keys (snd (section3 first_seen two_groups (of_int 50) []))).
Proof.
  split; [vm_compute; reflexivity|].
  refine (proj2 (proj2 (section3_groups_in_key_order first_seen two_groups (of_int 50)
                          (flagged_in two_groups) _ _))).
  - vm_compute. reflexivity.
  - vm_compute. discriminate.
Defined.

(** ** A diff without a file of a runtime *)

Lemma split_files_without_runtime_file (lines : list string) :
  (forall line, In line lines ->
     startswith "diff --git" line = true -> search path_re line = None) ->
  split_files lines = [].
Proof.
  intros H. unfold split_files.
  assert (Inv : forall st,
             file_diffs st = [] /\ current_file st = None ->
             file_diffs (fold_left split_line lines st) = []
             /\ current_file (fold_left split_line lines st) = None).
  { induction lines as [|line lines IH]; intros st Hst; [exact Hst|].
    cbn [fold_left]. apply IH; [intros l Hl; apply H; now right|].
    destruct Hst as [Hf Hc]. unfold split_line.
    destruct (startswith "diff --git" line) eqn:Hd.
    - rewrite (H line (or_introl eq_refl) Hd). unfold flush. rewrite Hc. cbn. auto.
    - rewrite Hc. auto. }
  destruct (Inv split_start (conj eq_refl eq_refl)) as [Hf Hc].
  unfold flush. now rewrite Hc, Hf.
Qed.

Definition empty_report (threshold : float) : list block :=
  [Banner threshold; Total 0;
   Header 1; NoneFound; Header 2; NoneFound; Header 3; NoneFound;
   Header 4; NoneFound; Header 5; NoneFound; Header 6; Header 7; TableHeader].

(** X17. An input that is not blank and in which no line [diff --git ...]
    names a path [b/runtime/...] is no error: the list of changes is empty,
    the run ends normally, and the report is the banner, a total of 0,
    [None found] in each of the sections 1 to 5, an empty section 6 and the
    header of an empty table. *)
Theorem input_without_runtime_file_gives_empty_report
    (o : SetOrder) (diff_text : string) (threshold : float) :
  strip diff_text <> "" ->
  (forall line, In line (split "010" diff_text) ->
     startswith "diff --git" line = true -> search path_re line = None) ->
  aggregate o diff_text = OK []
  /\ main o diff_text threshold
     = {| stdout := empty_report threshold; ended := Returned |}.
Proof.
  intros Hs H.
  assert (Ha : aggregate o diff_text = OK []).
  { unfold aggregate. now rewrite (split_files_without_runtime_file _ H). }
  split; [exact Ha|].
  unfold main. destruct (strip diff_text); [congruence|].
  unfold report, Out.bind at 1, Out.lift at 1. rewrite Ha.
  vm_compute. reflexivity.
Qed.

Definition other_directory_diff : string := text
  ["diff --git a/pallets/foo/src/weights.rs b/pallets/foo/src/weights.rs";
   "@@ -10,2 +10,2 @@ fn foo() -> Weight {";
   "-    // Minimum execution time: 10_000 picoseconds.";
   "+    // Minimum execution time: 90_000 picoseconds."].

Lemma input_without_runtime_file_gives_empty_report_witness :
  main first_seen other_directory_diff (of_int 50)
  = {| stdout := empty_report (of_int 50); ended := Returned |}.
Proof.
  refine (proj2 (input_without_runtime_file_gives_empty_report
                   first_seen other_directory_diff (of_int 50) _ _)).
  - vm_compute. discriminate.
  - assert (E : split "010" other_directory_diff
                = ["diff --git a/pallets/foo/src/weights.rs b/pallets/foo/src/weights.rs";
                   "@@ -10,2 +10,2 @@ fn foo() -> Weight {";
                   "-    // Minimum execution time: 10_000 picoseconds.";
                   "+    // Minimum execution time: 90_000 picoseconds."])
      by (vm_compute; reflexivity).
    rewrite E.
    intros line [<-|[<-|[<-|[<-|[]]]]] Hd;
      first [vm_compute; reflexivity | vm_compute in Hd; discriminate].
Defined.

(** ** The exceptions of a run and the frame of the report *)

(** A result that raises nothing but [e0]. *)
Definition raises_only {A} (e0 : exn) (r : Py.result A) : Prop :=
  forall e, r = Raise e -> e = e0.

Lemma raises_only_OK {A} (e0 : exn) (a : A) : raises_only e0 (OK a).
Proof. intros e H. discriminate. Qed.

Lemma raises_only_bind {A B} (e0 : exn) (r : Py.result A) (f : A -> Py.result B) :
  raises_only e0 r -> (forall a, raises_only e0 (f a)) ->
  raises_only e0 (Py.bind r f).
Proof.
  intros Hr Hf e. destruct r as [a|e']; simpl.
  - apply Hf.
  - intros [= <-]. now apply Hr.
Qed.

Lemma int_raises (s : string) : raises_only ValueError (int s).
Proof.
  intros e. unfold int. destruct s; [now intros [= <-]|].
  destruct (all_digits _); [discriminate | now intros [= <-]].
Qed.

Lemma parse_line_raises (b : weight_block) (line : string) :
  raises_only ValueError (parse_line b line).
Proof.
  unfold parse_line, int_sep. cbv zeta.
  destruct (search min_re _).
  { apply raises_only_bind; [apply int_raises | intros; apply raises_only_OK]. }
  destruct (if negb _ then _ else _).
  { repeat (apply raises_only_bind; [apply int_raises | intros]).
    apply raises_only_OK. }
  destruct (search mul_re _).
  { repeat (apply raises_only_bind; [apply int_raises | intros]).
    apply raises_only_OK. }
  destruct (search reads_re _).
  { apply raises_only_bind; [apply int_raises | intros; apply raises_only_OK]. }
  destruct (search reads_base_re _); [|apply raises_only_OK].
  destruct (negb _); [|apply raises_only_OK].
  apply raises_only_bind; [apply int_raises | intros; apply raises_only_OK].
Qed.

Lemma parse_weight_block_raises (lines : list string) :
  raises_only ValueError (parse_weight_block lines).
Proof.
  unfold parse_weight_block. generalize empty_block as b.
  induction lines as [|line lines IH]; intros b; simpl.
  - apply raises_only_OK.
  - apply raises_only_bind; [apply parse_line_raises | intros; apply IH].
Qed.

Lemma collect_raises (rd ad : dict (list string)) (fns : list string) (acc : fn_diffs) :
  raises_only ValueError (collect rd ad fns acc).
Proof.
  revert acc. induction fns as [|f fns IH]; intros acc; cbn [collect].
  - apply raises_only_OK.
  - destruct (negb _ && negb _); [apply IH|].
    apply raises_only_bind; [apply parse_weight_block_raises | intros ob].
    apply raises_only_bind; [apply parse_weight_block_raises | intros nb].
    destruct (has_data ob || has_data nb); apply IH.
Qed.

Lemma aggregate_raises (o : SetOrder) (diff_text : string) :
  raises_only ValueError (aggregate o diff_text).
Proof.
  unfold aggregate. induction (split_files _) as [|[fp fl] files IH]; simpl.
  - apply raises_only_OK.
  - apply raises_only_bind; [apply collect_raises | intros fd].
    apply raises_only_bind; [exact IH | intros; apply raises_only_OK].
Qed.

Lemma pct_raises (old_val new_val : Z) : raises_only OverflowError (pct old_val new_val).
Proof.
  unfold pct. destruct (old_val =? 0); [apply raises_only_OK|].
  apply raises_only_bind; [|intros; apply raises_only_OK].
  intros e. unfold int_truediv.
  destruct (SFdiv _ _ _ _); try discriminate. now intros [= <-].
Qed.

Lemma format_weight_raises (val : Z) : raises_only OverflowError (format_weight val).
Proof.
  assert (H : forall a b, raises_only OverflowError (int_truediv a b)).
  { intros a b e. unfold int_truediv.
    destruct (SFdiv _ _ _ _); try discriminate. now intros [= <-]. }
  unfold format_weight.
  repeat (destruct (_ >=? _);
          [apply raises_only_bind; [apply H | intros; apply raises_only_OK]|]).
  apply raises_only_OK.
Qed.

Ltac raises_step :=
  first [ apply raises_only_OK
        | apply raises_only_bind; [first [apply pct_raises | eassumption] | intros] ].

Lemma min_changes_raises (cs : list change) : raises_only OverflowError (min_changes cs).
Proof.
  induction cs as [|c cs IH]; simpl; [apply raises_only_OK|].
  destruct (min_measured c); [|exact IH]. repeat raises_step.
Qed.

Lemma sig_base_inc_raises (cs : list change) (t : float) :
  raises_only OverflowError (sig_base_inc cs t).
Proof.
  unfold sig_base_inc. apply raises_only_bind; [|intros; apply raises_only_OK].
  induction cs as [|c cs IH]; simpl; [apply raises_only_OK|].
  destruct (base_both c); [|exact IH]. repeat raises_step.
Qed.

Lemma sig_base_dec_raises (cs : list change) (t : float) :
  raises_only OverflowError (sig_base_dec cs t).
Proof.
  unfold sig_base_dec. apply raises_only_bind; [|intros; apply raises_only_OK].
  induction cs as [|c cs IH]; simpl; [apply raises_only_OK|].
  destruct (base_both c); [|exact IH]. repeat raises_step.
Qed.

Lemma sig_min_raises (cs : list change) (t : float) :
  raises_only OverflowError (sig_min cs t).
Proof.
  unfold sig_min. apply raises_only_bind; [|intros; apply raises_only_OK].
  induction cs as [|c cs IH]; simpl; [apply raises_only_OK|].
  destruct (min_measured c); [|exact IH]. repeat raises_step.
Qed.

Lemma all_min_raises (cs : list change) : raises_only OverflowError (all_min cs).
Proof.
  unfold all_min. apply raises_only_bind; [|intros; apply raises_only_OK].
  induction cs as [|c cs IH]; simpl; [apply raises_only_OK|].
  destruct (min_measured c); [|exact IH]. repeat raises_step.
Qed.

Lemma sig_mul_raises (o : SetOrder) (cs : list change) (t : float) :
  raises_only OverflowError (sig_mul o cs t).
Proof.
  unfold sig_mul. apply raises_only_bind; [|intros; apply raises_only_OK].
  induction cs as [|c cs IH]; cbn [mul_entries]; [apply raises_only_OK|].
  apply raises_only_bind; [|intros; repeat raises_step].
  induction (union_keys o _ _) as [|v vars IHv]; cbn [mul_vars];
    [apply raises_only_OK|].
  destruct (_ && _); [repeat raises_step|].
  destruct (_ && _); [repeat raises_step|].
  destruct (_ && _); [repeat raises_step | exact IHv].
Qed.

Lemma sig_proof_raises (o : SetOrder) (cs : list change) :
  raises_only OverflowError (sig_proof o cs).
Proof.
  unfold sig_proof. apply raises_only_bind; [|intros; apply raises_only_OK].
  induction cs as [|c cs IH]; cbn [proof_entries]; [apply raises_only_OK|].
  apply raises_only_bind; [|intros; repeat raises_step].
  induction (union_keys o _ _) as [|v vars IHv]; cbn [proof_vars];
    [apply raises_only_OK|].
  destruct (_ && _); [repeat raises_step|].
  destruct (_ && _); [repeat raises_step | exact IHv].
Qed.

Definition is_header (b : block) : bool :=
  match b with Header _ => true | _ => false end.

(** The headers of sections among the blocks [bs]. *)
Definition headers (bs : list block) : list block := filter is_header bs.

(** [m] appends to the output; it raises nothing but [OverflowError], and
    when it returns, the headers that it printed are [hs]. *)
Definition prints {A} (m : M A) (hs : list block) : Prop :=
  forall out,
    exists bs,
      snd (m out) = out ++ bs
      /\ match fst (m out) with
         | OK _ => headers bs = hs
         | Raise e => e = OverflowError
         end.

Lemma prints_ret {A} (a : A) : prints (Out.ret a) [].
Proof. intros out. exists []. cbn. now rewrite app_nil_r. Qed.

Lemma prints_print (b : block) : prints (Out.print b) (headers [b]).
Proof. intros out. exists [b]. cbn. auto. Qed.

Lemma prints_lift {A} (r : Py.result A) :
  raises_only OverflowError r -> prints (Out.lift r) [].
Proof.
  intros Hr out. exists []. cbn. rewrite app_nil_r. split; [reflexivity|].
  destruct r; [reflexivity | now apply Hr].
Qed.

Lemma prints_bind {A B} (m : M A) (f : A -> M B) (h1 h2 : list block) :
  prints m h1 -> (forall a, prints (f a) h2) -> prints (Out.bind m f) (h1 ++ h2).
Proof.
  intros Hm Hf out. unfold Out.bind. destruct (Hm out) as (b1 & Ho & Hr).
  destruct (m out) as [[a|e] out1]; cbn in *; subst out1.
  - destruct (Hf a (out ++ b1)) as (b2 & Ho2 & Hr2).
    exists (b1 ++ b2). rewrite Ho2, app_assoc. split; [reflexivity|].
    destruct (fst (f a (out ++ b1))); [|exact Hr2].
    unfold headers in *. now rewrite filter_app, Hr, Hr2.
  - exists b1. auto.
Qed.

Lemma prints_for_each {A} (l : list A) (body : A -> M unit) :
  (forall x, prints (body x) []) -> prints (Out.for_each l body) [].
Proof.
  intros Hb. induction l as [|x l IH]; cbn [Out.for_each].
  - apply prints_ret.
  - apply (prints_bind _ _ [] []); [apply Hb | intros _; exact IH].
Qed.

Lemma prints_when (b : bool) (m : M unit) : prints m [] -> prints (Out.when b m) [].
Proof. intros H. destruct b; [exact H | apply prints_ret]. Qed.

Ltac prints_plain :=
  repeat first
    [ apply prints_ret
    | apply (prints_print NoneFound)
    | apply (prints_bind _ _ [] []); [|intros]
    | apply prints_for_each; intros
    | apply prints_when
    | match goal with
      | |- prints (Out.print ?b) [] => apply (prints_print b)
      | |- prints (Out.lift _) [] =>
          apply prints_lift;
          first [ apply pct_raises | apply min_changes_raises | apply sig_base_inc_raises
                | apply sig_base_dec_raises | apply sig_min_raises | apply all_min_raises
                | apply sig_mul_raises | apply sig_proof_raises
                | apply format_weight_raises ]
      | |- prints (match ?l with [] => _ | _ :: _ => _ end) [] => destruct l
      | |- prints (let '(_, _) := ?x in _) [] => destruct x
      end ].

Lemma section_prints (k : nat) (body : M unit) :
  prints body [] -> prints (Out.bind (Out.print (Header k)) (fun _ => body)) [Header k].
Proof.
  intros H. apply (prints_bind _ _ [Header k] []); [apply (prints_print (Header k))|].
  intros _. exact H.
Qed.

Lemma overall_prints (cs : list change) : prints (overall cs) [].
Proof. unfold overall. prints_plain. Qed.

Lemma section1_prints (cs : list change) (t : float) :
  prints (section1 cs t) [Header 1].
Proof. unfold section1. apply section_prints. prints_plain. Qed.

Lemma section2_prints (cs : list change) (t : float) :
  prints (section2 cs t) [Header 2].
Proof. unfold section2. apply section_prints. prints_plain. Qed.

(** Blocks that are no headers, printed one by one. *)
Lemma prints_blocks (l : list block) :
  (forall b, In b l -> is_header b = false) -> prints (Out.for_each l Out.print) [].
Proof.
  intros H out. exists l. rewrite for_each_print. cbn. split; [reflexivity|].
  unfold headers. induction l as [|b l IH]; cbn [filter]; [reflexivity|].
  rewrite (H b (or_introl eq_refl)). apply IH. intros b' Hb'. apply H. now right.
Qed.

Lemma print_group_prints (o : SetOrder) (key : string) (entries : list var_entry) :
  prints (print_group o key entries) [].
Proof.
  unfold print_group. destruct entries as [|e0 rest]; [apply prints_ret|].
  apply (prints_bind _ _ [] []); [apply (prints_print (GroupKey key)) | intros _].
  apply (prints_bind _ _ [] []).
  - apply prints_for_each. intros e. unfold ref_line. prints_plain.
  - intros _. apply prints_blocks. intros b Hb.
    unfold reads_lines in Hb. apply in_flat_map in Hb.
    destruct Hb as (rv & _ & Hb). destruct (negb _); [|destruct Hb].
    destruct Hb as [<-|[]]. reflexivity.
Qed.

Lemma section3_prints (o : SetOrder) (cs : list change) (t : float) :
  prints (section3 o cs t) [Header 3].
Proof.
  unfold section3. apply section_prints.
  apply (prints_bind _ _ [] []); [apply prints_lift, sig_mul_raises | intros sig].
  destruct sig as [|s sig']; [apply (prints_print NoneFound)|].
  apply prints_for_each. intros key. apply print_group_prints.
Qed.

Lemma section4_prints (cs : list change) (t : float) :
  prints (section4 cs t) [Header 4].
Proof. unfold section4. apply section_prints. prints_plain. Qed.

Lemma section5_prints (o : SetOrder) (cs : list change) :
  prints (section5 o cs) [Header 5].
Proof. unfold section5. apply section_prints. prints_plain. Qed.

Lemma section6_prints (cs : list change) (t : float) :
  prints (section6 cs t) [Header 6].
Proof.
  unfold section6. apply section_prints. apply prints_for_each. intros rt.
  unfold runtime_summary. destruct (filter _ cs) as [|c0 items]; [apply prints_ret|].
  prints_plain.
Qed.

Lemma section7_prints (cs : list change) : prints (section7 cs) [Header 7].
Proof.
  unfold section7. apply section_prints. prints_plain.
Qed.

(** What [report] does once the changes are known. *)
Definition print_report (o : SetOrder) (all_changes : list change) (threshold : float)
    : M unit :=
  overall all_changes ;;;
  section1 all_changes threshold ;;;
  section2 all_changes threshold ;;;
  section3 o all_changes threshold ;;;
  section4 all_changes threshold ;;;
  section5 o all_changes ;;;
  section6 all_changes threshold ;;;
  section7 all_changes.

Definition seven_headers : list block :=
  [Header 1; Header 2; Header 3; Header 4; Header 5; Header 6; Header 7].

Lemma print_report_prints (o : SetOrder) (cs : list change) (t : float) :
  prints (print_report o cs t) seven_headers.
Proof.
  unfold print_report.
  apply (prints_bind _ _ [] seven_headers); [apply overall_prints | intros _].
  apply (prints_bind _ _ [Header 1] _); [apply section1_prints | intros _].
  apply (prints_bind _ _ [Header 2] _); [apply section2_prints | intros _].
  apply (prints_bind _ _ [Header 3] _); [apply section3_prints | intros _].
  apply (prints_bind _ _ [Header 4] _); [apply section4_prints | intros _].
  apply (prints_bind _ _ [Header 5] _); [apply section5_prints | intros _].
  apply (prints_bind _ _ [Header 6] _); [apply section6_prints | intros _].
  apply section7_prints.
Qed.

Lemma report_run (o : SetOrder) (diff_text : string) (t : float) :
  report o diff_text t []
  = match aggregate o diff_text with
    | OK cs => print_report o cs t [Banner t]
    | Raise e => (Raise e, [])
    end.
Proof.
  unfold report, Out.bind at 1, Out.lift at 1.
  destruct (aggregate o diff_text); reflexivity.
Qed.

(** X19. How a run on an input that is not blank ends tells how far it
    went.  Either the extraction raises a [ValueError]: then the run ends
    with it and nothing has been printed.  Or the list of changes is
    computed and the banner is printed first: then the run returns, or it
    ends with an [OverflowError] raised while the report is computed and
    printed, and the output is what the report had printed up to there. *)
Theorem uncaught_exception_tells_the_phase
    (o : SetOrder) (diff_text : string) (threshold : float) :
  strip diff_text <> "" ->
  (aggregate o diff_text = Raise ValueError
   /\ main o diff_text threshold = {| stdout := []; ended := Uncaught ValueError |})
  \/ (exists cs rest,
        aggregate o diff_text = OK cs
        /\ stdout (main o diff_text threshold) = Banner threshold :: rest
        /\ ((print_report o cs threshold [Banner threshold]
             = (OK tt, Banner threshold :: rest)
             /\ ended (main o diff_text threshold) = Returned)
            \/ (print_report o cs threshold [Banner threshold]
                = (Raise OverflowError, Banner threshold :: rest)
                /\ ended (main o diff_text threshold) = Uncaught OverflowError))).
Proof.
  intros Hs. unfold main. destruct (strip diff_text); [congruence|].
  rewrite report_run.
  destruct (aggregate o diff_text) as [cs|e'] eqn:Ha.
  - right.
    destruct (print_report_prints o cs threshold [Banner threshold]) as (bs & Ho & Hr).
    destruct (print_report o cs threshold [Banner threshold]) as [[[]|e'] out] eqn:E;
      cbn [fst snd] in Ho, Hr; subst out; exists cs, bs;
      (split; [reflexivity|]); (split; [reflexivity|]).
    + left. split; [exact E | reflexivity].
    + subst e'. right. split; [exact E | reflexivity].
  - left. rewrite (aggregate_raises o diff_text e' Ha). split; reflexivity.
Qed.

(** A change whose minimum execution time is too large for the division of
    [format_weight]; its percentage can be computed. *)
Definition huge_time : Z := 10 ^ 320.

Definition huge_time_change : change :=
  {| runtime := "moonbase"; pallet := "pallet_x"; function := "foo";
     old := {| base_ref := 0; base_proof := 0; min_execution_time := Some huge_time;
               ref_multipliers := []; proof_multipliers := [];
               db_reads_base := 0; db_reads_per_var := [] |};
     new := {| base_ref := 0; base_proof := 0;
               min_execution_time := Some (3 * huge_time);
               ref_multipliers := []; proof_multipliers := [];
               db_reads_base := 0; db_reads_per_var := [] |} |}.

Lemma uncaught_exception_tells_the_phase_witness :
  (aggregate first_seen malformed_number_diff = Raise ValueError
   /\ main first_seen malformed_number_diff (of_int 50)
      = {| stdout := []; ended := Uncaught ValueError |})
  \/ (exists cs rest,
        aggregate first_seen malformed_number_diff = OK cs
        /\ stdout (main first_seen malformed_number_diff (of_int 50))
           = Banner (of_int 50) :: rest
        /\ ((print_report first_seen cs (of_int 50) [Banner (of_int 50)]
             = (OK tt, Banner (of_int 50) :: rest)
             /\ ended (main first_seen malformed_number_diff (of_int 50)) = Returned)
            \/ (print_report first_seen cs (of_int 50) [Banner (of_int 50)]
                = (Raise OverflowError, Banner (of_int 50) :: rest)
                /\ ended (main first_seen malformed_number_diff (of_int 50))
                   = Uncaught OverflowError))).
Proof.
  refine (uncaught_exception_tells_the_phase first_seen malformed_number_diff
            (of_int 50) _).
  vm_compute. discriminate.
Defined.

(** A value that [pct] handles and [format_weight] does not: section 4 of
    the report stops after the line of the function. *)
Example format_weight_overflow_in_section4 :
  pct huge_time (3 * huge_time) = OK (of_int 200)
  /\ format_weight huge_time = Raise OverflowError
  /\ section4 [huge_time_change] (of_int 50) []
     = (Raise OverflowError, [Header 4; FnLine huge_time_change]).
Proof.
  repeat split; vm_compute; reflexivity.
Qed.

(** X20. A run that returns has printed the whole frame of the report: the
    banner first, then the headers of the sections 1 to 7, each once and in
    this order, whatever the changes are; a section without entry is not
    left out. *)
Theorem returned_run_prints_seven_sections
    (o : SetOrder) (diff_text : string) (threshold : float) :
  ended (main o diff_text threshold) = Returned ->
  headers (stdout (main o diff_text threshold)) = seven_headers
  /\ exists rest, stdout (main o diff_text threshold) = Banner threshold :: rest.
Proof.
  unfold main. destruct (strip diff_text); [discriminate|].
  rewrite report_run.
  destruct (aggregate o diff_text) as [cs|e'] eqn:Ha; [|discriminate].
  destruct (print_report_prints o cs threshold [Banner threshold]) as (bs & Ho & Hr).
  destruct (print_report o cs threshold [Banner threshold]) as [[u|e'] out];
    cbn in *; [|discriminate].
  intros _. subst out. split; [exact Hr | eauto].
Qed.

Lemma returned_run_prints_seven_sections_witness :
  headers (stdout (main first_seen sample_diff (of_int 50))) = seven_headers
  /\ exists rest,
       stdout (main first_seen sample_diff (of_int 50)) = Banner (of_int 50) :: rest.
Proof.
  refine (returned_run_prints_seven_sections first_seen sample_diff (of_int 50) _).
  vm_compute. reflexivity.
Defined.

(** ** The blocks of the files *)

Lemma split_body (body : list string) :
  (forall l, In l body -> startswith "diff --git" l = false) ->
  forall (fd : dict (list string)) (p : string) (cl : list string),
    fold_left split_line body
      {| file_diffs := fd; current_file := Some p; current_lines := cl |}
    = {| file_diffs := fd; current_file := Some p; current_lines := cl ++ body |}.
Proof.
  induction body as [|l body IH]; intros Hb fd p cl; cbn [fold_left].
  - now rewrite app_nil_r.
  - unfold split_line at 2. rewrite (Hb l (or_introl eq_refl)). cbn.
    rewrite IH by (intros l' Hl'; apply Hb; now right).
    now rewrite <- app_assoc.
Qed.

(** X21. One more block of a file: after any lines, a header line
    [diff --git ...] whose path is under [runtime/], followed by lines that
    are no header, assigns these lines to this path in the files found in
    the lines before - a path seen twice keeps its place and holds the lines
    of its last block - and a header that no line follows adds nothing. *)
Theorem split_files_one_more_block
    (lines : list string) (header : string) (body : list string) (m : list string) :
  startswith "diff --git" header = true ->
  search path_re header = Some m ->
  (forall l, In l body -> startswith "diff --git" l = false) ->
  split_files (lines ++ header :: body)
  = match body with
    | [] => split_files lines
    | _ => set (split_files lines) (group m 1) body
    end.
Proof.
  intros Hh Hm Hb. unfold split_files.
  rewrite fold_left_app. cbn [fold_left].
  unfold split_line at 2. rewrite Hh, Hm.
  rewrite (split_body body Hb). cbn [app].
  destruct (path_re_captures _ _ Hm) as (p & -> & _).
  unfold flush at 1. cbn [current_file current_lines file_diffs group nth Nat.sub].
  change (String.append "runtime/" p) with (String "r" (String.append "untime/" p)).
  destruct body; reflexivity.
Qed.

Lemma split_files_one_more_block_witness :
  split_files
    ([file_header "runtime/moonbase/src/weights/a.rs"; "-old"]
     ++ file_header "runtime/moonbase/src/weights/a.rs" :: ["+new"; " same"])
  = [("runtime/moonbase/src/weights/a.rs", ["+new"; " same"])].
Proof.
  rewrite (split_files_one_more_block
             [file_header "runtime/moonbase/src/weights/a.rs"; "-old"]
             (file_header "runtime/moonbase/src/weights/a.rs")
             ["+new"; " same"] ["runtime/moonbase/src/weights/a.rs"]).
  - vm_compute. reflexivity.
  - vm_compute. reflexivity.
  - vm_compute. reflexivity.
  - intros l [<-|[<-|[]]]; vm_compute; reflexivity.
Defined.

(** ** The entries of section 5 *)

Lemma proof_vars_entries (c : change) (vars : list string) :
  forall l, proof_vars c vars = OK l ->
  forall e, In e l ->
    ve_change e = c /\ In (ve_var e) vars /\ 0 < ve_new e
    /\ ve_old e = get_default (proof_multipliers (old c)) (ve_var e) 0
    /\ ve_new e = get_default (proof_multipliers (new c)) (ve_var e) 0
    /\ (ve_old e = 0 -> ve_pct e = inf).
Proof.
  induction vars as [|v vars IH]; cbn [proof_vars]; intros l H e He.
  - injection H as <-. destruct He.
  - cbv zeta in H.
    assert (Htail : forall l', proof_vars c vars = OK l' -> In e l' ->
              ve_change e = c /\ In (ve_var e) (v :: vars) /\ 0 < ve_new e
              /\ ve_old e = get_default (proof_multipliers (old c)) (ve_var e) 0
              /\ ve_new e = get_default (proof_multipliers (new c)) (ve_var e) 0
              /\ (ve_old e = 0 -> ve_pct e = inf)).
    { intros l' Hl' Hin. destruct (IH _ Hl' e Hin) as (H1 & H2 & H3).
      split; [exact H1|]. split; [now right | exact H3]. }
    destruct ((get_default (proof_multipliers (old c)) v 0 >? 0)
              && (get_default (proof_multipliers (new c)) v 0 >? 0)) eqn:B1.
    { do 2 bind_inv H. injection H as <-.
      apply andb_true_iff in B1. rewrite !Z.gtb_lt in B1.
      match type of He with
      | In _ (if ?b then _ else _) => destruct b
      end; [|now apply (Htail _ eq_refl)].
      destruct He as [<-|He]; [|now apply (Htail _ eq_refl)].
      cbn. repeat split; auto; try tauto. lia. }
    destruct ((get_default (proof_multipliers (old c)) v 0 =? 0)
              && (get_default (proof_multipliers (new c)) v 0 >? 0)) eqn:B2.
    { bind_inv H. injection H as <-.
      apply andb_true_iff in B2. rewrite Z.eqb_eq, Z.gtb_lt in B2.
      destruct He as [<-|He]; [|now apply (Htail _ eq_refl)].
      cbn. repeat split; auto; tauto. }
    now apply (Htail l).
Qed.

(** X22. Section 5 lists no removed term: every entry of the list of proof
    sizes belongs to a change of the list, holds the two multipliers of its
    variable in this change, and has a new multiplier above zero; an entry
    whose old multiplier is absent carries the sentinel of an appeared
    term. *)
Theorem proof_size_entries_have_a_new_value
    (o : SetOrder) (cs : list change) (l : list var_entry) (e : var_entry) :
  sig_proof o cs = OK l ->
  In e l ->
  In (ve_change e) cs
  /\ 0 < ve_new e
  /\ ve_old e = get_default (proof_multipliers (old (ve_change e))) (ve_var e) 0
  /\ ve_new e = get_default (proof_multipliers (new (ve_change e))) (ve_var e) 0
  /\ (ve_old e = 0 -> ve_pct e = inf).
Proof.
  unfold sig_proof. intros H He. bind_inv H. injection H as <-.
  apply sorted_reverse_In in He.
  revert a E He. induction cs as [|c cs IH]; cbn [proof_entries]; intros l H He.
  - injection H as <-. destruct He.
  - do 2 bind_inv H. injection H as <-.
    apply in_app_or in He. destruct He as [He|He].
    + destruct (proof_vars_entries _ _ _ E e He) as (<- & _ & H3 & H4 & H5 & H6).
      split; [now left | auto].
    + destruct (IH _ eq_refl He) as (H1 & H2).
      split; [now right | exact H2].
Qed.

Definition proof_size_change : change :=
  {| runtime := "moonbase"; pallet := "pallet_x"; function := "foo";
     old := {| base_ref := 0; base_proof := 0; min_execution_time := Some 1;
               ref_multipliers := []; proof_multipliers := [("gone", 64)];
               db_reads_base := 0; db_reads_per_var := [] |};
     new := {| base_ref := 0; base_proof := 0; min_execution_time := Some 1;
               ref_multipliers := []; proof_multipliers := [("fresh", 32)];
               db_reads_base := 0; db_reads_per_var := [] |} |}.

Definition fresh_entry : var_entry :=
  {| ve_change := proof_size_change; ve_var := "fresh"; ve_old := 0; ve_new := 32;
     ve_pct := inf |}.

Lemma proof_size_entries_have_a_new_value_witness :
  sig_proof first_seen [proof_size_change] = OK [fresh_entry]
  /\ In (ve_change fresh_entry) [proof_size_change]
  /\ 0 < ve_new fresh_entry.
Proof.
  assert (H : sig_proof first_seen [proof_size_change] = OK [fresh_entry])
    by (vm_compute; reflexivity).
  split; [exact H|].
  destruct (proof_size_entries_have_a_new_value first_seen [proof_size_change]
              [fresh_entry] fresh_entry H (or_introl eq_refl)) as (H1 & H2 & _).
  split; assumption.
Defined.

